(** * vault-proxy-agent: a shallow embedding of the request pipeline

    The development follows the Go packages of the repository:

    - [ParseHeader]  the request fingerprinter (parseHeader.go);
    - [Cache]        the response cache (cachedResponse.go, vaultCache.go);
    - [Limiter]      the composite limiter and the rate-limiter registry
                     with its middleware (rateLimiter.go);
    - [Agent]        membership refresh and consistent-hash routing
                     (vaultAgent.go);
    - [Proxy]        the upstream stage (vaultProxy.go).

    Conventions.  Go's [time.Now().UnixMilli()] is the argument [now : Z] of
    the operation that reads the clock; one operation observes one instant.
    A nil pointer is [None]; dereferencing it is a panic.  A function that
    can panic returns a [result]; a handler returns how it ended ([ctl]:
    it returned, it panicked, or [log.Fatal] ended the process) beside the
    state it left.  Go's maps are [gmap]s; where the code ranges over a map,
    the order in which the runtime yields the keys is an explicit argument,
    because Go leaves it unspecified.  The limiters of a composite, the
    entries of the cache and the visitors of the registry are held by value:
    no two of them share state. *)

From Stdlib Require Import ZArith QArith Lqa String Ascii List Lia Permutation Sorted.
From Stdlib Require Import DecimalString DecimalPos.
From stdpp Require Import gmap strings.

Open Scope string_scope.
Open Scope list_scope.
Open Scope Z_scope.

(** ** Outcomes of fallible Go code *)

Inductive result (A : Type) : Type :=
| Ok (a : A)
| Panic (why : string).
Arguments Ok {A} a.
Arguments Panic {A} why.

Definition nil_dereference : string :=
  "invalid memory address or nil pointer dereference".
Definition index_out_of_range : string := "index out of range".
Definition integer_divide_by_zero : string := "integer divide by zero".

(** ** Go's sort package

    [sort.SliceStable] returns the one stable arrangement of its input, so
    any stable sort is an exact model of it.  [sort.Slice] is not stable in
    general; on slices of at most twelve elements the library runs insertion
    sort, which is the function below, and on longer slices its result can
    differ from it only in the order of elements that compare equal. *)

Section Sort.
Context {A : Type} (less : A -> A -> bool).

Fixpoint insert_sorted (x : A) (l : list A) : list A :=
  match l with
  | [] => [x]
  | y :: l' => if less y x then y :: insert_sorted x l' else x :: y :: l'
  end.

Definition insertion_sort (l : list A) : list A :=
  foldr insert_sorted [] l.

End Sort.

Definition sort_Slice {A} (less : A -> A -> bool) (l : list A) : list A :=
  insertion_sort less l.

Definition sort_SliceStable {A} (less : A -> A -> bool) (l : list A) : list A :=
  insertion_sort less l.

(** ** HTTP messages *)

Definition Header := list (string * string).

(** [http.Header.Get]: the first value stored under the key, the empty
    string when there is none. *)
Fixpoint Header_Get (h : Header) (key : string) : string :=
  match h with
  | [] => ""
  | (k, v) :: h' => if String.eqb k key then v else Header_Get h' key
  end.

Definition Header_Del (h : Header) (key : string) : Header :=
  List.filter (fun kv => negb (String.eqb (fst kv) key)) h.

Definition Header_Set (h : Header) (key value : string) : Header :=
  Header_Del h key ++ [(key, value)].

Record Request := mkRequest {
  Method : string;
  URL_Path : string;
  req_Header : Header
}.

(** A response body is a stream: the bytes it yields, and whether reading
    it ends in an error instead of EOF. *)
Record Body := mkBody {
  body_bytes : string;
  body_fails : bool
}.

(** [io.NopCloser(strings.NewReader(s))] *)
Definition NewReader (s : string) : Body := mkBody s false.

Record Response := mkResponse {
  StatusCode : Z;
  resp_Header : Header;
  resp_Body : Body
}.

(** What [client.Do] and the [refresher] closure return: a response
    pointer, nil on failure, and an error, nil on success. *)
Definition upstream_result : Type := option Response * option string.

(** [http.ResponseWriter], recording what the client is sent: the header
    map under construction, the status line once written, the header sent
    with it, and the body bytes. *)
Record ResponseWriter := mkWriter {
  w_Header : Header;
  w_status : option Z;
  w_sent : Header;
  w_body : string
}.

Definition new_writer : ResponseWriter := mkWriter [] None [] "".

(** utils.go: every value of [src] is added to [dst]. *)
Definition copyHeaders (dst src : Header) : Header := dst ++ src.

Definition with_Header (w : ResponseWriter) (h : Header) : ResponseWriter :=
  mkWriter h (w_status w) (w_sent w) (w_body w).

Definition WriteHeader (w : ResponseWriter) (code : Z) : ResponseWriter :=
  match w_status w with
  | Some _ => w (* superfluous call: ignored *)
  | None => mkWriter (w_Header w) (Some code) (w_Header w) (w_body w)
  end.

Definition Write (w : ResponseWriter) (data : string) : ResponseWriter :=
  let w := WriteHeader w 200 in
  mkWriter (w_Header w) (w_status w) (w_sent w) (w_body w +:+ data).

(** [io.Copy(writer, body)]: the bytes of the body reach the writer; the
    error of the stream, if any, is the error of the copy. *)
Definition io_Copy (w : ResponseWriter) (b : Body) : ResponseWriter * bool :=
  (Write w (body_bytes b), body_fails b).

Definition LF : string := String (ascii_of_nat 10) EmptyString.

(** [http.Error]: the header of a plain-text error, the status, the
    message and a newline. *)
Definition http_Error (w : ResponseWriter) (msg : string) (code : Z)
  : ResponseWriter :=
  let h := Header_Del (w_Header w) "Content-Length" in
  let h := Header_Set h "Content-Type" "text/plain; charset=utf-8" in
  let h := Header_Set h "X-Content-Type-Options" "nosniff" in
  Write (WriteHeader (with_Header w h) code) (msg +:+ LF).

Definition StatusTooManyRequests : Z := 429.
Definition StatusInternalServerError : Z := 500.

Definition http_StatusText (code : Z) : string :=
  if code =? 429 then "Too Many Requests"
  else if code =? 500 then "Internal Server Error"
  else "".

(** How a handler ends: it returns, it panics, or [log.Fatal] ends the
    process. *)
Inductive ctl : Type :=
| Returned
| Panicked (why : string)
| Exited (why : string).

(** The hex MD5 digest of a string,
    [hex.EncodeToString(md5.Sum([]byte(s)))]. *)
Class Digest := { md5_hex : string -> string }.

(** ** config.go *)

Module Config.

Definition VAULT_CACHE_DEFAULT_EXPIRATION : Z := 30.
Definition VAULT_CACHE_PURGE_FREQUENCY : Z := 30.
Definition CACHEABLE_SUBPATHS : list string := ["/v1/secret/data"].
Definition METHODS_TO_IGNORE : list string := ["DELETE"; "POST"; "PATCH"].
Definition RATE_LIMITER_DEFAULT_EXPIRATION : Z := 60.
Definition RATE_LIMITER_PURGE_FREQUENCY : Z := 60.
Definition RATELIMITING_HASHING_KEY_PREFIX : string :=
  "umtmynuxphgogwcickiyyongcdmpldofpqufkvdmckasamrtzk".
Definition RATELIMITING_HASHING_KEY_SUFFIX : string :=
  "fiamhqbicxrgcrfvirlkdxmxzdbxoeojhkfffjsqycxizncojv".
Definition BURST_LIMIT_PER_SECOND : Z := 2.
Definition RATE_LIMIT_PER_MINUTE : Z := 5.
Definition RATE_LIMITER_BUCKET_SIZE : Z := 5.
Definition CACHE_SIZE : nat := 2.
Definition RATE_LIMITER_CACHE_SIZE : nat := 2.
Definition VAULT_CONFIG_CHECK_FREQUENCY : Z := 5.
Definition AGENT_VAULT_PORT_DIFF : Z := 1000.
Definition AGENT_REQUEST_TIMEOUT : Z := 2.
Definition VAULT_TOKEN_HEADER : string := "X-Vault-Token".
Definition VAULT_NAMESPACE_HEADER : string := "X-Vault-Namespace".

End Config.

(** ** parseHeader.go *)

Module ParseHeader.
Import Config.

Record parseHeader := mkParseHeader {
  vaultCacheKey : string;
  limiterCacheKey : string;
  isPathCacheable : bool;
  isRequestIgnorable : bool
}.

Definition NewParseHeader : parseHeader := mkParseHeader "" "" false true.

(** [strings.Contains] *)
Fixpoint strings_Contains (s substr : string) : bool :=
  String.prefix substr s ||
  match s with
  | EmptyString => false
  | String _ s' => strings_Contains s' substr
  end.

Definition checkPathCacheable (path : string) : bool :=
  existsb (fun cacheableSubPath => strings_Contains path cacheableSubPath)
          CACHEABLE_SUBPATHS.

Definition checkRequestIgnorable (method : string) : bool :=
  existsb (fun methodName => strings_Contains method methodName)
          METHODS_TO_IGNORE.

Definition parseVaultRequest (request : Request) : string * string * string :=
  (Header_Get (req_Header request) VAULT_TOKEN_HEADER,
   Header_Get (req_Header request) VAULT_NAMESPACE_HEADER,
   URL_Path request).

Section Keys.
Context `{Digest}.

Definition getMD5HashedCacheKey (request : Request) : string :=
  let '(token, namespace, path) := parseVaultRequest request in
  md5_hex (token +:+ "-" +:+ path +:+ "-" +:+ namespace).

Definition getMD5HashedLimiterKey (request : Request) : string :=
  let '(token, _, _) := parseVaultRequest request in
  md5_hex (RATELIMITING_HASHING_KEY_PREFIX +:+ "-" +:+ token +:+ "-" +:+
           RATELIMITING_HASHING_KEY_SUFFIX).

(** The record [ParseHeaderHandler] attaches to the request context. *)
Definition ParseHeaderHandler (request : Request) : parseHeader :=
  mkParseHeader (getMD5HashedCacheKey request)
                (getMD5HashedLimiterKey request)
                (checkPathCacheable (URL_Path request))
                (checkRequestIgnorable (Method request)).

End Keys.
End ParseHeader.

(** ** The eviction loop shared by the two registries

    [purgeLruCacheEntries] and [purgeLruTokenLimiters] run the same loop over
    the sorted keys:
<<
    for i, k := range keys {
        delete(m, k)
        if i >= len(m)/4 { break }
    }
>>
    [len(m)] is read after the deletion, at every iteration. *)

Section Lru.
Context {V : Type} (used : V -> Z).

(** [m[k].lastUsed] for a key of the map; the keys compared are those the
    range over [m] has just produced, so the lookup does not miss. *)
Definition lastUsed_of (m : gmap string V) (k : string) : Z :=
  match m !! k with
  | Some v => used v
  | None => 0
  end.

Definition byLastUsed (m : gmap string V) (ki kj : string) : bool :=
  lastUsed_of m ki <? lastUsed_of m kj.

Fixpoint delete_loop (i : nat) (keys : list string) (m : gmap string V)
  : gmap string V :=
  match keys with
  | [] => m
  | k :: keys' =>
      let m' := delete k m in
      if (size m' / 4 <=? i)%nat then m' else delete_loop (S i) keys' m'
  end.

(** [order] is the order in which the range over the map yields its keys. *)
Definition purgeLru (capacity : nat) (order : list string) (m : gmap string V)
  : gmap string V :=
  if (capacity <=? size m)%nat then
    let keys := sort_SliceStable (byLastUsed m) order in
    delete_loop 0 keys m
  else m.

End Lru.

(** ** cachedResponse.go, vaultCache.go *)

Module Cache.
Import Config ParseHeader.

Record cachedResponse := mkCachedResponse {
  response : Response;
  bodyData : string;
  expires : Z;
  lastUsed : Z
}.

(** The stored response with a fresh reader over the stored body. *)
Definition getResponse (cr : cachedResponse) : Response :=
  mkResponse (StatusCode (response cr)) (resp_Header (response cr))
             (NewReader (bodyData cr)).

Definition isExpired (cr : cachedResponse) (now : Z) : bool :=
  now >? expires cr.

(** The body is copied into a buffer; the error of [io.Copy] is dropped.
    The response handed back to the caller reads from the buffer. *)
Definition newCachedResponse (response : Response) (now : Z)
  : cachedResponse * Response :=
  let body := body_bytes (resp_Body response) in
  let response :=
    mkResponse (StatusCode response) (resp_Header response) (NewReader body) in
  let expires := now + VAULT_CACHE_DEFAULT_EXPIRATION * 1000 in
  let lastUsed := now in
  (mkCachedResponse response body expires lastUsed, response).

Record vaultCache := mkVaultCache {
  cache : gmap string cachedResponse;
  lastCachePurge : Z
}.

Definition NewVaultCache (now : Z) : vaultCache := mkVaultCache ∅ now.

Definition getFromCache (c : vaultCache) (key : string)
  : option cachedResponse :=
  cache c !! key.

Definition purgeLruCacheEntries (order : list string) (c : vaultCache)
  : vaultCache :=
  mkVaultCache (purgeLru lastUsed CACHE_SIZE order (cache c))
               (lastCachePurge c).

Definition setInCache (order : list string) (c : vaultCache) (key : string)
  (response : Response) (now : Z) : vaultCache * Response :=
  let c := purgeLruCacheEntries order c in
  let '(cr, response) := newCachedResponse response now in
  (mkVaultCache (<[key := cr]> (cache c)) (lastCachePurge c), response).

Definition removeFromCache (c : vaultCache) (key : string) : vaultCache :=
  mkVaultCache (delete key (cache c)) (lastCachePurge c).

Definition purgeOldCacheEntries (c : vaultCache) (now : Z) : vaultCache :=
  if now - VAULT_CACHE_PURGE_FREQUENCY * 1000 >? lastCachePurge c then
    mkVaultCache
      (filter (fun kv : string * cachedResponse => isExpired kv.2 now = false)
              (cache c))
      now
  else c.

Section Requests.
Context `{Digest}.

(** The response and the error of [getCachedResponse]: [Some r] is a hit
    (error nil), [None] the error "key not found in cache". *)
Definition getCachedResponse (c : vaultCache) (request : Request) (now : Z)
  : option Response * vaultCache :=
  let c := purgeOldCacheEntries c now in
  let cacheKey := getMD5HashedCacheKey request in
  match getFromCache c cacheKey with
  | Some cachedResponse =>
      if negb (isExpired cachedResponse now) then
        let touched :=
          mkCachedResponse (response cachedResponse) (bodyData cachedResponse)
                           (expires cachedResponse) now in
        (Some (getResponse cachedResponse),
         mkVaultCache (<[cacheKey := touched]> (cache c)) (lastCachePurge c))
      else (None, c)
  | None => (None, c)
  end.

(** [refresher()] has been run and returned [refreshed]; the status of the
    response is read whatever the error is. *)
Definition refreshCache (order : list string) (c : vaultCache)
  (request : Request) (refreshed : upstream_result) (now : Z)
  : result (Response * option string * vaultCache) :=
  let cacheKey := getMD5HashedCacheKey request in
  let '(response, err) := refreshed in
  match response with
  | None => Panic nil_dereference
  | Some response =>
      if StatusCode response =? 200 then
        let '(c, response) := setInCache order c cacheKey response now in
        Ok (response, err, c)
      else Ok (response, err, c)
  end.

End Requests.
End Cache.

(** ** rateLimiter.go *)

Module Limiter.
Import Config ParseHeader Cache.

(** [rate.Limit] is a number of events per second.  The library holds it in
    a float64; here it is an exact rational. *)
Definition Limit : Type := Q.

Definition Limit_ltb (a b : Limit) : bool := negb (Qle_bool b a).

(** The interface [RateLimiter].  [Allow] reads the clock and changes the
    limiter; [Wait] blocks and is not used on the request path. *)
Class RateLimiter (B : Type) := {
  Allow : B -> Z -> bool * B;
  Limit_of : B -> Limit
}.

Section Multi.
Context {B : Type} `{RateLimiter B}.

Record multiLimiter := mkMultiLimiter { limiters : list B }.

Definition byLimit (a b : B) : bool := Limit_ltb (Limit_of a) (Limit_of b).

Definition MultiLimiter (ls : list B) : multiLimiter :=
  mkMultiLimiter (sort_Slice byLimit ls).

(** The loop of [multiLimiter.Allow]: the first limiter that denies ends
    it; the limiters before it have been asked and keep their new state. *)
Fixpoint Allow_loop (ls : list B) (now : Z) : bool * list B :=
  match ls with
  | [] => (true, [])
  | l :: rest =>
      let '(ok, l') := Allow l now in
      if ok then
        let '(r, rest') := Allow_loop rest now in (r, l' :: rest')
      else (false, l' :: rest)
  end.

Definition multiLimiter_Allow (l : multiLimiter) (now : Z)
  : bool * multiLimiter :=
  let '(ok, ls) := Allow_loop (limiters l) now in (ok, mkMultiLimiter ls).

Definition multiLimiter_Limit (l : multiLimiter) : result Limit :=
  match limiters l with
  | [] => Panic index_out_of_range
  | l0 :: _ => Ok (Limit_of l0)
  end.

End Multi.
Arguments multiLimiter B : clear implicits.

(** *** golang.org/x/time/rate

    The token bucket of the library, with exact rationals for its float64
    quantities and milliseconds for its instants.  [last = None] is the zero
    time of a limiter that has not been used; the library's subtraction of
    instants saturates there at the longest duration.  The library turns a
    deficit of tokens into a whole number of nanoseconds to wait, and so
    lets through a request whose deficit is worth less than a nanosecond;
    here a request is let through when the deficit is zero. *)

Record rate_Limiter := mkLimiter {
  limit : Limit;
  burst : Z;
  tokens : Q;
  last : option Z
}.

(** [rate.Inf = math.MaxFloat64] *)
Definition Inf : Limit := inject_Z (2 ^ 1024 - 2 ^ 971).

Definition maxDuration_seconds : Q := inject_Z (2 ^ 63 - 1) / inject_Z (10 ^ 9).

Definition NewLimiter (r : Limit) (b : Z) : rate_Limiter :=
  mkLimiter r b 0 None.

Definition advance (lim : rate_Limiter) (now : Z) : Q :=
  let elapsed : Q :=
    match last lim with
    | None => maxDuration_seconds
    | Some t => if now <? t then 0%Q else (inject_Z (now - t) / inject_Z 1000)%Q
    end in
  let tokens := (tokens lim + elapsed * limit lim)%Q in
  if Limit_ltb (inject_Z (burst lim)) tokens then inject_Z (burst lim)
  else tokens.

(** [lim.Allow()], that is [lim.reserveN(now, 1, 0).ok]. *)
Definition rate_Allow (lim : rate_Limiter) (now : Z) : bool * rate_Limiter :=
  if Qeq_bool (limit lim) Inf then (true, lim)
  else if Qeq_bool (limit lim) 0 then
    if 1 <=? burst lim
    then (true, mkLimiter (limit lim) (burst lim - 1) (tokens lim) (last lim))
    else (false, lim)
  else
    let tokens := (advance lim now - 1)%Q in
    if (1 <=? burst lim) && Qle_bool 0 tokens
    then (true, mkLimiter (limit lim) (burst lim) tokens (Some now))
    else (false, lim).

#[export] Instance rate_Limiter_RateLimiter : RateLimiter rate_Limiter :=
  {| Allow := rate_Allow; Limit_of := limit |}.

(** [rate.Every]: one event per [interval] nanoseconds. *)
Definition rate_Every (interval : Z) : Limit :=
  if interval <=? 0 then Inf
  else (inject_Z (10 ^ 9) / inject_Z interval)%Q.

Definition Second : Z := 10 ^ 9.
Definition Minute : Z := 60 * Second.

(** [Per]: the division of durations is Go's integer division. *)
Definition Per (eventCount : Z) (duration : Z) : result Limit :=
  if eventCount =? 0 then Panic integer_divide_by_zero
  else Ok (rate_Every (Z.quot duration eventCount)).

Record visitor := mkVisitor {
  limiter : multiLimiter rate_Limiter;
  lastUsed : Z
}.

(** The field [vaultCache] of the Go struct points to the cache shared with
    the other stages; the cache is passed beside the registry. *)
Record tokenRateLimiter := mkTokenRateLimiter {
  limiterCache : gmap string visitor;
  burstLimitPerSec : Z;
  rateLimitPerMin : Z;
  rateLimiterBucketSize : Z;
  lastRateLimiterPurge : Z
}.

Definition NewTokenRateLimiter (burstPerSec ratePerMin limiterBucketSize : Z)
  (now : Z) : tokenRateLimiter :=
  mkTokenRateLimiter ∅ burstPerSec ratePerMin limiterBucketSize now.

Definition with_limiterCache (l : tokenRateLimiter) (m : gmap string visitor)
  : tokenRateLimiter :=
  mkTokenRateLimiter m (burstLimitPerSec l) (rateLimitPerMin l)
                     (rateLimiterBucketSize l) (lastRateLimiterPurge l).

Definition purgeLruTokenLimiters (order : list string) (l : tokenRateLimiter)
  : tokenRateLimiter :=
  with_limiterCache l
    (purgeLru lastUsed RATE_LIMITER_CACHE_SIZE order (limiterCache l)).

(** The registry after the call, and the limiter created unless [Per]
    panicked; the eviction has happened by then. *)
Definition setInLimiterCache (order : list string) (l : tokenRateLimiter)
  (token : string) (now : Z)
  : tokenRateLimiter * result (multiLimiter rate_Limiter) :=
  let l := purgeLruTokenLimiters order l in
  match Per (burstLimitPerSec l) Second with
  | Ok burstLimit =>
      match Per (rateLimitPerMin l) Minute with
      | Ok rateLimit =>
          let limiter :=
            MultiLimiter [NewLimiter burstLimit 1;
                          NewLimiter rateLimit (rateLimiterBucketSize l)] in
          (with_limiterCache l
             (<[token := mkVisitor limiter now]> (limiterCache l)),
           Ok limiter)
      | Panic w => (l, Panic w)
      end
  | Panic w => (l, Panic w)
  end.

Definition getFromLimiterCache (order : list string) (l : tokenRateLimiter)
  (token : string) (now : Z)
  : tokenRateLimiter * result (multiLimiter rate_Limiter) :=
  match limiterCache l !! token with
  | None => setInLimiterCache order l token now
  | Some visitor =>
      (with_limiterCache l
         (<[token := mkVisitor (limiter visitor) now]> (limiterCache l)),
       Ok (limiter visitor))
  end.

Definition purgeTokenLimiters (l : tokenRateLimiter) (now : Z)
  : tokenRateLimiter :=
  if now - RATE_LIMITER_PURGE_FREQUENCY * 1000 >? lastRateLimiterPurge l then
    mkTokenRateLimiter
      (filter (fun kv : string * visitor =>
                 (now >? lastUsed kv.2 + RATE_LIMITER_DEFAULT_EXPIRATION * 1000)
                 = false)
              (limiterCache l))
      (burstLimitPerSec l) (rateLimitPerMin l) (rateLimiterBucketSize l) now
  else l.

(** The limiter returned by [getFromLimiterCache] is the one the visitor of
    [token] points to: what [Allow] does to it is seen through the map. *)
Definition store_limiter (l : tokenRateLimiter) (token : string)
  (lim : multiLimiter rate_Limiter) : tokenRateLimiter :=
  with_limiterCache l
    (alter (fun v => mkVisitor lim (lastUsed v)) token (limiterCache l)).

(** What the middleware does, in the order it does it. *)
Inductive event : Type :=
| EvAllow (key : string) (allowed : bool)
| EvCacheLookup (hit : bool)
| EvWriteCached (r : Response)
| EvTooManyRequests
| EvNext.

Record outcome := mkOutcome {
  out_ctl : ctl;
  out_cache : vaultCache;
  out_writer : ResponseWriter;
  out_trace : list event
}.

Section Handler.
Context `{Digest}.

(** The next handler of the chain: it works on the shared cache and on the
    writer. *)
Variable next : vaultCache -> ResponseWriter -> Request -> parseHeader ->
                ctl * vaultCache * ResponseWriter.

(** The body of the handler after [isAllowed := limiter.Allow()]. *)
Definition afterAllow (isAllowed : bool) (c : vaultCache)
  (writer : ResponseWriter) (request : Request) (ctx : parseHeader) (now : Z)
  : outcome :=
  let serve_or_deny (c : vaultCache) (trace : list event) : outcome :=
    if negb isAllowed then
      mkOutcome Returned c
        (http_Error writer (http_StatusText StatusTooManyRequests)
                    StatusTooManyRequests)
        (trace ++ [EvTooManyRequests])
    else
      let '(k, c, w) := next c writer request ctx in
      mkOutcome k c w (trace ++ [EvNext]) in
  if isPathCacheable ctx && negb (isRequestIgnorable ctx) then
    match getCachedResponse c request now with
    | (None, c) => serve_or_deny c [EvCacheLookup false]
    | (Some response, c) =>
        let w := with_Header writer
                   (copyHeaders (w_Header writer) (resp_Header response)) in
        let w := WriteHeader w (StatusCode response) in
        let '(w, err) := io_Copy w (resp_Body response) in
        mkOutcome
          (if err then Exited "Error copying response from cache."
           else Returned)
          c w [EvCacheLookup true; EvWriteCached response]
    end
  else serve_or_deny c [].

Definition RateLimitHandler (order : list string) (l : tokenRateLimiter)
  (c : vaultCache) (writer : ResponseWriter) (request : Request)
  (ctx : parseHeader) (now : Z) : tokenRateLimiter * outcome :=
  let l := purgeTokenLimiters l now in
  let rateLimitingKey := limiterCacheKey ctx in
  match getFromLimiterCache order l rateLimitingKey now with
  | (l, Ok limiter) =>
      let '(isAllowed, limiter) := multiLimiter_Allow limiter now in
      let l := store_limiter l rateLimitingKey limiter in
      let o := afterAllow isAllowed c writer request ctx now in
      (l, mkOutcome (out_ctl o) (out_cache o) (out_writer o)
                    (EvAllow rateLimitingKey isAllowed :: out_trace o))
  | (l, Panic w) => (l, mkOutcome (Panicked w) c writer [])
  end.

End Handler.
End Limiter.

(** ** vaultAgent.go *)

Module Agent.
Import Config.

Record Server := mkServer {
  Address : string;
  Leader : bool;
  NodeId : string;
  ProtocolVersion : string;
  Voter : bool
}.

Record VaultConfigResponse := mkVaultConfigResponse {
  RequestId : string;
  LeaseId : string;
  LeaseDuration : Z;
  Renewable : bool;
  Index : Z;
  Servers : list Server
}.

(** The zero value of the struct, as [var responseObject] declares it. *)
Definition zero_VaultConfigResponse : VaultConfigResponse :=
  mkVaultConfigResponse "" "" 0 false 0 [].

Definition with_Servers (r : VaultConfigResponse) (s : list Server)
  : VaultConfigResponse :=
  mkVaultConfigResponse (RequestId r) (LeaseId r) (LeaseDuration r)
                        (Renewable r) (Index r) s.

(** [json.Unmarshal(body, &responseObject)] on a zero [responseObject]:
    the object after the call and the error.  On a body that is not JSON the
    decoder returns its error before it writes to the object. *)
Class Json := {
  json_Unmarshal : string -> VaultConfigResponse * option string
}.

(** The field [vaultCache] of the Go struct points to the shared cache and
    is passed beside the agent where a function needs it. *)
Record vaultAgent := mkVaultAgent {
  vaultConfigResponse : VaultConfigResponse;
  agentRoutingTable : gmap Z string;
  lastConfigCheck : Z;
  myAddress : string
}.

Definition NewVaultAgent (proxyAddress : string) : vaultAgent :=
  mkVaultAgent zero_VaultConfigResponse ∅ 0 proxyAddress.

Definition ETX : string := String (ascii_of_nat 3) EmptyString.

Definition addMockServers (responseObject : VaultConfigResponse)
  : VaultConfigResponse :=
  let mockServer1 := mkServer "127.0.0.1:9001" false "raft2" ETX true in
  let mockServer2 := mkServer "127.0.0.1:9001" false "raft3" ETX true in
  with_Servers responseObject
    ((Servers responseObject ++ [mockServer1]) ++ [mockServer2]).

(** [strings.Split(s, ":")] *)
Fixpoint strings_Split (s : string) : list string :=
  match s with
  | EmptyString => [""]
  | String c s' =>
      if Ascii.eqb c ":"%char then "" :: strings_Split s'
      else match strings_Split s' with
           | h :: t => String c h :: t
           | [] => [String c ""]
           end
  end.

Definition digit_of (c : ascii) : option Z :=
  let n := Z.of_N (N_of_ascii c) in
  if (48 <=? n) && (n <=? 57) then Some (n - 48) else None.

Fixpoint parse_digits (acc : Z) (s : string) : option Z :=
  match s with
  | EmptyString => Some acc
  | String c s' =>
      match digit_of c with
      | Some d => parse_digits (10 * acc + d) s'
      | None => None
      end
  end.

Definition maxInt : Z := 2 ^ 63 - 1.
Definition minInt : Z := - 2 ^ 63.

(** [strconv.Atoi]: the value and whether there is an error.  A syntax
    error gives 0, a range error the nearest bound. *)
Definition strconv_Atoi (s : string) : Z * bool :=
  let '(neg, digits) :=
    match s with
    | String c s' =>
        if Ascii.eqb c "-"%char then (true, s')
        else if Ascii.eqb c "+"%char then (false, s')
        else (false, s)
    | EmptyString => (false, s)
    end in
  match digits with
  | EmptyString => (0, true)
  | _ =>
      match parse_digits 0 digits with
      | None => (0, true)
      | Some n =>
          let v := if neg then - n else n in
          if v >? maxInt then (maxInt, true)
          else if v <? minInt then (minInt, true)
          else (v, false)
      end
  end.

Definition strconv_Itoa (n : Z) : string :=
  DecimalString.NilZero.string_of_int (Z.to_int n).

(** The loop of [changePortMapping] from index [i] on.  [addrPort[1]]
    panics on an address without a colon; the servers before it have been
    rewritten by then.  The second component is the log. *)
Fixpoint changePorts (i : Z) (servers : list Server)
  : list Server * option string * list string :=
  match servers with
  | [] => ([], None, [])
  | server :: rest =>
      match strings_Split (Address server) with
      | host :: portText :: _ =>
          let '(port, err) := strconv_Atoi portText in
          let portText' := strconv_Itoa (port - AGENT_VAULT_PORT_DIFF + i) in
          let server' :=
            mkServer (host +:+ ":" +:+ portText') (Leader server)
                     (NodeId server) (ProtocolVersion server) (Voter server) in
          let '(rest', panic, logs) := changePorts (i + 1) rest in
          (server' :: rest', panic,
           (if err then ["strconv.Atoi: parsing error"] else []) ++ logs)
      | _ => (server :: rest, Some index_out_of_range, [])
      end
  end.

Definition with_response (a : vaultAgent) (r : VaultConfigResponse)
  : vaultAgent :=
  mkVaultAgent r (agentRoutingTable a) (lastConfigCheck a) (myAddress a).

Definition changePortMapping (a : vaultAgent)
  : vaultAgent * option string * list string :=
  let '(servers, panic, logs) :=
    changePorts 0 (Servers (vaultConfigResponse a)) in
  (with_response a (with_Servers (vaultConfigResponse a) servers),
   panic, logs).

Definition byNodeId (x y : Server) : bool := String.ltb (NodeId x) (NodeId y).

Fixpoint fill_table (i : Z) (nodes : list Server) (t : gmap Z string)
  : gmap Z string :=
  match nodes with
  | [] => t
  | node :: rest => fill_table (i + 1) rest (<[i := Address node]> t)
  end.

(** [nodes] shares its array with the snapshot, which is sorted in place;
    the routing table is written over, never cleared. *)
Definition sortByNodeId (a : vaultAgent) : vaultAgent :=
  let nodes := sort_Slice byNodeId (Servers (vaultConfigResponse a)) in
  mkVaultAgent (with_Servers (vaultConfigResponse a) nodes)
               (fill_table 0 nodes (agentRoutingTable a))
               (lastConfigCheck a) (myAddress a).

Record refresh := mkRefresh {
  ref_ctl : ctl;
  ref_agent : vaultAgent;
  ref_log : list string
}.

Section Refresh.
Context `{Json}.

(** [done] is what [client.Do(req)] returned for the membership request. *)
Definition getVaultConfigDetails (a : vaultAgent) (done : upstream_result)
  (now : Z) : refresh :=
  if now - VAULT_CONFIG_CHECK_FREQUENCY * 1000 >? lastConfigCheck a then
    let '(resp, err) := done in
    let log1 := match err with Some e => [e] | None => [] end in
    match resp with
    | None => mkRefresh (Panicked nil_dereference) a log1
    | Some resp =>
        let bodyBytes := body_bytes (resp_Body resp) in
        let log2 :=
          if body_fails (resp_Body resp) then ["unexpected EOF"] else [] in
        let '(responseObject, _) := json_Unmarshal bodyBytes in
        let a := with_response a (addMockServers responseObject) in
        let '(a, panic, log3) := changePortMapping a in
        match panic with
        | Some w => mkRefresh (Panicked w) a (log1 ++ log2 ++ log3)
        | None =>
            let a := sortByNodeId a in
            mkRefresh Returned
              (mkVaultAgent (vaultConfigResponse a) (agentRoutingTable a)
                            now (myAddress a))
              (log1 ++ log2 ++ log3)
        end
    end
  else mkRefresh Returned a [].

End Refresh.

(** *** github.com/spaolacci/murmur3, [Sum32WithSeed] *)

Definition u32 (x : Z) : Z := x mod 2 ^ 32.

Definition RotateLeft32 (x k : Z) : Z :=
  u32 (Z.lor (Z.shiftl x k) (Z.shiftr x (32 - k))).

Definition c1_32 : Z := 0xcc9e2d51.
Definition c2_32 : Z := 0x1b873593.

Definition mix_k1 (k1 : Z) : Z :=
  let k1 := u32 (k1 * c1_32) in
  let k1 := RotateLeft32 k1 15 in
  u32 (k1 * c2_32).

(** The loop over the four-byte blocks, read in little-endian order; the
    hash so far and the tail are returned. *)
Fixpoint murmur_blocks (h1 : Z) (data : list Z) : Z * list Z :=
  match data with
  | b0 :: b1 :: b2 :: b3 :: rest =>
      let k1 :=
        Z.lor (Z.lor b0 (Z.shiftl b1 8))
              (Z.lor (Z.shiftl b2 16) (Z.shiftl b3 24)) in
      let h1 := Z.lxor h1 (mix_k1 k1) in
      let h1 := RotateLeft32 h1 13 in
      let h1 := u32 (h1 * 4 + h1 + 0xe6546b64) in
      murmur_blocks h1 rest
  | tail => (h1, tail)
  end.

Definition murmur_tail (h1 : Z) (tail : list Z) : Z :=
  match tail with
  | [t0; t1; t2] =>
      Z.lxor h1 (mix_k1 (Z.lxor (Z.lxor (Z.shiftl t2 16) (Z.shiftl t1 8)) t0))
  | [t0; t1] => Z.lxor h1 (mix_k1 (Z.lxor (Z.shiftl t1 8) t0))
  | [t0] => Z.lxor h1 (mix_k1 t0)
  | _ => h1
  end.

Definition fmix32 (h1 : Z) : Z :=
  let h1 := Z.lxor h1 (Z.shiftr h1 16) in
  let h1 := u32 (h1 * 0x85ebca6b) in
  let h1 := Z.lxor h1 (Z.shiftr h1 13) in
  let h1 := u32 (h1 * 0xc2b2ae35) in
  Z.lxor h1 (Z.shiftr h1 16).

Definition bytes_of_string (s : string) : list Z :=
  map (fun c => Z.of_N (N_of_ascii c)) (list_ascii_of_string s).

Definition Sum32WithSeed (data : list Z) (seed : Z) : Z :=
  let '(h1, tail) := murmur_blocks seed data in
  let h1 := murmur_tail h1 tail in
  let h1 := Z.lxor h1 (u32 (Z.of_nat (length data))) in
  fmix32 h1.

Definition hash (s : string) : Z :=
  Sum32WithSeed (bytes_of_string s) 0x1234ABCD.

(** [int] has 64 bits, so [int(hash(token))] is the hash itself; [%] is
    Go's remainder and panics on a zero divisor; a key that is not in the
    map reads as the empty string. *)
Definition GetRoutingServer (a : vaultAgent) (request : Request)
  : result string :=
  let token := Header_Get (req_Header request) VAULT_TOKEN_HEADER in
  let n := Z.of_nat (length (Servers (vaultConfigResponse a))) in
  if n =? 0 then Panic integer_divide_by_zero
  else
    let server_no := Z.rem (hash token) n in
    Ok (default "" (agentRoutingTable a !! server_no)).

End Agent.

(** ** vaultProxy.go *)

Module Proxy.
Import Config ParseHeader Cache.

Section Serve.
Context `{Digest}.

(** The end of [ServeHTTP]: [defer response.Body.Close()] reads through
    [response], then the response is copied to the client. *)
Definition surface (c : vaultCache) (writer : ResponseWriter)
  (response : option Response) : ctl * vaultCache * ResponseWriter :=
  match response with
  | None => (Panicked nil_dereference, c, writer)
  | Some response =>
      let w := with_Header writer
                 (copyHeaders (w_Header writer) (resp_Header response)) in
      let w := WriteHeader w (StatusCode response) in
      let '(w, err) := io_Copy w (resp_Body response) in
      (if err then Exited "Error copying response from cache." else Returned,
       c, w)
  end.

Definition report (writer : ResponseWriter) (err : option string)
  : ResponseWriter :=
  match err with
  | Some _ =>
      http_Error writer "Internal Server Error" StatusInternalServerError
  | None => writer
  end.

(** [done] is what [client.Do(request)] returned for this request. *)
Definition ServeHTTP (order : list string) (done : upstream_result) (now : Z)
  (c : vaultCache) (writer : ResponseWriter) (request : Request)
  (ctx : parseHeader) : ctl * vaultCache * ResponseWriter :=
  if isPathCacheable ctx && negb (isRequestIgnorable ctx) then
    match refreshCache order c request done now with
    | Ok (response, err, c) => surface c (report writer err) (Some response)
    | Panic w => (Panicked w, c, writer)
    end
  else
    let '(response, err) := done in
    surface c (report writer err) response.

End Serve.
End Proxy.

(** ** vaultAgent.go: the routing middleware *)

Module Router.
Import Config ParseHeader Cache Agent.

(** What [client.Do] returns for the request sent to a peer: the error
    carries whether it is a timeout ([net.Error.Timeout()]). *)
Record peer_error := mkPeerError {
  peer_message : string;
  peer_timeout : bool
}.

Definition peer_result : Type := option Response * option peer_error.

(** The lines the handler logs. *)
Inductive router_log : Type :=
| LogInvalidating (method path : string)
| LogRouting (server path : string)
| LogTimedOut
| LogAgentError (server : string)
| LogConnectionError (address path : string)
| LogSameAgent (address path : string)
| LogWorkDone.

(** How the handler ends: by itself, with the state it leaves, or in the
    next handler of the chain, whose result it hands back. *)
Inductive routed (R : Type) : Type :=
| Handled (k : ctl) (c : vaultCache) (w : ResponseWriter)
| Continued (r : R).
Arguments Handled {R} k c w.
Arguments Continued {R} r.

Section Handler.
Context `{Json} {R : Type}.
Variable next : vaultCache -> ResponseWriter -> Request -> parseHeader -> R.

(** [refreshed] is what [client.Do] returns for the membership request, if
    the refresh is due, and [peer] what it returns for the request sent to
    the owner, if the request is forwarded. *)
Definition VaultAgentHandler (a : vaultAgent) (c : vaultCache)
  (writer : ResponseWriter) (request : Request) (ctx : parseHeader)
  (refreshed : upstream_result) (peer : peer_result) (now : Z)
  : vaultAgent * list router_log * routed R :=
  let r := getVaultConfigDetails a refreshed now in
  let a := ref_agent r in
  match ref_ctl r with
  | Returned =>
      let path := URL_Path request in
      let method := Method request in
      let myAddress := myAddress a in
      if isPathCacheable ctx then
        if isRequestIgnorable ctx then
          let key := vaultCacheKey ctx in
          let c := removeFromCache c key in
          (a, [LogInvalidating method path; LogWorkDone],
           Continued (next c writer request ctx))
        else
          match GetRoutingServer a request with
          | Panic w => (a, [], Handled (Panicked w) c writer)
          | Ok routingServer =>
              if negb (String.eqb routingServer myAddress) then
                match peer with
                | (_, Some err) =>
                    (a,
                     LogRouting routingServer path ::
                     (if peer_timeout err then [LogTimedOut]
                      else [LogAgentError routingServer;
                            LogConnectionError myAddress path]) ++
                     [LogWorkDone],
                     Continued (next c writer request ctx))
                | (None, None) =>
                    (a, [LogRouting routingServer path],
                     Handled (Panicked nil_dereference) c writer)
                | (Some response, None) =>
                    let w := with_Header writer
                               (copyHeaders (w_Header writer)
                                            (resp_Header response)) in
                    let w := WriteHeader w (StatusCode response) in
                    let '(w, err) := io_Copy w (resp_Body response) in
                    (a, [LogRouting routingServer path],
                     Handled
                       (if err
                        then Exited "Error copying response from agent."
                        else Returned)
                       c w)
                end
              else
                (a, [LogSameAgent myAddress path; LogWorkDone],
                 Continued (next c writer request ctx))
          end
      else (a, [LogWorkDone], Continued (next c writer request ctx))
  | k => (a, [], Handled k c writer)
  end.

End Handler.
End Router.

(** ** cmd/main.go: the chain of handlers *)

Module Pipeline.
Import Config ParseHeader Cache Limiter Agent Router Proxy.

(** The state the handlers share: the agent, the registry of limiters and
    the cache. *)
Record server := mkServerState {
  agent : vaultAgent;
  rateLimiter : tokenRateLimiter;
  vaultCache_of : vaultCache
}.

(** What the world answers during one request, and the instant of the
    request. *)
Record environment := mkEnvironment {
  env_now : Z;
  env_membership : upstream_result;
  env_peer : peer_result;
  env_upstream : upstream_result;
  env_limiter_order : list string;
  env_cache_order : list string
}.

Definition NewServer (proxyAddress : string) (now : Z) : server :=
  mkServerState (NewVaultAgent proxyAddress)
                (NewTokenRateLimiter BURST_LIMIT_PER_SECOND
                   RATE_LIMIT_PER_MINUTE RATE_LIMITER_BUCKET_SIZE now)
                (NewVaultCache now).

Section Chain.
Context `{Digest} `{Json}.

(** [alice.New(ParseHeaderHandler, VaultAgentHandler, RateLimitHandler)
    .Then(proxyHandler)], for one request. *)
Definition chain (s : server) (e : environment) (writer : ResponseWriter)
  (request : Request) : server * ctl * ResponseWriter :=
  let ctx := ParseHeaderHandler request in
  let proxyHandler :=
    ServeHTTP (env_cache_order e) (env_upstream e) (env_now e) in
  let limited (c : vaultCache) (w : ResponseWriter) (request : Request)
              (ctx : parseHeader) :=
    RateLimitHandler proxyHandler (env_limiter_order e) (rateLimiter s)
                     c w request ctx (env_now e) in
  match VaultAgentHandler limited (agent s) (vaultCache_of s) writer request
                          ctx (env_membership e) (env_peer e) (env_now e) with
  | (a, _, Handled k c w) => (mkServerState a (rateLimiter s) c, k, w)
  | (a, _, Continued (l, o)) =>
      (mkServerState a l (out_cache o), out_ctl o, out_writer o)
  end.

End Chain.
End Pipeline.

(** * Vocabulary of the statements *)

(** [x] is not after [y] in an order given by its strict comparison. *)
Definition not_after {A} (less : A -> A -> bool) (x y : A) : Prop :=
  less y x = false.

(** The maps after the keys of a list have been deleted, first key first. *)
Definition delete_all {V} (keys : list string) (m : gmap string V)
  : gmap string V :=
  foldl (fun m k => delete k m) m keys.

(** The keys of a map, in the order of [map_to_list]. *)
Definition keys_of {V} (m : gmap string V) : list string :=
  (map_to_list m).*1.

(** * Tactics *)

(** Quotients by a constant are named, with their defining equations, and
    the goal is left to [lia]. *)
Ltac div_lia :=
  repeat match goal with
  | |- context [Nat.div ?a ?b] =>
      let q := fresh "q" in let r := fresh "r" in
      pose proof (Nat.div_mod_eq a b);
      pose proof (Nat.mod_upper_bound a b ltac:(lia));
      set (q := Nat.div a b) in *; set (r := Nat.modulo a b) in *;
      clearbody q r
  | H : context [Nat.div ?a ?b] |- _ =>
      let q := fresh "q" in let r := fresh "r" in
      pose proof (Nat.div_mod_eq a b);
      pose proof (Nat.mod_upper_bound a b ltac:(lia));
      set (q := Nat.div a b) in *; set (r := Nat.modulo a b) in *;
      clearbody q r
  end; lia.


(** Membership in the short traces of the handler is decided by looking
    at them. *)
Ltac trace_solver :=
  repeat match goal with
  | H : _ ∈ _ ++ _ |- _ => apply elem_of_app in H as [H|H]
  | H : _ ∈ _ :: _ |- _ => apply elem_of_cons in H as [H|H]
  | H : _ ∈ [] |- _ => by apply elem_of_nil in H
  | H : _ ∈ (if ?b then _ else _) |- _ => destruct b
  end;
  try discriminate; try done.

(** [strings.Contains(s, ":")] is false. *)
Definition no_colon (s : string) : bool :=
  forallb (fun c => negb (Ascii.eqb c ":")) (list_ascii_of_string s).

(** The pair of buckets of a visitor, as [setInLimiterCache] creates it. *)
Definition fresh_pair (l : Limiter.tokenRateLimiter)
  : list Limiter.rate_Limiter :=
  [Limiter.NewLimiter
     (Limiter.rate_Every (Z.quot Limiter.Second (Limiter.burstLimitPerSec l)))
     1;
   Limiter.NewLimiter
     (Limiter.rate_Every (Z.quot Limiter.Minute (Limiter.rateLimitPerMin l)))
     (Limiter.rateLimiterBucketSize l)].

(** The caches the program builds: [NewVaultCache] makes an empty one, and
    [setInCache], [getCachedResponse] and [removeFromCache] are the only
    functions that change it ([purgeLruCacheEntries] and
    [purgeOldCacheEntries] run inside the first two).  The range over the
    map yields every key once. *)
Inductive built `{Digest} : Cache.vaultCache -> Prop :=
| built_new (now : Z) : built (Cache.NewVaultCache now)
| built_set (order : list string) (c : Cache.vaultCache) (key : string)
    (r : Response) (now : Z) :
    built c -> order ≡ₚ keys_of (Cache.cache c) ->
    built (Cache.setInCache order c key r now).1
| built_get (c : Cache.vaultCache) (request : Request) (now : Z) :
    built c -> built (Cache.getCachedResponse c request now).2
| built_remove (c : Cache.vaultCache) (key : string) :
    built c -> built (Cache.removeFromCache c key).

(** * Concrete requests, caches and registries for the examples *)

Module Examples.
Import Config ParseHeader Cache Limiter Agent.

(** A stand-in for MD5 in the examples: the key is the string itself. *)
Definition plain_Digest : Digest := {| md5_hex := fun s => s |}.

Definition secret_request : Request :=
  mkRequest "GET" "/v1/secret/data/foo" [("X-Vault-Token", "t1")].

Definition secret_key : string := "t1-/v1/secret/data/foo-".

Definition ok_response : Response :=
  mkResponse 200 [("Content-Type", "application/json")] (mkBody "{k:v}" false).

(** An entry stored at instant 1000, which expires at 31000. *)
Definition entry_at_1000 : cachedResponse :=
  fst (newCachedResponse ok_response 1000).

Definition one_entry_cache : vaultCache :=
  mkVaultCache {[ secret_key := entry_at_1000 ]} 1000.

Definition entry_used (t : Z) : cachedResponse :=
  mkCachedResponse ok_response "{k:v}" 90000 t.

(** The cache of scenario 6: [k1] has been read after [k2] was stored. *)
Definition two_entry_cache : vaultCache :=
  mkVaultCache (<["k1" := entry_used 30]> (<["k2" := entry_used 20]> ∅)) 0.

(** The two buckets of a visitor under the shipped configuration, as
    [setInLimiterCache] creates them, and after one request at instant 1000. *)
Definition burst_bucket : rate_Limiter := NewLimiter (2 # 1) 1.
Definition sustained_bucket : rate_Limiter := NewLimiter (1 # 12) 5.
Definition used_burst : rate_Limiter := (rate_Allow burst_bucket 1000).2.
Definition used_sustained : rate_Limiter := (rate_Allow sustained_bucket 1000).2.

Definition shipped_registry : tokenRateLimiter :=
  NewTokenRateLimiter BURST_LIMIT_PER_SECOND RATE_LIMIT_PER_MINUTE
                      RATE_LIMITER_BUCKET_SIZE 0.

Definition secret_ctx : parseHeader :=
  @ParseHeaderHandler plain_Digest secret_request.

(** A last stage that answers 204 and leaves the cache alone. *)
Definition no_content (c : vaultCache) (w : ResponseWriter) (_ : Request)
  (_ : parseHeader) : ctl * vaultCache * ResponseWriter :=
  (Returned, c, WriteHeader w 204).

(** A membership of three peers, as the upstream lists them, with the
    addresses of their proxies. *)
Definition peer (id address : string) : Server :=
  mkServer address false id ETX true.

Definition three_peers : list Server :=
  [peer "raft3" "10.0.0.3:7200"; peer "raft1" "10.0.0.1:7200";
   peer "raft2" "10.0.0.2:7200"].

Definition unsorted_agent : vaultAgent :=
  mkVaultAgent (with_Servers zero_VaultConfigResponse three_peers) ∅ 0
               "10.0.0.1:7200".

(** An agent that has published the three peers, long before instant
    60000. *)
Definition settled_agent : vaultAgent := sortByNodeId unsorted_agent.

(** A decoder for the examples: it finds no JSON in any body. *)
Definition no_Json : Json :=
  {| json_Unmarshal := fun _ =>
       (zero_VaultConfigResponse, Some "invalid character") |}.

Definition html_response : Response :=
  mkResponse 200 [("Content-Type", "text/html")] (mkBody "<html>" false).

Definition unavailable_response : Response :=
  mkResponse 503 [("Content-Type", "application/json")]
             (mkBody "{errors:[sealed]}" false).

End Examples.

(** * Further examples *)

Module MoreExamples.
Import Config ParseHeader Cache Limiter Agent Router Pipeline.

(** A cache that holds the secret of [Examples.secret_request], read at
    instant 5000, beside an entry last used at instant 20. *)
Definition read_and_idle_cache : vaultCache :=
  mkVaultCache
    (<[Examples.secret_key := Examples.entry_used 5000]>
       (<["idle" := Examples.entry_used 20]> ∅))
    5000.

(** A cache filled by two insertions: [k2] at instant 20, [k1] at 30. *)
Definition filled_cache : vaultCache :=
  (setInCache ["k2"]
     (setInCache [] (NewVaultCache 0) "k2" Examples.ok_response 20).1
     "k1" Examples.ok_response 30).1.

(** A registry at its capacity: [a] has been idle for longer than [b]. *)
Definition full_registry : tokenRateLimiter :=
  with_limiterCache Examples.shipped_registry
    (<["a" := mkVisitor (MultiLimiter [Examples.burst_bucket;
                                       Examples.sustained_bucket]) 10]>
       (<["b" := mkVisitor (MultiLimiter [Examples.burst_bucket;
                                          Examples.sustained_bucket]) 20]>
          ∅)).

(** A registry configured with a burst rate of zero. *)
Definition zero_burst_registry : tokenRateLimiter :=
  NewTokenRateLimiter 0 RATE_LIMIT_PER_MINUTE RATE_LIMITER_BUCKET_SIZE 0.

(** An agent whose snapshot lists two servers by the ports of the
    upstream. *)
Definition listed_agent : vaultAgent :=
  mkVaultAgent
    (with_Servers zero_VaultConfigResponse
       [Examples.peer "raft1" "10.0.0.1:8200";
        Examples.peer "raft2" "10.0.0.2:8200"])
    ∅ 0 "10.0.0.1:7200".

Definition listed_ports : list (string * Z) :=
  [("10.0.0.1", 8200); ("10.0.0.2", 8200)].

(** A decoder that finds one server, listed without a port. *)
Definition bare_host_Json : Json :=
  {| json_Unmarshal := fun _ =>
       (with_Servers zero_VaultConfigResponse
          [Examples.peer "raft1" "localhost"], None) |}.

(** A decoder that finds the two servers of [listed_agent]. *)
Definition listed_Json : Json :=
  {| json_Unmarshal := fun _ => (vaultConfigResponse listed_agent, None) |}.

(** A 200 whose body breaks off after three bytes. *)
Definition truncated_response : Response :=
  mkResponse 200 [("Content-Type", "application/json")] (mkBody "{k:" true).

(** A request that replaces the secret [Examples.secret_request] reads. *)
Definition put_request : Request :=
  mkRequest "PUT" "/v1/secret/data/foo" [("X-Vault-Token", "t1")].

(** A request that writes the secret [Examples.secret_request] reads. *)
Definition write_request : Request :=
  mkRequest "POST" "/v1/secret/data/foo" [("X-Vault-Token", "t1")].

(** A server whose agent has published three peers and whose cache holds
    the secret. *)
Definition settled_server : server :=
  mkServerState Examples.settled_agent Examples.shipped_registry
                Examples.one_entry_cache.

(** The world at instant [now]: the membership request is answered by a
    page that is not JSON, the upstream by the secret. *)
Definition world (now : Z) (peer : peer_result) : environment :=
  mkEnvironment now (Some Examples.html_response, None) peer
                (Some Examples.ok_response, None) [] [].

Definition timed_out : peer_error := mkPeerError "context deadline exceeded" true.

(** A last stage for the router alone. *)
Definition stop (_ : vaultCache) (_ : ResponseWriter) (_ : Request)
  (_ : parseHeader) : unit := tt.

End MoreExamples.

(** * Properties *)

(** ** Sorting *)

Lemma Sorted_weaken {A} (R R' : A -> A -> Prop) (l : list A) :
  (forall x y, R x y -> R' x y) -> Sorted R l -> Sorted R' l.
Proof.
  intros HR. induction 1 as [|x l _ IH Hd]; constructor; [done|].
  destruct Hd; constructor. by apply HR.
Qed.

Section SortFacts.
Context {A : Type} (less : A -> A -> bool).
Hypothesis less_asym : forall x y, less x y = true -> less y x = false.

Lemma insert_sorted_perm (x : A) (l : list A) :
  insert_sorted less x l ≡ₚ x :: l.
Proof.
  induction l as [|y l IH]; simpl; [done|].
  destruct (less y x); [|done].
  rewrite IH. apply perm_swap.
Qed.

Lemma insertion_sort_perm (l : list A) : insertion_sort less l ≡ₚ l.
Proof.
  induction l as [|x l IH]; simpl; [done|].
  rewrite insert_sorted_perm. by rewrite IH.
Qed.

Lemma insert_sorted_HdRel (a x : A) (l : list A) :
  not_after less a x -> HdRel (not_after less) a l ->
  HdRel (not_after less) a (insert_sorted less x l).
Proof.
  intros Hax Hal. destruct l as [|y l]; simpl.
  - by constructor.
  - inversion_clear Hal. destruct (less y x); by constructor.
Qed.

Lemma insert_sorted_Sorted (x : A) (l : list A) :
  Sorted (not_after less) l -> Sorted (not_after less) (insert_sorted less x l).
Proof.
  induction l as [|y l IH]; simpl; intros Hs.
  - repeat constructor.
  - inversion_clear Hs as [|? ? Hl Hy].
    destruct (less y x) eqn:E.
    + constructor; [by apply IH|].
      apply insert_sorted_HdRel; [|done]. by apply less_asym.
    + constructor; [by constructor|]. by constructor.
Qed.

Lemma insertion_sort_Sorted (l : list A) :
  Sorted (not_after less) (insertion_sort less l).
Proof.
  induction l as [|x l IH]; simpl; [constructor|].
  by apply insert_sorted_Sorted.
Qed.

Hypothesis not_after_trans : Transitive (not_after less).

Lemma insertion_sort_StronglySorted (l : list A) :
  StronglySorted (not_after less) (insertion_sort less l).
Proof. apply Sorted_StronglySorted; [done|]. apply insertion_sort_Sorted. Qed.

(** An element strictly before every other one comes first. *)
Lemma insertion_sort_head `{EqDecision A} (x0 : A) (l : list A) :
  x0 ∈ l ->
  (forall x, x ∈ l -> x <> x0 -> less x0 x = true) ->
  exists rest, insertion_sort less l = x0 :: rest.
Proof.
  intros Hin Hmin.
  pose proof (insertion_sort_StronglySorted l) as Hs.
  pose proof (insertion_sort_perm l) as Hp.
  destruct (insertion_sort less l) as [|h t].
  - rewrite <- Hp in Hin. by apply elem_of_nil in Hin.
  - destruct (decide (h = x0)) as [->|Hne]; [by eexists|].
    exfalso.
    inversion_clear Hs as [|? ? _ Hall].
    assert (Hh : h ∈ l) by (rewrite <- Hp; left).
    rewrite <- Hp in Hin. apply elem_of_cons in Hin as [->|Hin]; [done|].
    rewrite Forall_forall in Hall.
    assert (Hna : not_after less h x0) by (by apply Hall).
    specialize (Hmin h Hh Hne). unfold not_after in Hna. congruence.
Qed.

End SortFacts.

(** ** parseHeader.go: the method test *)

Module ParseHeaderFacts.
Import Config ParseHeader.

Lemma prefix_spec (p s : string) :
  String.prefix p s = true <-> exists post, s = p +:+ post.
Proof.
  revert s. induction p as [|a p IH]; intros s; simpl.
  - split; [intros _; by exists s|]. intros _. by destruct s.
  - destruct s as [|b s]; simpl.
    + split; [done|]. by intros [post ?].
    + destruct (ascii_dec a b) as [->|Hne].
      * rewrite IH. split; intros [post E]; exists post;
          change (String b p +:+ post) with (String b (p +:+ post)) in *;
          congruence.
      * split; [done|]. intros [post E].
        change (String a p +:+ post) with (String a (p +:+ post)) in E.
        congruence.
Qed.

Lemma strings_Contains_spec (s substr : string) :
  strings_Contains s substr = true <->
  exists pre post, s = pre +:+ substr +:+ post.
Proof.
  induction s as [|a s IH]; cbn [strings_Contains].
  - rewrite orb_false_r, prefix_spec. split.
    + intros [post E]. by exists "", post.
    + intros (pre & post & E). destruct pre; [by exists post|done].
  - rewrite orb_true_iff, prefix_spec, IH. split.
    + intros [[post E]|(pre & post & E)].
      * by exists "", post.
      * exists (String a pre), post.
        change (String a s = String a (pre +:+ substr +:+ post)).
        by rewrite E.
    + intros (pre & post & E). destruct pre as [|b pre].
      * left. by exists post.
      * right. exists pre, post.
        change (String a s = String b (pre +:+ substr +:+ post)) in E.
        congruence.
Qed.

Lemma checkRequestIgnorable_exact (method : string) :
  In method METHODS_TO_IGNORE -> checkRequestIgnorable method = true.
Proof.
  intros [<-|[<-|[<-|[]]]]; reflexivity.
Qed.

(** Among the methods of RFC 9110 and PATCH, the test singles out exactly
    the three configured ones. *)
Lemma checkRequestIgnorable_standard (method : string) :
  In method ["GET"; "HEAD"; "POST"; "PUT"; "DELETE"; "CONNECT"; "OPTIONS";
             "TRACE"; "PATCH"] ->
  (checkRequestIgnorable method = true <-> In method METHODS_TO_IGNORE).
Proof.
  intros Hin. simpl in Hin.
  repeat (destruct Hin as [<-|Hin]; [vm_compute; intuition congruence|]).
  done.
Qed.

Lemma checkRequestIgnorable_POSTX : checkRequestIgnorable "POSTX" = true.
Proof. reflexivity. Qed.

(** What the test computes: [checkRequestIgnorable] holds exactly of the
    methods that contain one of the configured names [DELETE], [POST],
    [PATCH] as a substring, compared byte by byte.  [PUT] is not among the
    configured names. *)
Lemma checkRequestIgnorable_substring (method : string) :
  (checkRequestIgnorable method = true <->
   exists methodName pre post,
     In methodName ["DELETE"; "POST"; "PATCH"] /\
     method = pre +:+ methodName +:+ post) /\
  checkRequestIgnorable "PUT" = false.
Proof.
  split; [|reflexivity].
  unfold checkRequestIgnorable. rewrite existsb_exists.
  change METHODS_TO_IGNORE with ["DELETE"; "POST"; "PATCH"].
  split.
  - intros (name & Hin & Hc). apply strings_Contains_spec in Hc as (pre & post & E).
    by exists name, pre, post.
  - intros (name & pre & post & Hin & E). exists name. split; [done|].
    apply strings_Contains_spec. by exists pre, post.
Qed.

(** The test is not the classification by the four methods that create,
    update or delete a secret: it leaves [PUT] out. *)
Lemma checkRequestIgnorable_not_exact_four :
  ~ (forall method : string,
       checkRequestIgnorable method = true <->
       (method = "POST" \/ method = "PUT" \/ method = "PATCH" \/
        method = "DELETE")).
Proof.
  intros Hclaim. specialize (Hclaim "PUT") as [_ Hput].
  assert (E : checkRequestIgnorable "PUT" = true) by (apply Hput; tauto).
  vm_compute in E. discriminate.
Qed.

End ParseHeaderFacts.

(** ** The eviction loop *)

Section LruFacts.
Context {V : Type} (used : V -> Z).
Implicit Types (m : gmap string V) (keys order : list string).

Lemma byLastUsed_asym m (x y : string) :
  byLastUsed used m x y = true -> byLastUsed used m y x = false.
Proof. unfold byLastUsed. lia. Qed.

Lemma byLastUsed_not_after m (x y : string) :
  not_after (byLastUsed used m) x y <->
  lastUsed_of used m x <= lastUsed_of used m y.
Proof. unfold not_after, byLastUsed. lia. Qed.

Lemma byLastUsed_trans m : Transitive (not_after (byLastUsed used m)).
Proof. intros x y z. rewrite !byLastUsed_not_after. lia. Qed.

Lemma keys_of_NoDup m : NoDup (keys_of m).
Proof. apply NoDup_fst_map_to_list. Qed.

Lemma elem_of_keys_of m (k : string) : k ∈ keys_of m <-> is_Some (m !! k).
Proof.
  unfold keys_of. rewrite list_elem_of_fmap. split.
  - intros ([k' v] & -> & Hin). apply elem_of_map_to_list in Hin. by eexists.
  - intros [v Hv]. exists (k, v). split; [done|]. by apply elem_of_map_to_list.
Qed.

Lemma length_keys_of m : length (keys_of m) = size m.
Proof. unfold keys_of. by rewrite length_fmap, length_map_to_list. Qed.

Lemma delete_all_lookup keys m (k : string) :
  delete_all keys m !! k = if decide (k ∈ keys) then None else m !! k.
Proof.
  revert m. induction keys as [|k' keys IH]; intros m.
  - case_decide as Hd; [by apply elem_of_nil in Hd|done].
  - change (delete_all (k' :: keys) m) with (delete_all keys (delete k' m)).
    rewrite IH, lookup_delete.
    destruct (decide (k ∈ keys)) as [Hin|Hnin], (decide (k' = k)) as [Heq|Hne],
      (decide (k ∈ k' :: keys)) as [Hc|Hc];
      try done; exfalso.
    + apply Hc. by right.
    + apply Hc. by right.
    + apply Hc. rewrite Heq. left.
    + apply elem_of_cons in Hc as [?|?]; [by apply Hne|done].
Qed.

Lemma delete_all_size keys m :
  NoDup keys -> (forall k, k ∈ keys -> is_Some (m !! k)) ->
  size (delete_all keys m) = (size m - length keys)%nat.
Proof.
  revert m. induction keys as [|k keys IH]; intros m Hnd Hin; simpl.
  - lia.
  - apply NoDup_cons in Hnd as [Hk Hnd].
    rewrite IH; [|done|].
    + rewrite map_size_delete_Some by (apply Hin; left). lia.
    + intros k' Hk'. rewrite lookup_delete_ne by (intros ->; done).
      apply Hin. by right.
Qed.

(** The loop started at index [i] on a map whose keys are exactly [keys]
    deletes a prefix of [keys], whose length has a closed form. *)
Lemma delete_loop_take keys (i : nat) m :
  NoDup keys -> (forall k, k ∈ keys -> is_Some (m !! k)) ->
  length keys = size m -> keys <> [] ->
  delete_loop i keys m =
  delete_all (take (Nat.max 1 ((size m + 5 - 4 * i) / 5)) keys) m.
Proof.
  revert i m. induction keys as [|k keys IH]; intros i m Hnd Hin Hlen Hne;
    [done|].
  apply NoDup_cons in Hnd as [Hk Hnd].
  assert (Hsz : size (delete k m) = length keys).
  { rewrite map_size_delete_Some by (apply Hin; left).
    simpl in Hlen. lia. }
  assert (Hin' : forall k', k' ∈ keys -> is_Some (delete k m !! k')).
  { intros k' Hk'. rewrite lookup_delete_ne by (intros ->; done).
    apply Hin. by right. }
  cbn [delete_loop]. simpl in Hlen. rewrite <- Hlen, Hsz.
  destruct (Nat.leb_spec (length keys / 4) i) as [Hle|Hgt].
  - replace (Nat.max 1 ((S (length keys) + 5 - 4 * i) / 5)) with 1%nat
      by div_lia.
    reflexivity.
  - replace (Nat.max 1 ((S (length keys) + 5 - 4 * i) / 5))
      with (S (Nat.max 1 ((length keys + 5 - 4 * S i) / 5))) by div_lia.
    rewrite IH; [|done|done|by rewrite Hsz|].
    + by rewrite Hsz.
    + intros ->. simpl in Hgt. lia.
Qed.

(** What [purgeLru] does on a map that has reached the capacity: the keys
    are sorted by [lastUsed], oldest first, and the first [n/5 + 1] of them
    are deleted, [n] being the size of the map. *)
Lemma purgeLru_full (capacity : nat) order m :
  order ≡ₚ keys_of m -> (capacity <= size m)%nat -> (1 <= size m)%nat ->
  purgeLru used capacity order m =
  delete_all (take (size m / 5 + 1)
                   (sort_SliceStable (byLastUsed used m) order)) m.
Proof.
  intros Hp Hcap Hpos. unfold purgeLru.
  destruct (Nat.leb_spec capacity (size m)) as [_|?]; [|lia].
  pose proof (insertion_sort_perm (byLastUsed used m) order) as Hs.
  unfold sort_SliceStable.
  rewrite delete_loop_take.
  - f_equal. f_equal. div_lia.
  - rewrite Hs, Hp. apply keys_of_NoDup.
  - intros k. rewrite Hs, Hp. apply elem_of_keys_of.
  - rewrite Hs, Hp. apply length_keys_of.
  - intros E. rewrite E in Hs. apply Permutation_nil in Hs.
    rewrite Hs in Hp. apply Permutation_nil in Hp.
    pose proof (length_keys_of m) as Hl. rewrite Hp in Hl. simpl in Hl. lia.
Qed.

Lemma purgeLru_not_full (capacity : nat) order m :
  (size m < capacity)%nat -> purgeLru used capacity order m = m.
Proof.
  intros Hlt. unfold purgeLru.
  by destruct (Nat.leb_spec capacity (size m)) as [?|_]; [lia|].
Qed.

Lemma sorted_keys_Sorted order m :
  Sorted (fun ki kj => lastUsed_of used m ki <= lastUsed_of used m kj)
         (sort_SliceStable (byLastUsed used m) order).
Proof.
  eapply Sorted_weaken; [|apply insertion_sort_Sorted, byLastUsed_asym].
  intros x y. by rewrite byLastUsed_not_after.
Qed.

(** The key used strictly before all the others is the first to go. *)
Lemma sorted_keys_oldest order m (k0 : string) :
  k0 ∈ order ->
  (forall k, k ∈ order -> k <> k0 ->
             lastUsed_of used m k0 < lastUsed_of used m k) ->
  exists rest, sort_SliceStable (byLastUsed used m) order = k0 :: rest.
Proof.
  intros Hin Hold.
  apply (insertion_sort_head _ (byLastUsed_asym m) (byLastUsed_trans m));
    [done|].
  intros k Hk Hne. unfold byLastUsed. specialize (Hold k Hk Hne). lia.
Qed.

End LruFacts.

(** ** More on the eviction loop *)

Lemma StronglySorted_app_elem_of {A} (R : A -> A -> Prop) (l1 l2 : list A)
  (x1 x2 : A) :
  StronglySorted R (l1 ++ l2) -> x1 ∈ l1 -> x2 ∈ l2 -> R x1 x2.
Proof.
  induction l1 as [|a l1 IH]; intros Hs H1 H2.
  - by apply elem_of_nil in H1.
  - inversion_clear Hs as [|? ? Hs' Hall].
    apply elem_of_cons in H1 as [->|H1]; [|by apply IH].
    rewrite Forall_forall in Hall. apply Hall, elem_of_app. by right.
Qed.

Section LruMore.
Context {V : Type} (used : V -> Z).
Implicit Types (m : gmap string V) (order : list string).

Lemma sorted_keys_facts order m :
  order ≡ₚ keys_of m ->
  let keys := sort_SliceStable (byLastUsed used m) order in
  NoDup keys /\ length keys = size m /\
  (forall k, k ∈ keys <-> is_Some (m !! k)) /\
  StronglySorted (not_after (byLastUsed used m)) keys.
Proof.
  intros Hp keys.
  pose proof (insertion_sort_perm (byLastUsed used m) order) as Hs.
  fold (sort_SliceStable (byLastUsed used m) order) in Hs. fold keys in Hs.
  repeat split.
  - rewrite Hs, Hp. apply keys_of_NoDup.
  - rewrite Hs, Hp. apply length_keys_of.
  - rewrite Hs, Hp. apply elem_of_keys_of.
  - rewrite Hs, Hp. apply elem_of_keys_of.
  - apply insertion_sort_StronglySorted.
    + apply byLastUsed_asym.
    + apply byLastUsed_trans.
Qed.

Lemma purgeLru_full_size (capacity : nat) order m :
  order ≡ₚ keys_of m -> (capacity <= size m)%nat -> (1 <= size m)%nat ->
  size (purgeLru used capacity order m) = (size m - (size m / 5 + 1))%nat.
Proof.
  intros Hp Hcap Hpos. rewrite purgeLru_full by done.
  destruct (sorted_keys_facts order m Hp) as (Hnd & Hlen & Hin & _).
  rewrite delete_all_size.
  - rewrite length_take_le; [done|]. rewrite Hlen. div_lia.
  - apply (sublist_NoDup _ _ Hnd), sublist_take.
  - intros k Hk. apply subseteq_take in Hk. by apply Hin.
Qed.

(** Storing a key after the eviction pass keeps a map within its
    capacity. *)
Lemma purgeLru_insert_bound (capacity : nat) order m (k : string) (v : V) :
  order ≡ₚ keys_of m -> (1 <= capacity)%nat -> (size m <= capacity)%nat ->
  (size (<[k := v]> (purgeLru used capacity order m)) <= capacity)%nat.
Proof.
  intros Hp Hcap Hsize.
  assert (Hins : forall m' : gmap string V,
            (size (<[k := v]> m') <= S (size m'))%nat).
  { intros m'. rewrite map_size_insert. destruct (m' !! k); simpl; lia. }
  etransitivity; [apply Hins|].
  destruct (decide (size m = capacity)) as [Heq|Hne].
  - rewrite purgeLru_full_size by (done || lia). div_lia.
  - rewrite purgeLru_not_full by lia. lia.
Qed.

(** In a map of two entries or more, the entry used strictly after all the
    others is not among the evicted ones. *)
Lemma purgeLru_keeps_newest (capacity : nat) order m (k0 : string) :
  order ≡ₚ keys_of m -> (2 <= size m)%nat ->
  (forall k, is_Some (m !! k) -> k <> k0 ->
             lastUsed_of used m k < lastUsed_of used m k0) ->
  purgeLru used capacity order m !! k0 = m !! k0.
Proof.
  intros Hp Hsize Hnew.
  destruct (Nat.le_gt_cases capacity (size m)) as [Hcap|Hcap];
    [|by rewrite purgeLru_not_full].
  rewrite purgeLru_full by (done || lia).
  destruct (sorted_keys_facts order m Hp) as (Hnd & Hlen & Hin & Hs).
  cbv zeta in Hnd, Hlen, Hin, Hs.
  set (keys := sort_SliceStable (byLastUsed used m) order) in *.
  set (d := (size m / 5 + 1)%nat).
  rewrite delete_all_lookup. rewrite decide_False; [done|].
  intros Hk0.
  assert (Hd : (d < length keys)%nat) by (subst d; rewrite Hlen; div_lia).
  destruct (lookup_lt_is_Some_2 keys d Hd) as [y Hy].
  assert (Hydrop : y ∈ drop d keys).
  { apply list_elem_of_lookup. exists 0%nat. rewrite lookup_drop.
    by replace (d + 0)%nat with d by lia. }
  rewrite <- (take_drop d keys) in Hs, Hnd.
  pose proof (StronglySorted_app_elem_of _ _ _ _ _ Hs Hk0 Hydrop) as Hle.
  apply byLastUsed_not_after in Hle.
  apply NoDup_app in Hnd as (_ & Hdisj & _).
  assert (Hne : y <> k0) by (intros ->; by apply (Hdisj k0)).
  assert (Hysome : is_Some (m !! y)).
  { apply Hin. apply (subseteq_drop d keys), Hydrop. }
  specialize (Hnew y Hysome Hne). lia.
Qed.

End LruMore.

(** ** vaultCache.go *)

Module CacheFacts.
Import Config ParseHeader Cache.

Lemma purgeOldCacheEntries_lookup (c : vaultCache) (now : Z) (k : string) :
  cache (purgeOldCacheEntries c now) !! k =
  match cache c !! k with
  | Some e =>
      if (now - VAULT_CACHE_PURGE_FREQUENCY * 1000 >? lastCachePurge c)
         && isExpired e now
      then None else Some e
  | None => None
  end.
Proof.
  unfold purgeOldCacheEntries.
  destruct (now - VAULT_CACHE_PURGE_FREQUENCY * 1000 >? lastCachePurge c);
    cbn [cache andb].
  - rewrite map_lookup_filter. destruct (cache c !! k) as [e|]; [|done].
    cbn. destruct (isExpired e now).
    + by rewrite option_guard_False.
    + by rewrite option_guard_True.
  - by destruct (cache c !! k).
Qed.

(** The keys [purgeLruCacheEntries] deletes from a cache that has reached
    [CACHE_SIZE], and the size it leaves. *)
Lemma purgeLruCacheEntries_full (order : list string) (c : vaultCache) :
  order ≡ₚ keys_of (cache c) -> (CACHE_SIZE <= size (cache c))%nat ->
  cache (purgeLruCacheEntries order c) =
  delete_all (take (size (cache c) / 5 + 1)
                   (sort_SliceStable (byLastUsed lastUsed (cache c)) order))
             (cache c) /\
  (size (cache c) - size (cache (purgeLruCacheEntries order c)) =
   size (cache c) / 5 + 1)%nat.
Proof.
  intros Hp Hcap. unfold CACHE_SIZE in Hcap.
  assert (Hfull : cache (purgeLruCacheEntries order c) =
    delete_all (take (size (cache c) / 5 + 1)
                  (sort_SliceStable (byLastUsed lastUsed (cache c)) order))
               (cache c)).
  { unfold purgeLruCacheEntries. cbn [cache].
    apply purgeLru_full; [done|unfold CACHE_SIZE; lia|lia]. }
  split; [done|]. rewrite Hfull.
  pose proof (insertion_sort_perm (byLastUsed lastUsed (cache c)) order) as Hs.
  fold (sort_SliceStable (byLastUsed lastUsed (cache c)) order) in Hs.
  set (keys := sort_SliceStable (byLastUsed lastUsed (cache c)) order) in *.
  assert (Hlen : length keys = size (cache c))
    by (by rewrite Hs, Hp, length_keys_of).
  rewrite delete_all_size.
  - rewrite length_take_le by div_lia. div_lia.
  - apply (sublist_NoDup _ keys); [|apply sublist_take].
    rewrite Hs, Hp. apply keys_of_NoDup.
  - intros k Hk. apply subseteq_take in Hk.
    rewrite Hs, Hp in Hk. by apply elem_of_keys_of.
Qed.

(** The eviction pass on a map of any size [n] that has reached
    [CACHE_SIZE]: the keys are sorted by [lastUsed], oldest first, and exactly
    the first [n/5 + 1] of them are deleted before the new entry is stored,
    because the bound [len(c.cache)/4] of the loop is read again after each
    deletion.  That is at least one key and at most [ceil(n/4)], and it is
    [ceil(n/4)] as long as [n <= 8]; the entry used strictly before all the
    others is always among them. *)
Lemma purgeLruCacheEntries_evicts (order : list string) (c : vaultCache) :
  order ≡ₚ keys_of (cache c) ->
  (CACHE_SIZE <= size (cache c))%nat ->
  let n := size (cache c) in
  let keys := sort_SliceStable (byLastUsed lastUsed (cache c)) order in
  let evicted := take (n / 5 + 1) keys in
  let c' := purgeLruCacheEntries order c in
  keys ≡ₚ order /\
  Sorted (fun ki kj => lastUsed_of lastUsed (cache c) ki <=
                       lastUsed_of lastUsed (cache c) kj) keys /\
  cache c' = delete_all evicted (cache c) /\
  (size (cache c) - size (cache c') = n / 5 + 1)%nat /\
  (1 <= n / 5 + 1 <= (n + 3) / 4)%nat /\
  ((n <= 8)%nat -> (n / 5 + 1 = (n + 3) / 4)%nat) /\
  (forall k0,
     is_Some (cache c !! k0) ->
     (forall k, is_Some (cache c !! k) -> k <> k0 ->
                lastUsed_of lastUsed (cache c) k0 <
                lastUsed_of lastUsed (cache c) k) ->
     cache c' !! k0 = None) /\
  (forall key r now,
     cache (setInCache order c key r now).1 =
     <[key := (newCachedResponse r now).1]> (delete_all evicted (cache c))).
Proof.
  intros Hp Hcap n keys evicted c'.
  destruct (purgeLruCacheEntries_full order c Hp Hcap) as [Hfull Hsize].
  fold n keys evicted c' in Hfull, Hsize.
  assert (Hn : (1 <= n)%nat) by (unfold CACHE_SIZE in Hcap; subst n; lia).
  repeat split; try done.
  - apply insertion_sort_perm.
  - apply sorted_keys_Sorted.
  - div_lia.
  - div_lia.
  - intros Hsmall. div_lia.
  - intros k0 Hk0 Hold. rewrite Hfull, delete_all_lookup.
    rewrite decide_True; [done|].
    destruct (sorted_keys_oldest lastUsed order (cache c) k0) as [rest E].
    + rewrite Hp. by apply elem_of_keys_of.
    + intros k Hk. apply Hold. apply elem_of_keys_of. by rewrite <- Hp.
    + subst evicted keys. rewrite E.
      replace (n / 5 + 1)%nat with (S (n / 5)) by lia. left.
  - intros key r now. subst c'. unfold setInCache, newCachedResponse.
    cbn [fst cache]. by rewrite Hfull.
Qed.

Section Built.
Context `{Digest}.

Lemma getCachedResponse_size (c : vaultCache) (request : Request) (now : Z) :
  (size (cache (getCachedResponse c request now).2) <= size (cache c))%nat.
Proof.
  assert (Hpurged : (size (cache (purgeOldCacheEntries c now))
                     <= size (cache c))%nat).
  { unfold purgeOldCacheEntries.
    destruct (now - VAULT_CACHE_PURGE_FREQUENCY * 1000 >? lastCachePurge c);
      [|done].
    cbn [cache]. apply map_size_filter. }
  unfold getCachedResponse, getFromCache.
  destruct (cache (purgeOldCacheEntries c now) !! getMD5HashedCacheKey request)
    as [e|] eqn:E; [|done].
  destruct (isExpired e now); cbn [negb snd cache]; [done|].
  by rewrite map_size_insert_Some by (by eexists).
Qed.

(** The cache never grows beyond [CACHE_SIZE]. *)
Lemma built_within (c : vaultCache) :
  built c -> (size (cache c) <= CACHE_SIZE)%nat.
Proof.
  induction 1 as [now|order c key r now _ IH Hp|c request now _ IH|c key _ IH].
  - cbn. rewrite map_size_empty. lia.
  - unfold setInCache, newCachedResponse, purgeLruCacheEntries.
    cbn [fst cache].
    apply purgeLru_insert_bound; [done|unfold CACHE_SIZE; lia|done].
  - pose proof (getCachedResponse_size c request now). lia.
  - unfold removeFromCache. cbn [cache]. rewrite map_size_delete.
    destruct (cache c !! key); simpl; lia.
Qed.

(** C5.  A cache the program has built never holds more than [CACHE_SIZE]
    entries, so an insertion that finds it full finds exactly [CACHE_SIZE]
    of them.  The eviction pass then sorts the keys by [lastUsed], oldest
    first, and deletes exactly the first [ceil(n/4)] of them before the new
    entry is stored.  Of the [n] entries the insertion drops at least one
    and at most [ceil(n/4) + 1] (the entry under the key of the insertion is
    replaced when the pass has left it), always with the entry used strictly
    before all the others among them. *)
Theorem purgeLruCacheEntries_quarter (order : list string) (c : vaultCache) :
  built c ->
  order ≡ₚ keys_of (cache c) ->
  (CACHE_SIZE <= size (cache c))%nat ->
  let n := size (cache c) in
  let keys := sort_SliceStable (byLastUsed lastUsed (cache c)) order in
  let evicted := take ((n + 3) / 4) keys in
  let c' := purgeLruCacheEntries order c in
  keys ≡ₚ order /\
  Sorted (fun ki kj => lastUsed_of lastUsed (cache c) ki <=
                       lastUsed_of lastUsed (cache c) kj) keys /\
  cache c' = delete_all evicted (cache c) /\
  (size (cache c) - size (cache c') = (n + 3) / 4)%nat /\
  (forall k0,
     is_Some (cache c !! k0) ->
     (forall k, is_Some (cache c !! k) -> k <> k0 ->
                lastUsed_of lastUsed (cache c) k0 <
                lastUsed_of lastUsed (cache c) k) ->
     k0 ∈ evicted /\ cache c' !! k0 = None) /\
  (forall key r now,
     let after := cache (setInCache order c key r now).1 in
     after = <[key := (newCachedResponse r now).1]>
               (delete_all evicted (cache c)) /\
     (1 <= n - size (delete key after) <= (n + 3) / 4 + 1)%nat).
Proof.
  intros Hbuilt Hp Hcap n keys evicted c'.
  pose proof (built_within c Hbuilt) as Hinv.
  destruct (purgeLruCacheEntries_evicts order c Hp Hcap)
    as (Hperm & Hsorted & Hfull & Hsize & _ & Hquarter & Hold & Hins).
  cbv zeta in Hfull, Hsize, Hquarter, Hold, Hins.
  fold n keys c' in Hperm, Hsorted, Hfull, Hsize, Hquarter, Hold, Hins.
  assert (Hn : (1 <= n <= 8)%nat)
    by (unfold CACHE_SIZE in Hcap, Hinv; subst n; lia).
  assert (Hq : (n / 5 + 1 = (n + 3) / 4)%nat) by (apply Hquarter; lia).
  rewrite Hq in Hfull, Hsize, Hins. fold evicted in Hfull, Hins.
  assert (Hq1 : (1 <= (n + 3) / 4 <= n)%nat) by (clear -Hn; div_lia).
  split; [done|]. split; [done|]. split; [done|]. split; [done|].
  split.
  - intros k0 Hk0 Hleast. pose proof (Hold k0 Hk0 Hleast) as Hgone.
    split; [|done].
    rewrite Hfull, delete_all_lookup in Hgone.
    destruct (decide (k0 ∈ evicted)) as [Hin|_]; [done|].
    destruct Hk0 as [e He]. congruence.
  - intros key r now. cbv zeta. rewrite Hins.
    split; [done|].
    rewrite delete_insert_eq, <- Hfull.
    pose proof (map_size_delete key (cache c')) as Hdel.
    rewrite Hdel. clear Hdel Hins Hfull Hold Hquarter Hq.
    set (q := ((n + 3) / 4)%nat) in *. clearbody q.
    subst n. set (m := size (cache c)) in *. set (m' := size (cache c')) in *.
    clearbody m m'.
    destruct (cache c' !! key); simpl; lia.
Qed.

End Built.

(** The theorem at a cache filled by two insertions, [k2] before [k1]: the
    pass deletes [k2] alone. *)
Lemma purgeLruCacheEntries_quarter_filled :
  (@built Examples.plain_Digest MoreExamples.filled_cache /\
   ["k1"; "k2"] ≡ₚ keys_of (cache MoreExamples.filled_cache) /\
   (CACHE_SIZE <= size (cache MoreExamples.filled_cache))%nat) /\
  cache (purgeLruCacheEntries ["k1"; "k2"] MoreExamples.filled_cache) =
  delete_all ["k2"] (cache MoreExamples.filled_cache).
Proof.
  assert (Hb : @built Examples.plain_Digest MoreExamples.filled_cache).
  { apply built_set; [apply built_set; [apply built_new|]|];
      apply (bool_decide_unpack _); vm_compute; exact I. }
  assert (Hp : ["k1"; "k2"] ≡ₚ keys_of (cache MoreExamples.filled_cache)).
  { apply (bool_decide_unpack _). vm_compute. exact I. }
  assert (Hc : (CACHE_SIZE <= size (cache MoreExamples.filled_cache))%nat).
  { vm_compute. lia. }
  split; [exact (conj Hb (conj Hp Hc))|].
  exact (proj1 (proj2 (proj2
    (@purgeLruCacheEntries_quarter Examples.plain_Digest ["k1"; "k2"]
       MoreExamples.filled_cache Hb Hp Hc)))).
Defined.

Section Requests.
Context `{Digest}.

(** The response of a lookup, from the entry stored under the key of the
    request. *)
Lemma getCachedResponse_response (c : vaultCache) (request : Request)
  (now : Z) :
  (getCachedResponse c request now).1 =
  match cache c !! getMD5HashedCacheKey request with
  | Some e => if isExpired e now then None else Some (getResponse e)
  | None => None
  end.
Proof.
  unfold getCachedResponse, getFromCache.
  rewrite purgeOldCacheEntries_lookup.
  destruct (cache c !! getMD5HashedCacheKey request) as [e|]; [|done].
  destruct (isExpired e now) eqn:E.
  - rewrite andb_true_r.
    destruct (now - VAULT_CACHE_PURGE_FREQUENCY * 1000 >? lastCachePurge c);
      [done|]. by rewrite E.
  - rewrite andb_false_r. by rewrite E.
Qed.

(** On a hit the entry is stored again with [lastUsed] set to [now]. *)
Lemma getCachedResponse_touch (c : vaultCache) (request : Request) (now : Z)
  (e : cachedResponse) :
  cache c !! getMD5HashedCacheKey request = Some e ->
  isExpired e now = false ->
  cache (getCachedResponse c request now).2 !! getMD5HashedCacheKey request =
  Some (mkCachedResponse (response e) (bodyData e) (expires e) now).
Proof.
  intros He Hx. unfold getCachedResponse, getFromCache.
  set (key := getMD5HashedCacheKey request) in *.
  rewrite purgeOldCacheEntries_lookup, He, Hx, andb_false_r.
  rewrite Hx. cbn [negb snd cache].
  apply lookup_insert_eq.
Qed.

Lemma setInCache_entry (order : list string) (c : vaultCache) (key : string)
  (r : Response) (now : Z) :
  cache (setInCache order c key r now).1 !! key =
  Some (mkCachedResponse
          (mkResponse (StatusCode r) (resp_Header r)
                      (NewReader (body_bytes (resp_Body r))))
          (body_bytes (resp_Body r))
          (now + VAULT_CACHE_DEFAULT_EXPIRATION * 1000) now).
Proof. unfold setInCache. cbn. apply lookup_insert_eq. Qed.

(** C4, as the code has it: a lookup is a hit exactly when an entry is
    stored under the key of the request and [now <= expires]; an entry is
    expired when [now > expires], so at the instant [now = expires] it is
    still returned.  An insertion sets [expires] to [now] plus the default
    expiration (in milliseconds) and a hit sets [lastUsed] to [now]. *)
Theorem getCachedResponse_hit_iff (c : vaultCache) (request : Request)
  (now : Z) :
  let key := getMD5HashedCacheKey request in
  (forall r,
     (getCachedResponse c request now).1 = Some r <->
     exists e, cache c !! key = Some e /\ now <= expires e /\
               r = getResponse e) /\
  (forall e,
     cache c !! key = Some e -> now <= expires e ->
     cache (getCachedResponse c request now).2 !! key =
     Some (mkCachedResponse (response e) (bodyData e) (expires e) now)) /\
  (forall order key' r,
     exists e,
       cache (setInCache order c key' r now).1 !! key' = Some e /\
       expires e = now + VAULT_CACHE_DEFAULT_EXPIRATION * 1000 /\
       lastUsed e = now).
Proof.
  intros key. split; [|split].
  - intros r. rewrite getCachedResponse_response. fold key.
    destruct (cache c !! key) as [e|];
      [|split; [done|by intros (e & ? & _)]].
    unfold isExpired. destruct (Z.gtb_spec now (expires e)).
    + split; [done|]. intros (e' & [= <-] & ? & _). lia.
    + split.
      * intros [= <-]. exists e. repeat split; [lia].
      * by intros (e' & [= <-] & _ & ->).
  - intros e He Hle. apply getCachedResponse_touch; [done|].
    unfold isExpired. lia.
  - intros order key' r. eexists. split; [apply setInCache_entry|done].
Qed.

(** What [refreshCache] does with a response that is not nil: the entry is
    stored exactly when the status is 200, whatever the error is, and the
    error goes back to the caller. *)
Lemma refreshCache_response (order : list string) (c : vaultCache)
  (request : Request) (r : Response) (err : option string) (now : Z) :
  refreshCache order c request (Some r, err) now =
  if StatusCode r =? 200
  then Ok ((setInCache order c (getMD5HashedCacheKey request) r now).2, err,
           (setInCache order c (getMD5HashedCacheKey request) r now).1)
  else Ok (r, err, c).
Proof.
  unfold refreshCache. destruct (StatusCode r =? 200); [|done].
  by destruct (setInCache order c (getMD5HashedCacheKey request) r now).
Qed.

(** C3, where the code departs from it.  When the upstream call fails,
    [client.Do] returns a nil response with its error, and [refreshCache]
    reads [response.StatusCode] before it looks at the error: it panics and
    the caller never receives the error.  When the body of a 200 response
    cannot be read to its end, the error of the copy is dropped: the bytes
    read so far are stored as the entry and no error is returned. *)
Theorem refreshCache_on_failure (order : list string) (c : vaultCache)
  (request : Request) (now : Z) :
  (forall e : string,
     refreshCache order c request (None, Some e) now =
     Panic nil_dereference) /\
  (forall (h : Header) (read : string),
     exists r' c',
       refreshCache order c request
         (Some (mkResponse 200 h (mkBody read true)), None) now =
       Ok (r', None, c') /\
       bodyData <$> cache c' !! getMD5HashedCacheKey request = Some read).
Proof.
  split; [done|].
  intros h read. rewrite refreshCache_response. cbn [StatusCode Z.eqb].
  do 2 eexists. split; [reflexivity|].
  by rewrite setInCache_entry.
Qed.

End Requests.

(** The theorem at a lookup one second after the entry was stored. *)
Lemma getCachedResponse_hit_iff_fresh :
  (@getCachedResponse Examples.plain_Digest Examples.one_entry_cache
     Examples.secret_request 2000).1 =
  Some (getResponse Examples.entry_at_1000).
Proof.
  apply (proj1 (@getCachedResponse_hit_iff Examples.plain_Digest
                  Examples.one_entry_cache Examples.secret_request 2000)).
  exists Examples.entry_at_1000.
  split; [vm_compute; reflexivity|].
  split; [vm_compute; discriminate|reflexivity].
Defined.

(** C4 as stated fails at the boundary: whatever the digest, an entry
    whose [expires] is the present instant is returned as a hit. *)
Lemma getCachedResponse_hit_at_expiry :
  ~ exists D : Digest,
      forall (c : vaultCache) (request : Request) (now : Z) e,
        cache c !! getMD5HashedCacheKey request = Some e ->
        expires e <= now ->
        (getCachedResponse c request now).1 = None.
Proof.
  intros [D Hclaim].
  pose (key := getMD5HashedCacheKey Examples.secret_request).
  pose (c := mkVaultCache {[ key := Examples.entry_at_1000 ]} 1000).
  specialize (Hclaim c Examples.secret_request 31000 Examples.entry_at_1000).
  rewrite getCachedResponse_response in Hclaim. fold key in Hclaim.
  assert (Hl : cache c !! key = Some Examples.entry_at_1000)
    by apply lookup_singleton_eq.
  assert (Hx : expires Examples.entry_at_1000 <= 31000)
    by (vm_compute; discriminate).
  rewrite Hl in Hclaim. specialize (Hclaim eq_refl Hx).
  vm_compute in Hclaim. discriminate.
Qed.

End CacheFacts.

(** ** rateLimiter.go: the composite limiter *)

Module MultiFacts.
Import Config Limiter.

Lemma Limit_ltb_false (a b : Limit) : Limit_ltb a b = false <-> (b <= a)%Q.
Proof.
  unfold Limit_ltb. rewrite negb_false_iff. apply Qle_bool_iff.
Qed.

Lemma Limit_ltb_true (a b : Limit) : Limit_ltb a b = true <-> (a < b)%Q.
Proof.
  unfold Limit_ltb. rewrite negb_true_iff. split.
  - intros E. apply Qnot_le_lt. intros Hle.
    apply Qle_bool_iff in Hle. congruence.
  - intros Hlt. destruct (Qle_bool b a) eqn:E; [|done].
    apply Qle_bool_iff in E. by apply Qlt_not_le in Hlt.
Qed.

Section Multi.
Context {B : Type} `{RateLimiter B}.
Implicit Types (ls : list B) (b : B).

Lemma byLimit_asym (x y : B) : byLimit x y = true -> byLimit y x = false.
Proof.
  unfold byLimit. rewrite Limit_ltb_true, Limit_ltb_false.
  apply Qlt_le_weak.
Qed.

Lemma byLimit_not_after (x y : B) :
  not_after byLimit x y <-> (Limit_of x <= Limit_of y)%Q.
Proof. unfold not_after, byLimit. apply Limit_ltb_false. Qed.

Lemma byLimit_trans : Transitive (not_after (@byLimit B _)).
Proof. intros x y z. rewrite !byLimit_not_after. apply Qle_trans. Qed.

Lemma MultiLimiter_perm ls : limiters (MultiLimiter ls) ≡ₚ ls.
Proof. apply insertion_sort_perm. Qed.

Lemma MultiLimiter_Sorted ls :
  Sorted (fun a b => (Limit_of a <= Limit_of b)%Q) (limiters (MultiLimiter ls)).
Proof.
  eapply Sorted_weaken; [|apply insertion_sort_Sorted, byLimit_asym].
  intros x y. by rewrite byLimit_not_after.
Qed.

(** The first limiter of the composite has the least rate of all. *)
Lemma MultiLimiter_head ls :
  ls <> [] ->
  exists l0 rest,
    limiters (MultiLimiter ls) = l0 :: rest /\ l0 ∈ ls /\
    forall b, b ∈ ls -> (Limit_of l0 <= Limit_of b)%Q.
Proof.
  intros Hne.
  pose proof (MultiLimiter_perm ls) as Hp.
  pose proof (insertion_sort_StronglySorted byLimit byLimit_asym byLimit_trans ls)
    as Hs.
  change (insertion_sort byLimit ls) with (limiters (MultiLimiter ls)) in Hs.
  destruct (limiters (MultiLimiter ls)) as [|l0 rest].
  - by apply Permutation_nil in Hp.
  - exists l0, rest. split; [done|]. split.
    + rewrite <- Hp. left.
    + intros b Hb. rewrite <- Hp in Hb.
      apply elem_of_cons in Hb as [->|Hb]; [apply Qle_refl|].
      inversion_clear Hs as [|? ? _ Hall]. rewrite Forall_forall in Hall.
      by apply byLimit_not_after, Hall.
Qed.

(** When every limiter allows, every limiter is asked and keeps the state
    its [Allow] left. *)
Lemma Allow_loop_all ls (now : Z) :
  Forall (fun b => (Allow b now).1 = true) ls ->
  Allow_loop ls now = (true, (fun b => (Allow b now).2) <$> ls).
Proof.
  induction 1 as [|b ls Hb _ IH]; [done|].
  cbn [Allow_loop]. rewrite fmap_cons, IH.
  destruct (Allow b now) as [ok b']. cbn in Hb. by subst ok.
Qed.

(** When a limiter denies after the ones before it have allowed, the
    answer is no; the ones before it keep the state their [Allow] left, the
    ones after it are not asked. *)
Lemma Allow_loop_deny (pre : list B) b (post : list B) (now : Z) :
  Forall (fun x => (Allow x now).1 = true) pre ->
  (Allow b now).1 = false ->
  Allow_loop (pre ++ b :: post) now =
  (false, ((fun x => (Allow x now).2) <$> pre) ++ (Allow b now).2 :: post).
Proof.
  intros Hpre Hb. induction Hpre as [|x pre Hx _ IH].
  - cbn [app Allow_loop]. rewrite fmap_nil. cbn [app].
    destruct (Allow b now) as [ok b']. cbn in Hb. by subst ok.
  - cbn [app Allow_loop]. rewrite fmap_cons, IH. cbn [app].
    destruct (Allow x now) as [ok x']. cbn in Hx. by subst ok.
Qed.

Lemma Allow_loop_true_iff ls (now : Z) :
  (Allow_loop ls now).1 = true <-> Forall (fun b => (Allow b now).1 = true) ls.
Proof.
  split; [|intros Hall; by rewrite Allow_loop_all].
  induction ls as [|b ls IH]; [by constructor|].
  cbn [Allow_loop]. destruct (Allow b now) as [ok b'] eqn:E.
  destruct ok; [|done].
  destruct (Allow_loop ls now) as [r ls']. cbn. intros ->.
  constructor; [by rewrite E|by apply IH].
Qed.

(** C6.  The limiters of a composite built by [MultiLimiter] are those it
    was given, in ascending order of rate.  [Allow] answers yes exactly when
    every one of them allows, and then every one of them has consumed.
    [Limit] is the rate of a limiter of the composite that no other one
    undercuts. *)
Theorem MultiLimiter_composite ls (now : Z) :
  ls <> [] ->
  let l := MultiLimiter ls in
  limiters l ≡ₚ ls /\
  Sorted (fun a b => (Limit_of a <= Limit_of b)%Q) (limiters l) /\
  ((multiLimiter_Allow l now).1 = true <->
   forall b, b ∈ ls -> (Allow b now).1 = true) /\
  ((multiLimiter_Allow l now).1 = true ->
   limiters (multiLimiter_Allow l now).2 =
   (fun b => (Allow b now).2) <$> limiters l) /\
  exists l0,
    multiLimiter_Limit l = Ok (Limit_of l0) /\ l0 ∈ ls /\
    forall b, b ∈ ls -> (Limit_of l0 <= Limit_of b)%Q.
Proof.
  intros Hne. cbv zeta. set (l := MultiLimiter ls).
  assert (Hallow : (multiLimiter_Allow l now).1 = (Allow_loop (limiters l) now).1)
    by (unfold multiLimiter_Allow; by destruct (Allow_loop (limiters l) now)).
  pose proof (MultiLimiter_perm ls) as Hp. fold l in Hp.
  split; [done|]. split; [apply MultiLimiter_Sorted|].
  split; [|split].
  - rewrite Hallow, Allow_loop_true_iff, Forall_forall.
    split; intros Hall b Hb; apply Hall.
    + by rewrite Hp.
    + by rewrite <- Hp.
  - rewrite Hallow, Allow_loop_true_iff. intros Hall.
    unfold multiLimiter_Allow. by rewrite Allow_loop_all.
  - destruct (MultiLimiter_head ls Hne) as (l0 & rest & E & Hin & Hmin).
    exists l0. unfold multiLimiter_Limit. fold l in E. by rewrite E.
Qed.

Lemma multiLimiter_Allow_deny (pre : list B) b (post : list B) (now : Z) :
  Forall (fun x => (Allow x now).1 = true) pre ->
  (Allow b now).1 = false ->
  multiLimiter_Allow (mkMultiLimiter (pre ++ b :: post)) now =
  (false,
   mkMultiLimiter
     (((fun x => (Allow x now).2) <$> pre) ++ (Allow b now).2 :: post)).
Proof.
  intros Hpre Hb. unfold multiLimiter_Allow. cbn [limiters].
  by rewrite Allow_loop_deny.
Qed.

End Multi.

(** A token bucket of finite, non-zero rate that allows is left with one
    token less than it had at that instant, and a bucket that denies is
    left as it was. *)
Lemma rate_Allow_consumes (lim : rate_Limiter) (now : Z) :
  Qeq_bool (limit lim) Inf = false -> Qeq_bool (limit lim) 0 = false ->
  (rate_Allow lim now).1 = true ->
  (rate_Allow lim now).2 =
  mkLimiter (limit lim) (burst lim) (advance lim now - 1)%Q (Some now).
Proof.
  intros Hinf Hzero. unfold rate_Allow. rewrite Hinf, Hzero.
  by destruct ((1 <=? burst lim) && Qle_bool 0 (advance lim now - 1)).
Qed.

Lemma rate_Allow_denied (lim : rate_Limiter) (now : Z) :
  (rate_Allow lim now).1 = false -> (rate_Allow lim now).2 = lim.
Proof.
  unfold rate_Allow.
  destruct (Qeq_bool (limit lim) Inf); [done|].
  destruct (Qeq_bool (limit lim) 0).
  - by destruct (1 <=? burst lim).
  - by destruct ((1 <=? burst lim) && Qle_bool 0 (advance lim now - 1)).
Qed.

(** The pair of buckets [setInLimiterCache] builds from the shipped
    configuration: the sustained bucket comes first. *)
Lemma shipped_pair_order :
  exists burstLimit rateLimit,
    Per BURST_LIMIT_PER_SECOND Second = Ok burstLimit /\
    Per RATE_LIMIT_PER_MINUTE Minute = Ok rateLimit /\
    (rateLimit == 1 # 12)%Q /\ (burstLimit == 2)%Q /\
    limiters (MultiLimiter [NewLimiter burstLimit 1;
                            NewLimiter rateLimit RATE_LIMITER_BUCKET_SIZE]) =
    [NewLimiter rateLimit RATE_LIMITER_BUCKET_SIZE; NewLimiter burstLimit 1].
Proof. do 2 eexists. repeat split; reflexivity. Qed.

(** C10.  [Allow] on a composite is not atomic.  When the limiters before
    one that denies have allowed, the composite answers no, and yet each of
    them is left in the state its own [Allow] produced: what it consumed is
    not given back.  For the pair of a visitor, sustained bucket first and
    burst bucket second, a request that the burst bucket alone denies leaves
    the sustained bucket with one token less than it had at that instant. *)
Theorem multiLimiter_Allow_not_atomic :
  (forall (B : Type) (RL : RateLimiter B) (pre : list B) (b : B)
          (post : list B) (now : Z),
     Forall (fun x => (Allow x now).1 = true) pre ->
     (Allow b now).1 = false ->
     multiLimiter_Allow (mkMultiLimiter (pre ++ b :: post)) now =
     (false,
      mkMultiLimiter
        (((fun x => (Allow x now).2) <$> pre) ++ (Allow b now).2 :: post))) /\
  (forall (sustained burstBucket : rate_Limiter) (now : Z),
     Qeq_bool (limit sustained) Inf = false ->
     Qeq_bool (limit sustained) 0 = false ->
     (Allow sustained now).1 = true ->
     (Allow burstBucket now).1 = false ->
     multiLimiter_Allow (mkMultiLimiter [sustained; burstBucket]) now =
     (false,
      mkMultiLimiter
        [mkLimiter (limit sustained) (burst sustained)
                   (advance sustained now - 1)%Q (Some now);
         burstBucket])).
Proof.
  split.
  - intros B RL pre b post now. apply multiLimiter_Allow_deny.
  - intros sustained burstBucket now Hinf Hzero Hs Hb.
    rewrite (multiLimiter_Allow_deny [sustained] burstBucket [] now);
      [|by constructor|done].
    cbn [fmap list_fmap app]. cbn [Allow rate_Limiter_RateLimiter] in *.
    by rewrite rate_Allow_consumes, rate_Allow_denied.
Qed.

(** The first theorem at the pair of a visitor. *)
Lemma MultiLimiter_composite_pair :
  [Examples.burst_bucket; Examples.sustained_bucket] <> [] /\
  limiters (MultiLimiter [Examples.burst_bucket; Examples.sustained_bucket])
  ≡ₚ [Examples.burst_bucket; Examples.sustained_bucket].
Proof.
  assert (Hne : [Examples.burst_bucket; Examples.sustained_bucket] <> [])
    by discriminate.
  split; [exact Hne|].
  exact (proj1 (MultiLimiter_composite
                  [Examples.burst_bucket; Examples.sustained_bucket] 1000
                  Hne)).
Defined.

(** A second request 100 ms after the first: the burst bucket has a fifth
    of a token and denies, the sustained bucket allows and goes from four
    tokens to a little over three. *)
Lemma multiLimiter_Allow_not_atomic_pair :
  (Qeq_bool (limit Examples.used_sustained) Inf = false /\
   Qeq_bool (limit Examples.used_sustained) 0 = false /\
   (Allow Examples.used_sustained 1100).1 = true /\
   (Allow Examples.used_burst 1100).1 = false) /\
  multiLimiter_Allow
    (mkMultiLimiter [Examples.used_sustained; Examples.used_burst]) 1100 =
  (false,
   mkMultiLimiter
     [mkLimiter (limit Examples.used_sustained) (burst Examples.used_sustained)
                (advance Examples.used_sustained 1100 - 1)%Q (Some 1100);
      Examples.used_burst]).
Proof.
  assert (H1 : Qeq_bool (limit Examples.used_sustained) Inf = false)
    by (by vm_compute).
  assert (H2 : Qeq_bool (limit Examples.used_sustained) 0 = false)
    by (by vm_compute).
  assert (H3 : (Allow Examples.used_sustained 1100).1 = true)
    by (by vm_compute).
  assert (H4 : (Allow Examples.used_burst 1100).1 = false)
    by (by vm_compute).
  split; [exact (conj H1 (conj H2 (conj H3 H4)))|].
  exact (proj2 multiLimiter_Allow_not_atomic
               Examples.used_sustained Examples.used_burst 1100 H1 H2 H3 H4).
Defined.

Lemma used_sustained_tokens :
  (tokens Examples.used_sustained == 4)%Q /\
  (advance Examples.used_sustained 1100 - 1 == 3 + (1 # 120))%Q.
Proof. split; by vm_compute. Qed.

End MultiFacts.

(** ** rateLimiter.go: the middleware *)

Module LimiterFacts.
Import Config ParseHeader Cache Limiter.

Lemma Per_ok (eventCount duration : Z) :
  eventCount <> 0 ->
  Per eventCount duration = Ok (rate_Every (Z.quot duration eventCount)).
Proof.
  intros Hne. unfold Per. by destruct (Z.eqb_spec eventCount 0).
Qed.

Lemma purgeTokenLimiters_config (l : tokenRateLimiter) (now : Z) :
  burstLimitPerSec (purgeTokenLimiters l now) = burstLimitPerSec l /\
  rateLimitPerMin (purgeTokenLimiters l now) = rateLimitPerMin l.
Proof.
  unfold purgeTokenLimiters.
  by destruct (now - RATE_LIMITER_PURGE_FREQUENCY * 1000 >?
               lastRateLimiterPurge l).
Qed.

(** With a rate configuration that [Per] can divide by, the registry hands
    out a limiter, and that limiter is the one of the visitor stored under
    the key. *)
Lemma getFromLimiterCache_ok (order : list string) (l : tokenRateLimiter)
  (token : string) (now : Z) :
  burstLimitPerSec l <> 0 -> rateLimitPerMin l <> 0 ->
  exists l1 lim,
    getFromLimiterCache order l token now = (l1, Ok lim) /\
    limiterCache l1 !! token = Some (mkVisitor lim now).
Proof.
  intros Hb Hr. unfold getFromLimiterCache.
  destruct (limiterCache l !! token) as [v|].
  - do 2 eexists. split; [reflexivity|]. cbn. apply lookup_insert_eq.
  - unfold setInLimiterCache.
    set (l0 := purgeLruTokenLimiters order l).
    assert (Hb0 : burstLimitPerSec l0 = burstLimitPerSec l) by done.
    assert (Hr0 : rateLimitPerMin l0 = rateLimitPerMin l) by done.
    rewrite (Per_ok (burstLimitPerSec l0)) by congruence.
    rewrite (Per_ok (rateLimitPerMin l0)) by congruence.
    do 2 eexists. split; [reflexivity|]. cbn. apply lookup_insert_eq.
Qed.

Lemma store_limiter_lookup (l : tokenRateLimiter) (token : string)
  (v : visitor) (lim : multiLimiter rate_Limiter) :
  limiterCache l !! token = Some v ->
  limiterCache (store_limiter l token lim) !! token =
  Some (mkVisitor lim (lastUsed v)).
Proof.
  intros Hv. unfold store_limiter. cbn [limiterCache with_limiterCache].
  by rewrite lookup_alter_eq, Hv.
Qed.

Section Handler.
Context `{Digest}.
Variable next : vaultCache -> ResponseWriter -> Request -> parseHeader ->
                ctl * vaultCache * ResponseWriter.

(** The cached response the stage serves, if any: the request is a
    cacheable read and an entry that has not expired is stored under its
    key. *)
Lemma served_from_cache (c : vaultCache) (request : Request)
  (ctx : parseHeader) (now : Z) :
  (if isPathCacheable ctx && negb (isRequestIgnorable ctx)
   then (getCachedResponse c request now).1 else None) =
  if isPathCacheable ctx && negb (isRequestIgnorable ctx) then
    match cache c !! getMD5HashedCacheKey request with
    | Some e => if isExpired e now then None else Some (getResponse e)
    | None => None
    end
  else None.
Proof.
  destruct (isPathCacheable ctx && negb (isRequestIgnorable ctx)); [|done].
  apply CacheFacts.getCachedResponse_response.
Qed.

(** The three ways the handler ends once the decision is saved. *)
Lemma afterAllow_cases (isAllowed : bool) (c : vaultCache)
  (writer : ResponseWriter) (request : Request) (ctx : parseHeader)
  (now : Z) :
  let read := isPathCacheable ctx && negb (isRequestIgnorable ctx) in
  let looked := if read then [EvCacheLookup false] else [] in
  let c1 := if read then (getCachedResponse c request now).2 else c in
  let o := afterAllow next isAllowed c writer request ctx now in
  match (if read then (getCachedResponse c request now).1 else None) with
  | Some r =>
      out_trace o = [EvCacheLookup true; EvWriteCached r] /\
      out_cache o = (getCachedResponse c request now).2 /\
      out_ctl o = (if body_fails (resp_Body r)
                   then Exited "Error copying response from cache."
                   else Returned) /\
      out_writer o =
      Write (WriteHeader
               (with_Header writer
                  (copyHeaders (w_Header writer) (resp_Header r)))
               (StatusCode r))
            (body_bytes (resp_Body r))
  | None =>
      if isAllowed then
        out_trace o = looked ++ [EvNext] /\
        (out_ctl o, out_cache o, out_writer o) = next c1 writer request ctx
      else
        out_trace o = looked ++ [EvTooManyRequests] /\
        out_ctl o = Returned /\ out_cache o = c1 /\
        out_writer o = http_Error writer "Too Many Requests" 429
  end.
Proof.
  cbv zeta. unfold afterAllow.
  destruct (isPathCacheable ctx && negb (isRequestIgnorable ctx)).
  - destruct (getCachedResponse c request now) as [[r|] c1]; cbn [fst snd].
    + unfold io_Copy. cbn. by destruct (body_fails (resp_Body r)).
    + destruct isAllowed; cbn [negb].
      * by destruct (next c1 writer request ctx) as [[k c2] w].
      * done.
  - destruct isAllowed; cbn [negb].
    + by destruct (next c writer request ctx) as [[k c2] w].
    + done.
Qed.

(** C1.  The handler resolves the composite limiter of the key and calls
    [Allow] on it once, before anything else; the visitor of the key keeps
    what that call did.  A cacheable read that finds an entry which has not
    expired is answered from the cache whatever the decision was.  The 429
    is sent exactly when the decision was to deny and no cached response was
    served; when the decision was to allow and no cached response was
    served, the request goes to the next handler. *)
Theorem RateLimitHandler_stage (order : list string) (l : tokenRateLimiter)
  (c : vaultCache) (writer : ResponseWriter) (request : Request)
  (ctx : parseHeader) (now : Z) :
  burstLimitPerSec l <> 0 -> rateLimitPerMin l <> 0 ->
  let key := limiterCacheKey ctx in
  let read := isPathCacheable ctx && negb (isRequestIgnorable ctx) in
  let hit :=
    if read then
      match cache c !! getMD5HashedCacheKey request with
      | Some e => if isExpired e now then None else Some (getResponse e)
      | None => None
      end
    else None in
  let l' := (RateLimitHandler next order l c writer request ctx now).1 in
  let o := (RateLimitHandler next order l c writer request ctx now).2 in
  exists l1 lim isAllowed lim',
    getFromLimiterCache order (purgeTokenLimiters l now) key now
    = (l1, Ok lim) /\
    multiLimiter_Allow lim now = (isAllowed, lim') /\
    l' = store_limiter l1 key lim' /\
    limiter <$> limiterCache l' !! key = Some lim' /\
    exists rest,
      out_trace o = EvAllow key isAllowed :: rest /\
      (forall k a, EvAllow k a ∉ rest) /\
      (forall r,
         hit = Some r ->
         rest = [EvCacheLookup true; EvWriteCached r] /\
         out_ctl o = Returned /\
         out_writer o =
         Write (WriteHeader
                  (with_Header writer
                     (copyHeaders (w_Header writer) (resp_Header r)))
                  (StatusCode r))
               (body_bytes (resp_Body r))) /\
      (EvTooManyRequests ∈ rest <-> isAllowed = false /\ hit = None) /\
      (EvTooManyRequests ∈ rest ->
       out_ctl o = Returned /\
       out_writer o = http_Error writer "Too Many Requests" 429) /\
      (EvNext ∈ rest <-> isAllowed = true /\ hit = None) /\
      (EvNext ∈ rest ->
       (out_ctl o, out_cache o, out_writer o) =
       next (if read then (getCachedResponse c request now).2 else c)
            writer request ctx).
Proof.
  intros Hb Hr. cbv zeta.
  destruct (purgeTokenLimiters_config l now) as [Hb' Hr'].
  destruct (getFromLimiterCache_ok order (purgeTokenLimiters l now)
              (limiterCacheKey ctx) now) as (l1 & lim & Hget & Hlook);
    [congruence|congruence|].
  destruct (multiLimiter_Allow lim now) as [isAllowed lim'] eqn:Hallow.
  exists l1, lim, isAllowed, lim'.
  unfold RateLimitHandler. rewrite Hget, Hallow. cbn [fst snd out_trace
    out_ctl out_cache out_writer].
  split; [done|]. split; [done|]. split; [done|].
  split; [by rewrite (store_limiter_lookup _ _ _ _ Hlook)|].
  exists (out_trace (afterAllow next isAllowed c writer request ctx now)).
  split; [done|].
  pose proof (afterAllow_cases isAllowed c writer request ctx now) as Hcases.
  cbv zeta in Hcases. rewrite served_from_cache in Hcases.
  set (o := afterAllow next isAllowed c writer request ctx now) in *.
  set (read := isPathCacheable ctx && negb (isRequestIgnorable ctx)) in *.
  set (served :=
         if read then
           match cache c !! getMD5HashedCacheKey request with
           | Some e => if isExpired e now then None else Some (getResponse e)
           | None => None
           end
         else None) in *.
  assert (Hbody : forall r, served = Some r -> body_fails (resp_Body r) = false).
  { intros r. subst served. destruct read; [|done].
    destruct (cache c !! getMD5HashedCacheKey request) as [e|]; [|done].
    destruct (isExpired e now); [done|]. by intros [= <-]. }
  clearbody served read o.
  destruct served as [r|].
  - destruct Hcases as (Ht & _ & Hk & Hw).
    rewrite (Hbody r eq_refl) in Hk. rewrite Ht.
    split. { intros k a Hin. trace_solver. }
    split. { by intros r0 [= <-]. }
    split. { split; [intros Hin; trace_solver|intros [_ ?]; discriminate]. }
    split. { intros Hin. trace_solver. }
    split. { split; [intros Hin; trace_solver|intros [_ ?]; discriminate]. }
    intros Hin. trace_solver.
  - destruct isAllowed.
    + destruct Hcases as (Ht & Hn). rewrite Ht.
      split. { intros k a Hin. trace_solver. }
      split. { intros r0 ?. discriminate. }
      split. { split; [intros Hin; trace_solver|intros [? _]; discriminate]. }
      split. { intros Hin. trace_solver. }
      split. { split; [done|]. intros _. apply elem_of_app. right. left. }
      done.
    + destruct Hcases as (Ht & Hk & _ & Hw). rewrite Ht.
      split. { intros k a Hin. trace_solver. }
      split. { intros r0 ?. discriminate. }
      split. { split; [done|]. intros _. apply elem_of_app. right. left. }
      split. { done. }
      split. { split; [intros Hin; trace_solver|intros [? _]; discriminate]. }
      intros Hin. trace_solver.
Qed.

End Handler.

(** The theorem at a second request for a secret that is in the cache:
    whatever the limiter decides, the trace is one [Allow], the lookup, and
    the cached response. *)
Lemma RateLimitHandler_stage_cached :
  (burstLimitPerSec Examples.shipped_registry <> 0 /\
   rateLimitPerMin Examples.shipped_registry <> 0) /\
  exists isAllowed,
    out_trace
      (@RateLimitHandler Examples.plain_Digest Examples.no_content []
         Examples.shipped_registry Examples.one_entry_cache new_writer
         Examples.secret_request Examples.secret_ctx 2000).2 =
    [EvAllow (limiterCacheKey Examples.secret_ctx) isAllowed;
     EvCacheLookup true;
     EvWriteCached (getResponse Examples.entry_at_1000)].
Proof.
  assert (Hb : burstLimitPerSec Examples.shipped_registry <> 0)
    by (vm_compute; discriminate).
  assert (Hr : rateLimitPerMin Examples.shipped_registry <> 0)
    by (vm_compute; discriminate).
  split; [exact (conj Hb Hr)|].
  destruct (@RateLimitHandler_stage Examples.plain_Digest Examples.no_content
              [] Examples.shipped_registry Examples.one_entry_cache new_writer
              Examples.secret_request Examples.secret_ctx 2000 Hb Hr)
    as (l1 & lim & isAllowed & lim' & _ & _ & _ & _ & rest & Ht & _ & Hhit & _).
  exists isAllowed. rewrite Ht. f_equal.
  apply (Hhit (getResponse Examples.entry_at_1000)).
  vm_compute. reflexivity.
Defined.

End LimiterFacts.

(** ** vaultAgent.go *)

Module AgentFacts.
Import Config Agent.

(** *** The order of node ids *)

Lemma ascii_compare_N (a b : ascii) :
  Ascii.compare a b = N.compare (N_of_ascii a) (N_of_ascii b).
Proof. reflexivity. Qed.

Lemma string_compare_cons (a b : ascii) (s t : string) :
  String.compare (String a s) (String b t) =
  match Ascii.compare a b with
  | Eq => String.compare s t
  | Lt => Lt
  | Gt => Gt
  end.
Proof. reflexivity. Qed.

Lemma string_compare_le_trans (s t u : string) :
  String.compare s t <> Gt -> String.compare t u <> Gt ->
  String.compare s u <> Gt.
Proof.
  revert t u. induction s as [|a s IH]; intros [|b t] [|c u]; try done.
  rewrite !string_compare_cons, !ascii_compare_N.
  destruct (N.compare_spec (N_of_ascii a) (N_of_ascii b)) as [Eab|Lab|Gab],
           (N.compare_spec (N_of_ascii b) (N_of_ascii c)) as [Ebc|Lbc|Gbc],
           (N.compare_spec (N_of_ascii a) (N_of_ascii c)) as [Eac|Lac|Gac];
    try done; try lia.
  apply IH.
Qed.

Lemma ltb_false_compare (s t : string) :
  String.ltb t s = false <-> String.compare s t <> Gt.
Proof.
  unfold String.ltb. rewrite (String.compare_antisym s t).
  destruct (String.compare t s); simpl; split; done.
Qed.

Lemma byNodeId_asym (x y : Server) :
  byNodeId x y = true -> byNodeId y x = false.
Proof.
  unfold byNodeId, String.ltb.
  rewrite (String.compare_antisym (NodeId x) (NodeId y)).
  by destruct (String.compare (NodeId y) (NodeId x)).
Qed.

Lemma byNodeId_trans : Transitive (not_after byNodeId).
Proof.
  intros x y z. unfold not_after, byNodeId. rewrite !ltb_false_compare.
  apply string_compare_le_trans.
Qed.

Lemma sort_Slice_byNodeId (nodes : list Server) :
  sort_Slice byNodeId nodes ≡ₚ nodes /\
  Sorted (fun x y => String.ltb (NodeId y) (NodeId x) = false)
         (sort_Slice byNodeId nodes).
Proof.
  split; [apply insertion_sort_perm|].
  apply (insertion_sort_Sorted byNodeId byNodeId_asym).
Qed.

(** *** The routing table *)

Lemma fill_table_lookup (nodes : list Server) (i : Z) (t : gmap Z string)
  (j : Z) :
  fill_table i nodes t !! j =
  if decide (i <= j < i + Z.of_nat (length nodes))
  then Address <$> nodes !! Z.to_nat (j - i)
  else t !! j.
Proof.
  revert i t. induction nodes as [|n nodes IH]; intros i t.
  - cbn [fill_table length]. case_decide; [lia|done].
  - cbn [fill_table]. rewrite IH. cbn [length].
    destruct (decide (j = i)) as [->|Hne].
    + rewrite decide_False by lia. rewrite decide_True by lia.
      rewrite lookup_insert_eq. by replace (i - i) with 0 by lia.
    + rewrite lookup_insert_ne by done.
      destruct (decide (i + 1 <= j < i + 1 + Z.of_nat (length nodes))).
      * rewrite decide_True by lia.
        replace (Z.to_nat (j - i)) with (S (Z.to_nat (j - (i + 1)))) by lia.
        done.
      * by rewrite decide_False by lia.
Qed.

(** *** The hash is an unsigned 32-bit number *)

Lemma u32_range (x : Z) : 0 <= u32 x < 2 ^ 32.
Proof. unfold u32. apply Z.mod_pos_bound. lia. Qed.

Lemma lxor_range (a b : Z) :
  0 <= a < 2 ^ 32 -> 0 <= b < 2 ^ 32 -> 0 <= Z.lxor a b < 2 ^ 32.
Proof.
  intros [Ha Ha'] [Hb Hb'].
  assert (Hnn : 0 <= Z.lxor a b) by (by apply Z.lxor_nonneg).
  split; [done|].
  destruct (Z.eq_dec (Z.lxor a b) 0) as [->|Hne]; [lia|].
  apply Z.log2_lt_pow2; [lia|].
  eapply Z.le_lt_trans; [by apply Z.log2_lxor|].
  apply Z.max_lub_lt.
  - destruct (Z.eq_dec a 0) as [->|?]; [done|]. apply Z.log2_lt_pow2; lia.
  - destruct (Z.eq_dec b 0) as [->|?]; [done|]. apply Z.log2_lt_pow2; lia.
Qed.

Lemma shiftr_range (a n : Z) :
  0 <= a < 2 ^ 32 -> 0 <= n -> 0 <= Z.shiftr a n < 2 ^ 32.
Proof.
  intros [Ha Ha'] Hn. rewrite Z.shiftr_div_pow2 by done.
  assert (0 < 2 ^ n) by (by apply Z.pow_pos_nonneg).
  split; [by apply Z.div_pos|].
  eapply Z.le_lt_trans; [|exact Ha'].
  apply Z.div_le_upper_bound; [done|]. nia.
Qed.

Lemma fmix32_range (h : Z) : 0 <= h < 2 ^ 32 -> 0 <= fmix32 h < 2 ^ 32.
Proof.
  intros Hh. unfold fmix32.
  apply lxor_range; [apply u32_range|].
  apply shiftr_range; [apply u32_range|lia].
Qed.

Lemma hash_range (s : string) : 0 <= hash s < 2 ^ 32.
Proof.
  unfold hash, Sum32WithSeed.
  destruct (murmur_blocks 0x1234ABCD (bytes_of_string s)) as [h1 tail].
  unfold fmix32.
  apply lxor_range; [apply u32_range|].
  apply shiftr_range; [apply u32_range|lia].
Qed.

(** *** Routing *)

Lemma sortByNodeId_fields (a0 : vaultAgent) :
  Servers (vaultConfigResponse (sortByNodeId a0)) =
  sort_Slice byNodeId (Servers (vaultConfigResponse a0)) /\
  agentRoutingTable (sortByNodeId a0) =
  fill_table 0 (sort_Slice byNodeId (Servers (vaultConfigResponse a0)))
             (agentRoutingTable a0).
Proof. done. Qed.

(** C7.  After a refresh has published a snapshot of [N >= 1] peers, the
    routing table maps the indices [0..N-1] to the addresses of the peers in
    ascending order of node id, and the owner of a token [T] is the entry at
    index [murmur3_32(T, 0x1234ABCD) mod N].  The owner depends on the
    snapshot, the table and the token alone: two agents that hold the same
    ones compute the same owner. *)
Theorem GetRoutingServer_owner (a0 : vaultAgent) (request : Request) :
  Servers (vaultConfigResponse a0) <> [] ->
  let a := sortByNodeId a0 in
  let table := Servers (vaultConfigResponse a) in
  let N := Z.of_nat (length table) in
  let T := Header_Get (req_Header request) VAULT_TOKEN_HEADER in
  (exists owner,
     table !! Z.to_nat (hash T mod N) = Some owner /\
     GetRoutingServer a request = Ok (Address owner)) /\
  hash T = Sum32WithSeed (bytes_of_string T) 0x1234ABCD /\
  0 <= hash T < 2 ^ 32 /\
  1 <= N /\
  table ≡ₚ Servers (vaultConfigResponse a0) /\
  Sorted (fun x y => String.ltb (NodeId y) (NodeId x) = false) table /\
  (forall i, 0 <= i < N ->
             agentRoutingTable a !! i = Address <$> table !! Z.to_nat i) /\
  (forall a' : vaultAgent,
     vaultConfigResponse a' = vaultConfigResponse a ->
     agentRoutingTable a' = agentRoutingTable a ->
     GetRoutingServer a' request = GetRoutingServer a request).
Proof.
  intros Hne. cbv zeta.
  destruct (sortByNodeId_fields a0) as [Hservers Htable].
  destruct (sort_Slice_byNodeId (Servers (vaultConfigResponse a0)))
    as [Hperm Hsorted].
  rewrite <- Hservers in Hperm, Hsorted.
  set (a := sortByNodeId a0) in *.
  set (table := Servers (vaultConfigResponse a)) in *.
  set (T := Header_Get (req_Header request) VAULT_TOKEN_HEADER).
  assert (HN : 1 <= Z.of_nat (length table)).
  { rewrite Hperm. destruct (Servers (vaultConfigResponse a0)); [done|].
    cbn [length]. lia. }
  pose proof (hash_range T) as Hhash.
  assert (Hlookup : forall i, 0 <= i < Z.of_nat (length table) ->
            agentRoutingTable a !! i = Address <$> table !! Z.to_nat i).
  { intros i Hi. rewrite Htable, fill_table_lookup.
    rewrite <- Hservers. fold table.
    rewrite decide_True by lia. by replace (i - 0) with i by lia. }
  repeat split; try done; try lia.
  - assert (Hidx : 0 <= hash T mod Z.of_nat (length table)
                   < Z.of_nat (length table)) by (apply Z.mod_pos_bound; lia).
    destruct (lookup_lt_is_Some_2 table
                (Z.to_nat (hash T mod Z.of_nat (length table))))
      as [owner Howner]; [lia|].
    exists owner. split; [done|].
    unfold GetRoutingServer. fold table T.
    destruct (Z.eqb_spec (Z.of_nat (length table)) 0) as [?|_]; [lia|].
    rewrite Z.rem_mod_nonneg by lia.
    by rewrite Hlookup, Howner.
  - intros a' Hresp Htab. unfold GetRoutingServer. by rewrite Hresp, Htab.
Qed.

(** The theorem at three peers, listed out of order by the upstream: the
    token [t1] hashes to 375368317, which is 1 modulo 3, and its owner is
    the peer with the second node id. *)
Lemma GetRoutingServer_owner_three_peers :
  Servers (vaultConfigResponse Examples.unsorted_agent) <> [] /\
  exists owner,
    Servers (vaultConfigResponse Examples.settled_agent)
      !! Z.to_nat (hash "t1" mod 3) = Some owner /\
    GetRoutingServer Examples.settled_agent Examples.secret_request =
    Ok (Address owner).
Proof.
  assert (Hne : Servers (vaultConfigResponse Examples.unsorted_agent) <> [])
    by discriminate.
  split; [exact Hne|].
  exact (proj1 (GetRoutingServer_owner Examples.unsorted_agent
                  Examples.secret_request Hne)).
Defined.

Lemma three_peers_owner :
  hash "t1" = 375368317 /\
  GetRoutingServer Examples.settled_agent Examples.secret_request =
  Ok "10.0.0.2:7200".
Proof. split; vm_compute; reflexivity. Qed.

Section Refresh.
Context `{Json}.

Lemma getVaultConfigDetails_not_due (a : vaultAgent) (done : upstream_result)
  (now : Z) :
  now - VAULT_CONFIG_CHECK_FREQUENCY * 1000 <= lastConfigCheck a ->
  getVaultConfigDetails a done now = mkRefresh Returned a [].
Proof.
  intros Hle. unfold getVaultConfigDetails.
  by destruct (Z.gtb_spec (now - VAULT_CONFIG_CHECK_FREQUENCY * 1000)
                          (lastConfigCheck a)); [lia|].
Qed.

(** A refresh that was due and returned has published the snapshot and the
    table of [sortByNodeId], over at least the two mock servers. *)
Lemma getVaultConfigDetails_publishes (a : vaultAgent)
  (done : upstream_result) (now : Z) :
  now - VAULT_CONFIG_CHECK_FREQUENCY * 1000 > lastConfigCheck a ->
  ref_ctl (getVaultConfigDetails a done now) = Returned ->
  exists a0,
    Servers (vaultConfigResponse a0) <> [] /\
    vaultConfigResponse (ref_agent (getVaultConfigDetails a done now)) =
    vaultConfigResponse (sortByNodeId a0) /\
    agentRoutingTable (ref_agent (getVaultConfigDetails a done now)) =
    agentRoutingTable (sortByNodeId a0) /\
    lastConfigCheck (ref_agent (getVaultConfigDetails a done now)) = now.
Proof.
  intros Hdue. unfold getVaultConfigDetails.
  assert (Hgt : (now - VAULT_CONFIG_CHECK_FREQUENCY * 1000 >? lastConfigCheck a)
                = true) by lia.
  rewrite Hgt. destruct done as [[resp|] err]; [|done].
  destruct (json_Unmarshal (body_bytes (resp_Body resp))) as [obj uerr].
  set (a1 := with_response a (addMockServers obj)).
  assert (Hlen : length (Servers (vaultConfigResponse a1)) <> 0%nat).
  { subst a1. cbn. rewrite !length_app. cbn. lia. }
  unfold changePortMapping.
  destruct (changePorts 0 (Servers (vaultConfigResponse a1)))
    as [[servers panic] logs] eqn:Hports.
  destruct panic as [w|]; [done|]. intros _.
  exists (with_response a1 (with_Servers (vaultConfigResponse a1) servers)).
  repeat split; try done.
  cbn [with_response vaultConfigResponse with_Servers Servers].
  intros ->.
  destruct (Servers (vaultConfigResponse a1)) as [|s rest]; [done|].
  cbn [changePorts] in Hports.
  destruct (strings_Split (Address s)) as [|host [|portText more]];
    try (by inversion Hports).
  destruct (strconv_Atoi portText) as [port perr].
  destruct (changePorts (0 + 1) rest) as [[rest' panic'] logs'].
  by inversion Hports.
Qed.

(** C8, where the code departs from it.  On a network error the failure is
    logged, and then [resp.Body] is read through the nil response: the
    refresh panics.  On a body that is not JSON the error of the decoder is
    dropped: nothing is logged, the snapshot is replaced by the two mock
    servers alone, the entries 0 and 1 of the routing table are written
    over, and the time of the last check moves to [now]. *)
Theorem getVaultConfigDetails_on_failure (a : vaultAgent) (now : Z) :
  now - VAULT_CONFIG_CHECK_FREQUENCY * 1000 > lastConfigCheck a ->
  (forall e : string,
     getVaultConfigDetails a (None, Some e) now =
     mkRefresh (Panicked nil_dereference) a [e]) /\
  (forall (resp : Response) (e : string),
     body_fails (resp_Body resp) = false ->
     json_Unmarshal (body_bytes (resp_Body resp)) =
     (zero_VaultConfigResponse, Some e) ->
     getVaultConfigDetails a (Some resp, None) now =
     mkRefresh Returned
       (mkVaultAgent
          (with_Servers zero_VaultConfigResponse
             [mkServer "127.0.0.1:8001" false "raft2" ETX true;
              mkServer "127.0.0.1:8002" false "raft3" ETX true])
          (<[1 := "127.0.0.1:8002"]>
             (<[0 := "127.0.0.1:8001"]> (agentRoutingTable a)))
          now (myAddress a))
       []).
Proof.
  intros Hdue.
  assert (Hgt : (now - VAULT_CONFIG_CHECK_FREQUENCY * 1000 >? lastConfigCheck a)
                = true) by lia.
  split.
  - intros e. unfold getVaultConfigDetails. by rewrite Hgt.
  - intros resp e Hbody Hjson. unfold getVaultConfigDetails.
    rewrite Hgt, Hjson, Hbody. reflexivity.
Qed.

End Refresh.

(** The theorem at an agent that holds three peers and receives an HTML
    page from the upstream: the three peers are gone from the snapshot. *)
Lemma getVaultConfigDetails_on_failure_html :
  60000 - VAULT_CONFIG_CHECK_FREQUENCY * 1000
  > lastConfigCheck Examples.settled_agent /\
  NodeId <$> Servers (vaultConfigResponse
    (ref_agent (@getVaultConfigDetails Examples.no_Json Examples.settled_agent
                  (Some Examples.html_response, None) 60000)))
  = ["raft2"; "raft3"].
Proof.
  assert (Hdue : 60000 - VAULT_CONFIG_CHECK_FREQUENCY * 1000
                 > lastConfigCheck Examples.settled_agent) by reflexivity.
  split; [exact Hdue|].
  rewrite (proj2 (@getVaultConfigDetails_on_failure Examples.no_Json
                    Examples.settled_agent 60000 Hdue)
                 Examples.html_response "invalid character"
                 eq_refl eq_refl).
  reflexivity.
Defined.

End AgentFacts.

(** ** vaultProxy.go *)

Module ProxyFacts.
Import Config ParseHeader Cache Proxy.

Section Serve.
Context `{Digest}.

Lemma setInCache_response (order : list string) (c : vaultCache)
  (key : string) (r : Response) (now : Z) :
  (setInCache order c key r now).2 =
  mkResponse (StatusCode r) (resp_Header r)
             (NewReader (body_bytes (resp_Body r))).
Proof. done. Qed.

(** What reaches the client when the response is not nil. *)
Lemma surface_response (c : vaultCache) (writer : ResponseWriter)
  (r : Response) :
  surface c writer (Some r) =
  (if body_fails (resp_Body r)
   then Exited "Error copying response from cache." else Returned,
   c,
   Write (WriteHeader
            (with_Header writer (copyHeaders (w_Header writer) (resp_Header r)))
            (StatusCode r))
         (body_bytes (resp_Body r))).
Proof. done. Qed.

Lemma Write_status (w : ResponseWriter) (data : string) :
  w_status (Write w data) = Some (default 200 (w_status w)) /\
  w_sent (Write w data) =
  match w_status w with Some _ => w_sent w | None => w_Header w end /\
  w_body (Write w data) = w_body w +:+ data.
Proof. destruct w as [h [s|] sent b]; by cbn. Qed.

Lemma WriteHeader_fields (w : ResponseWriter) (code : Z) :
  w_status (WriteHeader w code) = Some (default code (w_status w)) /\
  w_sent (WriteHeader w code) =
  match w_status w with Some _ => w_sent w | None => w_Header w end /\
  w_body (WriteHeader w code) = w_body w.
Proof. destruct w as [h [s|] sent b]; by cbn. Qed.

Lemma http_Error_fields (w : ResponseWriter) (msg : string) (code : Z) :
  w_status (http_Error w msg code) = Some (default code (w_status w)) /\
  w_body (http_Error w msg code) = w_body w +:+ msg +:+ LF.
Proof.
  unfold http_Error.
  generalize (Header_Set
                (Header_Set (Header_Del (w_Header w) "Content-Length")
                   "Content-Type" "text/plain; charset=utf-8")
                "X-Content-Type-Options" "nosniff").
  intros h.
  destruct (Write_status (WriteHeader (with_Header w h) code) (msg +:+ LF))
    as (Hs & _ & Hb).
  destruct (WriteHeader_fields (with_Header w h) code) as (Hs' & _ & Hb').
  rewrite Hs, Hb, Hs', Hb'. cbn [with_Header w_status w_body].
  by destruct (w_status w).
Qed.

Lemma written_fresh (writer : ResponseWriter) (r : Response) :
  w_status writer = None ->
  let w := Write (WriteHeader
                    (with_Header writer
                       (copyHeaders (w_Header writer) (resp_Header r)))
                    (StatusCode r))
                 (body_bytes (resp_Body r)) in
  w_status w = Some (StatusCode r) /\
  w_sent w = copyHeaders (w_Header writer) (resp_Header r) /\
  w_body w = w_body writer +:+ body_bytes (resp_Body r).
Proof.
  intros Hfresh. cbv zeta.
  set (w1 := with_Header writer
               (copyHeaders (w_Header writer) (resp_Header r))).
  destruct (Write_status (WriteHeader w1 (StatusCode r))
                         (body_bytes (resp_Body r))) as (Hs & Hsent & Hb).
  destruct (WriteHeader_fields w1 (StatusCode r)) as (Hs' & Hsent' & Hb').
  rewrite Hs, Hsent, Hb, Hs', Hsent', Hb'.
  subst w1. cbn [with_Header w_status w_body w_Header w_sent].
  by rewrite Hfresh.
Qed.

Lemma written_after_error (writer : ResponseWriter) (r : Response) :
  w_status writer = None ->
  let w0 := http_Error writer "Internal Server Error" 500 in
  let w := Write (WriteHeader
                    (with_Header w0 (copyHeaders (w_Header w0) (resp_Header r)))
                    (StatusCode r))
                 (body_bytes (resp_Body r)) in
  w_status w = Some 500 /\
  w_body w =
  (w_body writer +:+ "Internal Server Error" +:+ LF) +:+
  body_bytes (resp_Body r).
Proof.
  intros Hfresh. cbv zeta.
  destruct (http_Error_fields writer "Internal Server Error" 500)
    as (Hs0 & Hb0).
  rewrite Hfresh in Hs0. cbn [default] in Hs0.
  generalize dependent (http_Error writer "Internal Server Error" 500).
  intros w0 Hs0 Hb0.
  set (w1 := with_Header w0 (copyHeaders (w_Header w0) (resp_Header r))).
  destruct (Write_status (WriteHeader w1 (StatusCode r))
                         (body_bytes (resp_Body r))) as (Hs & _ & Hb).
  destruct (WriteHeader_fields w1 (StatusCode r)) as (Hs' & _ & Hb').
  rewrite Hs, Hb, Hs', Hb'.
  subst w1. cbn [with_Header w_status w_body].
  by rewrite Hs0, Hb0.
Qed.

(** The response the stage surfaces when the upstream call returned one:
    the response itself, or, for a cacheable read with status 200, the same
    status and header over the captured body. *)
Lemma ServeHTTP_response (order : list string) (now : Z) (c : vaultCache)
  (writer : ResponseWriter) (request : Request) (ctx : parseHeader)
  (r : Response) (err : option string) :
  exists r' c',
    ServeHTTP order (Some r, err) now c writer request ctx =
    surface c' (report writer err) (Some r') /\
    StatusCode r' = StatusCode r /\ resp_Header r' = resp_Header r /\
    body_bytes (resp_Body r') = body_bytes (resp_Body r) /\
    (body_fails (resp_Body r) = false -> body_fails (resp_Body r') = false).
Proof.
  unfold ServeHTTP.
  destruct (isPathCacheable ctx && negb (isRequestIgnorable ctx)).
  - rewrite CacheFacts.refreshCache_response.
    destruct (StatusCode r =? 200).
    + rewrite setInCache_response. by do 2 eexists.
    + by exists r, c.
  - by exists r, c.
Qed.

(** C9, as the code has it.  Nothing has been written to the client when
    the stage starts.  When the upstream call returns a response whose body
    can be read to its end and no error, the stage returns and the client
    receives that response as it is: its status, 5xx included, its header
    and its body, whether or not the request is a cacheable read.  The
    status the stage writes of its own, 500, is what the client receives
    when the upstream call returned an error beside such a response. *)
Theorem ServeHTTP_verbatim (order : list string) (now : Z) (c : vaultCache)
  (writer : ResponseWriter) (request : Request) (ctx : parseHeader)
  (r : Response) :
  w_status writer = None ->
  body_fails (resp_Body r) = false ->
  (let w := (ServeHTTP order (Some r, None) now c writer request ctx).2 in
   (ServeHTTP order (Some r, None) now c writer request ctx).1.1 = Returned /\
   w_status w = Some (StatusCode r) /\
   w_sent w = copyHeaders (w_Header writer) (resp_Header r) /\
   w_body w = w_body writer +:+ body_bytes (resp_Body r)) /\
  (forall e : string,
     w_status (ServeHTTP order (Some r, Some e) now c writer request ctx).2 =
     Some StatusInternalServerError).
Proof.
  intros Hfresh Hbody. split.
  - destruct (ServeHTTP_response order now c writer request ctx r None)
      as (r' & c' & -> & Hs & Hh & Hb & Hf).
    rewrite surface_response. cbn [fst snd report].
    rewrite (Hf Hbody).
    destruct (written_fresh writer r' Hfresh) as (Hst & Hsent & Hbytes).
    by rewrite Hst, Hsent, Hbytes, Hs, Hh, Hb.
  - intros e.
    destruct (ServeHTTP_response order now c writer request ctx r (Some e))
      as (r' & c' & -> & Hs & Hh & Hb & Hf).
    rewrite surface_response. cbn [fst snd report].
    destruct (written_after_error writer r' Hfresh) as (Hst & _).
    unfold StatusInternalServerError. by rewrite Hst.
Qed.

End Serve.

(** The theorem at a cacheable read that the upstream answers with 503. *)
Lemma ServeHTTP_verbatim_503 :
  (w_status new_writer = None /\
   body_fails (resp_Body Examples.unavailable_response) = false) /\
  w_status
    (@ServeHTTP Examples.plain_Digest [] (Some Examples.unavailable_response, None)
       2000 Examples.one_entry_cache new_writer Examples.secret_request
       Examples.secret_ctx).2 = Some 503.
Proof.
  split; [split; reflexivity|].
  exact (proj1 (proj2 (proj1
    (@ServeHTTP_verbatim Examples.plain_Digest [] 2000 Examples.one_entry_cache
       new_writer Examples.secret_request Examples.secret_ctx
       Examples.unavailable_response eq_refl eq_refl)))).
Defined.

(** C9 as stated fails: whatever the digest, a cacheable read that the
    upstream answers with 503 is answered with 503, not with the 500 of the
    stage. *)
Lemma ServeHTTP_5xx_not_500 :
  ~ exists D : Digest,
      forall (order : list string) (now : Z) (c : vaultCache)
             (request : Request) (ctx : parseHeader) (r : Response),
        isPathCacheable ctx = true -> isRequestIgnorable ctx = false ->
        500 <= StatusCode r <= 599 ->
        w_status
          (ServeHTTP order (Some r, None) now c new_writer request ctx).2 =
        Some StatusInternalServerError.
Proof.
  intros [D Hclaim].
  specialize (Hclaim [] 2000 Examples.one_entry_cache Examples.secret_request
                (mkParseHeader "k" "l" true false)
                Examples.unavailable_response eq_refl eq_refl).
  assert (Hr : 500 <= StatusCode Examples.unavailable_response <= 599)
    by (cbn; lia).
  specialize (Hclaim Hr).
  destruct (@ServeHTTP_response D [] 2000 Examples.one_entry_cache new_writer
              Examples.secret_request (mkParseHeader "k" "l" true false)
              Examples.unavailable_response None)
    as (r' & c' & E & Hs & _).
  rewrite E, surface_response in Hclaim. cbn in Hclaim. rewrite Hs in Hclaim.
  cbn in Hclaim. discriminate.
Qed.

(** The failure of the upstream call itself: the response is nil, and the
    stage panics, before the 500 on a cacheable read and after it
    otherwise. *)
Lemma ServeHTTP_nil_response `{Digest} (order : list string) (now : Z)
  (c : vaultCache) (writer : ResponseWriter) (request : Request)
  (ctx : parseHeader) (e : string) :
  ServeHTTP order (None, Some e) now c writer request ctx =
  if isPathCacheable ctx && negb (isRequestIgnorable ctx)
  then (Panicked nil_dereference, c, writer)
  else (Panicked nil_dereference, c,
        http_Error writer "Internal Server Error" StatusInternalServerError).
Proof.
  unfold ServeHTTP.
  by destruct (isPathCacheable ctx && negb (isRequestIgnorable ctx)).
Qed.

End ProxyFacts.

(** ** More on vaultCache.go and parseHeader.go *)

Module CacheMore.
Import Config ParseHeader Cache.

Lemma append_assoc (a b c : string) : (a +:+ b) +:+ c = a +:+ (b +:+ c).
Proof.
  induction a as [|x a IH]; [done|].
  change (String x ((a +:+ b) +:+ c) = String x (a +:+ (b +:+ c))).
  by rewrite IH.
Qed.

(** [checkPathCacheable] holds exactly of the paths that contain the
    configured subpath somewhere: the test is not anchored at the start of
    the path. *)
Theorem checkPathCacheable_substring (path : string) :
  checkPathCacheable path = true <->
  exists pre post, path = pre +:+ "/v1/secret/data" +:+ post.
Proof.
  unfold checkPathCacheable. cbn [CACHEABLE_SUBPATHS existsb].
  rewrite orb_false_r. apply ParseHeaderFacts.strings_Contains_spec.
Qed.

Section Requests.
Context `{Digest}.

(** The fingerprint joins token, path and namespace with dashes and does
    not escape them: moving a dash-separated suffix of the path into the
    namespace gives the same key, whatever the digest, so the two requests
    share one cache entry. *)
Theorem cache_key_dash_collision (method token path suffix namespace : string)
  (order : list string) (c : vaultCache) (r : Response) (now : Z) :
  let request1 :=
    mkRequest method (path +:+ "-" +:+ suffix)
              [(VAULT_TOKEN_HEADER, token);
               (VAULT_NAMESPACE_HEADER, namespace)] in
  let request2 :=
    mkRequest method path
              [(VAULT_TOKEN_HEADER, token);
               (VAULT_NAMESPACE_HEADER, suffix +:+ "-" +:+ namespace)] in
  getMD5HashedCacheKey request1 = getMD5HashedCacheKey request2 /\
  (getCachedResponse
     (setInCache order c (getMD5HashedCacheKey request1) r now).1
     request2 now).1 =
  Some (mkResponse (StatusCode r) (resp_Header r)
                   (NewReader (body_bytes (resp_Body r)))).
Proof.
  cbv zeta.
  assert (Hkey :
    getMD5HashedCacheKey
      (mkRequest method (path +:+ "-" +:+ suffix)
         [(VAULT_TOKEN_HEADER, token); (VAULT_NAMESPACE_HEADER, namespace)]) =
    getMD5HashedCacheKey
      (mkRequest method path
         [(VAULT_TOKEN_HEADER, token);
          (VAULT_NAMESPACE_HEADER, suffix +:+ "-" +:+ namespace)])).
  { unfold getMD5HashedCacheKey, parseVaultRequest.
    cbn [req_Header URL_Path Header_Get].
    change (VAULT_TOKEN_HEADER =? VAULT_TOKEN_HEADER)%string with true.
    change (VAULT_TOKEN_HEADER =? VAULT_NAMESPACE_HEADER)%string with false.
    change (VAULT_NAMESPACE_HEADER =? VAULT_NAMESPACE_HEADER)%string with true.
    cbn iota. f_equal. f_equal. f_equal.
    by rewrite !append_assoc. }
  split; [done|].
  rewrite CacheFacts.getCachedResponse_response, <- Hkey.
  rewrite CacheFacts.setInCache_entry.
  unfold isExpired. cbn [expires].
  destruct (Z.gtb_spec now (now + VAULT_CACHE_DEFAULT_EXPIRATION * 1000));
    [unfold VAULT_CACHE_DEFAULT_EXPIRATION in *; lia|done].
Qed.

(** Invalidation: removing a key twice is removing it once; a lookup for
    the removed key misses; the other keys are not touched; removing a key
    that is not there changes nothing. *)
Theorem removeFromCache_barrier (c : vaultCache) (request : Request)
  (now : Z) :
  let key := getMD5HashedCacheKey request in
  removeFromCache (removeFromCache c key) key = removeFromCache c key /\
  (getCachedResponse (removeFromCache c key) request now).1 = None /\
  (forall k, k <> key ->
             cache (removeFromCache c key) !! k = cache c !! k) /\
  (cache c !! key = None -> removeFromCache c key = c).
Proof.
  cbv zeta. unfold removeFromCache. cbn [cache lastCachePurge].
  split; [by rewrite delete_delete_eq|].
  split.
  { rewrite CacheFacts.getCachedResponse_response. cbn [cache].
    by rewrite lookup_delete_eq. }
  split.
  { intros k Hne. by apply lookup_delete_ne. }
  intros Hnone. rewrite delete_id by done. by destruct c.
Qed.

(** The entries of the cache after a lookup. *)
Lemma getCachedResponse_cache (c : vaultCache) (request : Request) (now : Z)
  (k : string) :
  cache (getCachedResponse c request now).2 !! k =
  match cache (purgeOldCacheEntries c now) !! k with
  | Some e =>
      if decide (k = getMD5HashedCacheKey request)
      then if isExpired e now then Some e
           else Some (mkCachedResponse (response e) (bodyData e)
                                       (expires e) now)
      else Some e
  | None => None
  end.
Proof.
  unfold getCachedResponse, getFromCache.
  set (key := getMD5HashedCacheKey request).
  set (c1 := purgeOldCacheEntries c now).
  destruct (decide (k = key)) as [->|Hne].
  - destruct (cache c1 !! key) as [e|] eqn:E; [|exact E].
    destruct (isExpired e now); cbn [negb snd cache]; [exact E|].
    apply lookup_insert_eq.
  - assert (Hk : match cache c1 !! k with
                 | Some e0 => Some e0
                 | None => None
                 end = cache c1 !! k) by (by destruct (cache c1 !! k)).
    rewrite Hk.
    destruct (cache c1 !! key) as [e|] eqn:E; [|done].
    destruct (isExpired e now); cbn [negb snd cache]; [done|].
    by rewrite lookup_insert_ne.
Qed.

Lemma getCachedResponse_lastCachePurge (c : vaultCache) (request : Request)
  (now : Z) :
  lastCachePurge (getCachedResponse c request now).2 =
  lastCachePurge (purgeOldCacheEntries c now).
Proof.
  unfold getCachedResponse, getFromCache.
  destruct (cache (purgeOldCacheEntries c now) !! getMD5HashedCacheKey request)
    as [e|]; [|done].
  by destruct (isExpired e now).
Qed.

(** Insertion round trip.  A response stored at [now] is found by every
    lookup up to [now] plus the expiration, again and again, with the status
    and the header of the response and its body as captured, and each hit
    moves [lastUsed] to the instant of the lookup; after that the lookup
    misses. *)
Theorem setInCache_round_trip (order : list string) (c : vaultCache)
  (request : Request) (r : Response) (now now1 : Z) :
  now1 <= now + VAULT_CACHE_DEFAULT_EXPIRATION * 1000 ->
  let key := getMD5HashedCacheKey request in
  let stored :=
    mkResponse (StatusCode r) (resp_Header r)
               (NewReader (body_bytes (resp_Body r))) in
  let c1 := (setInCache order c key r now).1 in
  let c2 := (getCachedResponse c1 request now1).2 in
  (getCachedResponse c1 request now1).1 = Some stored /\
  lastUsed <$> cache c2 !! key = Some now1 /\
  (forall now2,
     now2 <= now + VAULT_CACHE_DEFAULT_EXPIRATION * 1000 ->
     (getCachedResponse c2 request now2).1 = Some stored) /\
  (forall now2,
     now2 > now + VAULT_CACHE_DEFAULT_EXPIRATION * 1000 ->
     (getCachedResponse c2 request now2).1 = None).
Proof.
  intros Hfresh. cbv zeta.
  set (key := getMD5HashedCacheKey request).
  set (c1 := (setInCache order c key r now).1).
  pose proof (CacheFacts.setInCache_entry order c key r now) as Hentry.
  fold c1 in Hentry.
  assert (Hlive : forall t e, expires e = now + VAULT_CACHE_DEFAULT_EXPIRATION * 1000 ->
            t <= now + VAULT_CACHE_DEFAULT_EXPIRATION * 1000 ->
            isExpired e t = false).
  { intros t e He Ht. unfold isExpired. rewrite He. lia. }
  assert (Htouch :
    cache (getCachedResponse c1 request now1).2 !! key =
    Some (mkCachedResponse
            (mkResponse (StatusCode r) (resp_Header r)
                        (NewReader (body_bytes (resp_Body r))))
            (body_bytes (resp_Body r))
            (now + VAULT_CACHE_DEFAULT_EXPIRATION * 1000) now1)).
  { refine (CacheFacts.getCachedResponse_touch c1 request now1 _ Hentry _).
    by apply Hlive. }
  split.
  { rewrite CacheFacts.getCachedResponse_response. fold key.
    rewrite Hentry. by rewrite Hlive. }
  split; [by rewrite Htouch|].
  split.
  - intros now2 Hnow2. rewrite CacheFacts.getCachedResponse_response.
    fold key. rewrite Htouch. by rewrite Hlive.
  - intros now2 Hnow2. rewrite CacheFacts.getCachedResponse_response.
    fold key. rewrite Htouch. unfold isExpired. cbn [expires].
    by destruct (Z.gtb_spec now2 (now + VAULT_CACHE_DEFAULT_EXPIRATION * 1000));
      [|lia].
Qed.

(** The sweep of expired entries.  The first lookup that comes more than
    the purge frequency after the last sweep leaves no expired entry in the
    cache and records the instant; it keeps every entry that has not
    expired, changing only [lastUsed] of the entry it hits.  A lookup that
    comes sooner removes nothing. *)
Theorem getCachedResponse_sweeps (c : vaultCache) (request : Request)
  (now : Z) :
  let c' := (getCachedResponse c request now).2 in
  let key := getMD5HashedCacheKey request in
  (now - VAULT_CACHE_PURGE_FREQUENCY * 1000 > lastCachePurge c ->
   lastCachePurge c' = now /\
   forall k e, cache c' !! k = Some e -> isExpired e now = false) /\
  (now - VAULT_CACHE_PURGE_FREQUENCY * 1000 <= lastCachePurge c ->
   lastCachePurge c' = lastCachePurge c /\
   forall k, is_Some (cache c' !! k) <-> is_Some (cache c !! k)) /\
  (forall k e,
     k <> key -> cache c !! k = Some e -> isExpired e now = false ->
     cache c' !! k = Some e).
Proof.
  cbv zeta. split; [|split].
  - intros Hdue.
    assert (Hgt : (now - VAULT_CACHE_PURGE_FREQUENCY * 1000 >? lastCachePurge c)
                  = true) by lia.
    split.
    + rewrite getCachedResponse_lastCachePurge. unfold purgeOldCacheEntries.
      by rewrite Hgt.
    + intros k e. rewrite getCachedResponse_cache.
      rewrite CacheFacts.purgeOldCacheEntries_lookup, Hgt. cbn [andb].
      destruct (cache c !! k) as [e0|]; [|done].
      destruct (isExpired e0 now) eqn:E0; [done|].
      case_decide; rewrite ?E0; by intros [= <-].
  - intros Hnot.
    assert (Hgt : (now - VAULT_CACHE_PURGE_FREQUENCY * 1000 >? lastCachePurge c)
                  = false) by lia.
    split.
    + rewrite getCachedResponse_lastCachePurge. unfold purgeOldCacheEntries.
      by rewrite Hgt.
    + intros k. rewrite getCachedResponse_cache.
      rewrite CacheFacts.purgeOldCacheEntries_lookup, Hgt. cbn [andb].
      destruct (cache c !! k) as [e0|]; [|done].
      case_decide; [destruct (isExpired e0 now)|]; split; by eexists.
  - intros k e Hne He Hlive. rewrite getCachedResponse_cache.
    rewrite CacheFacts.purgeOldCacheEntries_lookup, He, Hlive, andb_false_r.
    by rewrite decide_False.
Qed.

(** The cache stays within [CACHE_SIZE]: a cache that holds at most that
    many entries still does after an insertion, a lookup or an
    invalidation. *)
Theorem cache_capacity_invariant (order : list string) (c : vaultCache) :
  (size (cache c) <= CACHE_SIZE)%nat ->
  order ≡ₚ keys_of (cache c) ->
  (forall key r now,
     (size (cache (setInCache order c key r now).1) <= CACHE_SIZE)%nat) /\
  (forall request now,
     (size (cache (getCachedResponse c request now).2) <= CACHE_SIZE)%nat) /\
  (forall key, (size (cache (removeFromCache c key)) <= CACHE_SIZE)%nat).
Proof.
  intros Hsize Hp. split; [|split].
  - intros key r now. unfold setInCache, newCachedResponse, purgeLruCacheEntries.
    cbn [fst cache].
    apply purgeLru_insert_bound; [done|unfold CACHE_SIZE; lia|done].
  - intros request now.
    assert (Hpurged : (size (cache (purgeOldCacheEntries c now))
                       <= size (cache c))%nat).
    { unfold purgeOldCacheEntries.
      destruct (now - VAULT_CACHE_PURGE_FREQUENCY * 1000 >? lastCachePurge c);
        [|done].
      cbn [cache]. apply map_size_filter. }
    unfold getCachedResponse, getFromCache.
    destruct (cache (purgeOldCacheEntries c now) !! getMD5HashedCacheKey request)
      as [e|] eqn:E; [|cbn [snd]; lia].
    destruct (isExpired e now); cbn [negb snd cache]; [lia|].
    rewrite map_size_insert_Some by (by eexists). lia.
  - intros key. unfold removeFromCache. cbn [cache].
    rewrite map_size_delete. destruct (cache c !! key); simpl; lia.
Qed.

(** A hit protects the entry: when the lookup is later than the last use
    of every other entry, the entry it hits outlives the next insertion
    under another key. *)
Theorem hit_survives_next_insert (c : vaultCache) (request : Request)
  (now : Z) (e : cachedResponse) (order : list string) (key' : string)
  (r : Response) (now' : Z) :
  let key := getMD5HashedCacheKey request in
  let c1 := (getCachedResponse c request now).2 in
  cache c !! key = Some e -> now <= expires e ->
  (forall k e', k <> key -> cache c !! k = Some e' -> lastUsed e' < now) ->
  key' <> key ->
  order ≡ₚ keys_of (cache c1) ->
  bodyData <$> cache (setInCache order c1 key' r now').1 !! key =
  Some (bodyData e).
Proof.
  cbv zeta. intros He Hlive Hold Hne Hp.
  set (key := getMD5HashedCacheKey request) in *.
  set (c1 := (getCachedResponse c request now).2) in *.
  assert (Hx : isExpired e now = false) by (unfold isExpired; lia).
  pose proof (CacheFacts.getCachedResponse_touch c request now e He Hx)
    as Htouch. fold key c1 in Htouch.
  unfold setInCache, newCachedResponse, purgeLruCacheEntries.
  cbn [fst cache]. rewrite lookup_insert_ne by done.
  assert (Hkeep : purgeLru lastUsed CACHE_SIZE order (cache c1) !! key
                  = cache c1 !! key).
  { destruct (Nat.le_gt_cases 2 (size (cache c1))) as [Hbig|Hsmall].
    - apply purgeLru_keeps_newest; [done|done|].
      intros k [e' He'] Hk. unfold lastUsed_of. rewrite Htouch, He'.
      cbn [lastUsed].
      subst c1. rewrite getCachedResponse_cache in He'.
      rewrite CacheFacts.purgeOldCacheEntries_lookup in He'.
      destruct (cache c !! k) as [e0|] eqn:E0; [|done].
      destruct ((now - VAULT_CACHE_PURGE_FREQUENCY * 1000 >? lastCachePurge c)
                && isExpired e0 now); [done|].
      rewrite decide_False in He' by done. injection He' as <-.
      by apply (Hold k).
    - by rewrite purgeLru_not_full. }
  by rewrite Hkeep, Htouch.
Qed.

End Requests.

(** The round trip at a response stored at instant 1000 in an empty cache
    and looked up a second later. *)
Lemma setInCache_round_trip_fresh :
  2000 <= 1000 + VAULT_CACHE_DEFAULT_EXPIRATION * 1000 /\
  (@getCachedResponse Examples.plain_Digest
     (@setInCache [] (NewVaultCache 0)
        (@getMD5HashedCacheKey Examples.plain_Digest Examples.secret_request)
        Examples.ok_response 1000).1
     Examples.secret_request 2000).1 =
  Some (mkResponse 200 [("Content-Type", "application/json")]
                   (NewReader "{k:v}")).
Proof.
  assert (Hfresh : 2000 <= 1000 + VAULT_CACHE_DEFAULT_EXPIRATION * 1000)
    by (vm_compute; discriminate).
  split; [exact Hfresh|].
  exact (proj1 (@setInCache_round_trip Examples.plain_Digest []
                  (NewVaultCache 0) Examples.secret_request
                  Examples.ok_response 1000 2000 Hfresh)).
Defined.

(** The invariant at the full cache of scenario 6. *)
Lemma cache_capacity_invariant_full :
  ((size (cache Examples.two_entry_cache) <= CACHE_SIZE)%nat /\
   ["k1"; "k2"] ≡ₚ keys_of (cache Examples.two_entry_cache)) /\
  forall key r now,
    (size (cache (setInCache ["k1"; "k2"] Examples.two_entry_cache
                             key r now).1) <= CACHE_SIZE)%nat.
Proof.
  assert (Hs : (size (cache Examples.two_entry_cache) <= CACHE_SIZE)%nat)
    by (vm_compute; lia).
  assert (Hp : ["k1"; "k2"] ≡ₚ keys_of (cache Examples.two_entry_cache))
    by (apply (bool_decide_unpack _); vm_compute; exact I).
  split; [exact (conj Hs Hp)|].
  exact (proj1 (@cache_capacity_invariant Examples.plain_Digest
                  ["k1"; "k2"] Examples.two_entry_cache Hs Hp)).
Defined.

(** A secret read at instant 6000 beside an entry idle since instant 20:
    storing a third response evicts the idle entry and keeps the secret. *)
Lemma hit_survives_next_insert_secret :
  (cache MoreExamples.read_and_idle_cache !! Examples.secret_key =
   Some (Examples.entry_used 5000) /\
   6000 <= expires (Examples.entry_used 5000) /\
   (forall k e', k <> Examples.secret_key ->
      cache MoreExamples.read_and_idle_cache !! k = Some e' ->
      lastUsed e' < 6000) /\
   "k3" <> Examples.secret_key /\
   ["idle"; Examples.secret_key] ≡ₚ
   keys_of (cache (@getCachedResponse Examples.plain_Digest
                     MoreExamples.read_and_idle_cache
                     Examples.secret_request 6000).2)) /\
  bodyData <$>
    cache (setInCache ["idle"; Examples.secret_key]
             (@getCachedResponse Examples.plain_Digest
                MoreExamples.read_and_idle_cache
                Examples.secret_request 6000).2
             "k3" Examples.ok_response 7000).1 !! Examples.secret_key =
  Some "{k:v}".
Proof.
  assert (H1 : cache MoreExamples.read_and_idle_cache !! Examples.secret_key =
               Some (Examples.entry_used 5000))
    by (vm_compute; reflexivity).
  assert (H2 : 6000 <= expires (Examples.entry_used 5000))
    by (vm_compute; discriminate).
  assert (H3 : forall k e', k <> Examples.secret_key ->
            cache MoreExamples.read_and_idle_cache !! k = Some e' ->
            lastUsed e' < 6000).
  { intros k e' Hk. unfold MoreExamples.read_and_idle_cache. cbn [cache].
    rewrite lookup_insert_ne by done.
    destruct (decide (k = "idle")) as [->|Hi].
    - rewrite lookup_insert_eq. intros [= <-]. reflexivity.
    - rewrite lookup_insert_ne by done. by rewrite lookup_empty. }
  assert (H4 : "k3" <> Examples.secret_key) by discriminate.
  assert (H5 : ["idle"; Examples.secret_key] ≡ₚ
               keys_of (cache (@getCachedResponse Examples.plain_Digest
                                 MoreExamples.read_and_idle_cache
                                 Examples.secret_request 6000).2))
    by (apply (bool_decide_unpack _); vm_compute; exact I).
  split; [exact (conj H1 (conj H2 (conj H3 (conj H4 H5))))|].
  exact (@hit_survives_next_insert Examples.plain_Digest
           MoreExamples.read_and_idle_cache Examples.secret_request 6000
           (Examples.entry_used 5000) ["idle"; Examples.secret_key] "k3"
           Examples.ok_response 7000 H1 H2 H3 H4 H5).
Defined.

End CacheMore.

(** ** rateLimiter.go: visitors and their buckets *)

Module LimiterMore.
Import Config ParseHeader Cache Limiter.

Lemma Inf_large : (inject_Z (10 ^ 9) < Inf)%Q.
Proof. unfold Inf. rewrite <- Zlt_Qlt. reflexivity. Qed.

Lemma Qeq_bool_false (x y : Q) : ~ (x == y)%Q -> Qeq_bool x y = false.
Proof.
  intros Hne. destruct (Qeq_bool x y) eqn:E; [|done].
  by apply Qeq_bool_iff in E.
Qed.

(** The rate of one event per [interval] nanoseconds, for a positive
    interval, is neither zero nor the library's infinite rate. *)
Lemma rate_Every_finite (interval : Z) :
  0 < interval ->
  rate_Every interval = (inject_Z (10 ^ 9) / inject_Z interval)%Q /\
  Qeq_bool (rate_Every interval) Inf = false /\
  Qeq_bool (rate_Every interval) 0 = false.
Proof.
  intros Hpos. unfold rate_Every.
  destruct (Z.leb_spec interval 0) as [?|_]; [lia|].
  split; [done|].
  destruct interval as [|p|p]; try lia.
  assert (Hle : (inject_Z (10 ^ 9) / inject_Z (Z.pos p) <= inject_Z (10 ^ 9))%Q).
  { unfold Qle, Qdiv, Qmult, Qinv. simpl. lia. }
  split; apply Qeq_bool_false; intros E.
  - rewrite E in Hle. apply (Qlt_not_le _ _ Inf_large Hle).
  - revert E. unfold Qeq, Qdiv, Qmult, Qinv. simpl. lia.
Qed.

(** The tokens of a bucket never exceed its size, and never exceed what
    the elapsed time has added. *)
Lemma advance_bounds (lim : rate_Limiter) (now : Z) :
  let elapsed : Q :=
    match last lim with
    | None => maxDuration_seconds
    | Some t => if now <? t then 0%Q else (inject_Z (now - t) / inject_Z 1000)%Q
    end in
  (advance lim now <= inject_Z (burst lim))%Q /\
  (advance lim now <= tokens lim + elapsed * limit lim)%Q /\
  forall q : Q, (q <= inject_Z (burst lim))%Q ->
                (q <= tokens lim + elapsed * limit lim)%Q ->
                (q <= advance lim now)%Q.
Proof.
  cbv zeta. unfold advance.
  set (t := (tokens lim + _ * limit lim)%Q).
  destruct (Limit_ltb (inject_Z (burst lim)) t) eqn:E.
  - apply MultiFacts.Limit_ltb_true in E. repeat split; [lra|lra|done].
  - apply MultiFacts.Limit_ltb_false in E. repeat split; [lra|lra|done].
Qed.

(** A bucket of a finite rate lets a request through exactly when it has
    room for a token and holds one. *)
Lemma rate_Allow_finite (lim : rate_Limiter) (now : Z) :
  Qeq_bool (limit lim) Inf = false -> Qeq_bool (limit lim) 0 = false ->
  (rate_Allow lim now).1 = true <->
  1 <= burst lim /\ (1 <= advance lim now)%Q.
Proof.
  intros Hinf Hzero. unfold rate_Allow. rewrite Hinf, Hzero.
  destruct (Z.leb_spec 1 (burst lim)) as [Hb|Hb]; cbn [andb].
  - destruct (Qle_bool 0 (advance lim now - 1)) eqn:E; cbn [fst].
    + apply Qle_bool_iff in E. split; [|done]. intros _. split; [done|lra].
    + split; [done|]. intros [_ Hq].
      assert (Hq' : (0 <= advance lim now - 1)%Q) by lra.
      apply Qle_bool_iff in Hq'. congruence.
  - cbn [fst]. split; [done|]. lia.
Qed.

(** A bucket that has never been used is full: whatever the instant, it
    lets the first request through. *)
Lemma fresh_bucket_allows (interval b now : Z) :
  interval <= 2 ^ 63 - 1 -> 1 <= b ->
  (rate_Allow (NewLimiter (rate_Every interval) b) now).1 = true.
Proof.
  intros Hmax Hb.
  destruct (Z.le_gt_cases interval 0) as [Hle|Hpos].
  - unfold rate_Every. destruct (Z.leb_spec interval 0) as [_|?]; [|lia].
    unfold rate_Allow. cbn [limit NewLimiter].
    by rewrite (proj2 (Qeq_bool_iff Inf Inf) (Qeq_refl Inf)).
  - destruct (rate_Every_finite interval) as (Hr & Hinf & Hzero); [lia|].
    apply rate_Allow_finite; [done|done|]. split; [done|].
    apply advance_bounds; cbn [NewLimiter burst tokens last limit].
    + change 1%Q with (inject_Z 1). by rewrite <- Zle_Qle.
    + rewrite Hr. destruct interval as [|p|p]; try lia.
      unfold maxDuration_seconds, Qle, Qplus, Qdiv, Qmult, Qinv. simpl. lia.
Qed.

(** A bucket of size one that has let a request through denies the next
    one until a whole interval has passed. *)
Lemma used_bucket_denies (lim : rate_Limiter) (interval now now' : Z) :
  limit lim = rate_Every interval -> burst lim = 1 ->
  (rate_Allow lim now).1 = true ->
  (now' - now) * 10 ^ 6 < interval -> 0 < interval ->
  (rate_Allow (rate_Allow lim now).2 now').1 = false.
Proof.
  intros Hlim Hburst Hok Hsoon Hpos.
  destruct (rate_Every_finite interval Hpos) as (Hr & Hinf & Hzero).
  rewrite <- Hlim in Hinf, Hzero.
  rewrite MultiFacts.rate_Allow_consumes by done.
  set (lim' := mkLimiter _ _ _ _).
  destruct ((rate_Allow lim' now').1) eqn:E; [exfalso|done].
  apply rate_Allow_finite in E; [|done|done]. destruct E as [_ E].
  destruct (advance_bounds lim now) as (Hcap & _).
  destruct (advance_bounds lim' now') as (_ & Hle & _).
  cbn [lim' tokens last limit burst] in Hle.
  rewrite Hburst in Hcap.
  assert (Hadd : ((if now' <? now then 0
                   else inject_Z (now' - now) / inject_Z 1000) * limit lim
                  < 1)%Q).
  { rewrite Hlim, Hr. destruct (Z.ltb_spec now' now) as [?|Hge]; [lra|].
    destruct interval as [|p|p]; try lia.
    unfold Qlt, Qdiv, Qmult, Qinv. simpl. lia. }
  change (inject_Z 1) with 1%Q in Hcap. lra.
Qed.

(** *** The registry *)

Lemma purgeTokenLimiters_lookup (l : tokenRateLimiter) (now : Z) (k : string) :
  limiterCache (purgeTokenLimiters l now) !! k =
  match limiterCache l !! k with
  | Some v =>
      if (now - RATE_LIMITER_PURGE_FREQUENCY * 1000 >? lastRateLimiterPurge l)
         && (now >? lastUsed v + RATE_LIMITER_DEFAULT_EXPIRATION * 1000)
      then None else Some v
  | None => None
  end.
Proof.
  unfold purgeTokenLimiters.
  destruct (now - RATE_LIMITER_PURGE_FREQUENCY * 1000 >? lastRateLimiterPurge l);
    cbn [limiterCache andb].
  - rewrite map_lookup_filter. destruct (limiterCache l !! k) as [v|]; [|done].
    cbn. destruct (now >? lastUsed v + RATE_LIMITER_DEFAULT_EXPIRATION * 1000).
    + by rewrite option_guard_False.
    + by rewrite option_guard_True.
  - by destruct (limiterCache l !! k).
Qed.

Lemma purgeTokenLimiters_size (l : tokenRateLimiter) (now : Z) :
  (size (limiterCache (purgeTokenLimiters l now)) <= size (limiterCache l))%nat.
Proof.
  unfold purgeTokenLimiters.
  destruct (now - RATE_LIMITER_PURGE_FREQUENCY * 1000 >? lastRateLimiterPurge l);
    cbn [limiterCache]; [|done].
  apply map_subseteq_size, map_filter_subseteq.
Qed.

Lemma setInLimiterCache_fresh (order : list string) (l : tokenRateLimiter)
  (token : string) (now : Z) :
  burstLimitPerSec l <> 0 -> rateLimitPerMin l <> 0 ->
  setInLimiterCache order l token now =
  (with_limiterCache l
     (<[token := mkVisitor (MultiLimiter (fresh_pair l)) now]>
        (purgeLru lastUsed RATE_LIMITER_CACHE_SIZE order (limiterCache l))),
   Ok (MultiLimiter (fresh_pair l))).
Proof.
  intros Hb Hr. unfold setInLimiterCache.
  set (l0 := purgeLruTokenLimiters order l).
  assert (Hb0 : burstLimitPerSec l0 = burstLimitPerSec l) by done.
  assert (Hr0 : rateLimitPerMin l0 = rateLimitPerMin l) by done.
  rewrite (LimiterFacts.Per_ok (burstLimitPerSec l0)) by congruence.
  by rewrite (LimiterFacts.Per_ok (rateLimitPerMin l0)) by congruence.
Qed.

Lemma quot_bound (a b : Z) : 0 <= a -> Z.quot a b <= a.
Proof.
  intros Ha. destruct (Z.eq_dec b 0) as [->|Hb].
  - by rewrite Z.quot_0_r_ext.
  - Z.to_euclidean_division_equations. nia.
Qed.

(** Every bucket of a fresh pair lets the first request through. *)
Lemma fresh_pair_allows (l : tokenRateLimiter) (now : Z) :
  1 <= rateLimiterBucketSize l ->
  Forall (fun b => (Allow b now).1 = true) (fresh_pair l).
Proof.
  intros Hsize. unfold fresh_pair.
  pose proof (quot_bound Second (burstLimitPerSec l)) as H1.
  pose proof (quot_bound Minute (rateLimitPerMin l)) as H2.
  unfold Minute, Second in *.
  constructor; [|constructor; [|constructor]];
    cbn [Allow rate_Limiter_RateLimiter]; apply fresh_bucket_allows; lia.
Qed.

Lemma multiLimiter_Allow_all {B : Type} `{RateLimiter B} (ls : list B)
  (now : Z) :
  Forall (fun b => (Allow b now).1 = true) ls ->
  multiLimiter_Allow (MultiLimiter ls) now =
  (true,
   mkMultiLimiter ((fun b => (Allow b now).2) <$> limiters (MultiLimiter ls))).
Proof.
  intros Hall. unfold multiLimiter_Allow.
  rewrite MultiFacts.Allow_loop_all; [done|].
  by rewrite MultiFacts.MultiLimiter_perm.
Qed.

Lemma multiLimiter_Allow_denied {B : Type} `{RateLimiter B} (ls : list B)
  (b : B) (now : Z) :
  b ∈ ls -> (Allow b now).1 = false ->
  (multiLimiter_Allow (mkMultiLimiter ls) now).1 = false.
Proof.
  intros Hin Hdeny.
  destruct ((multiLimiter_Allow (mkMultiLimiter ls) now).1) eqn:E; [|done].
  assert (Hall : (Allow_loop ls now).1 = true).
  { revert E. unfold multiLimiter_Allow. cbn [limiters].
    by destruct (Allow_loop ls now). }
  apply MultiFacts.Allow_loop_true_iff in Hall.
  rewrite Forall_forall in Hall. specialize (Hall b Hin). congruence.
Qed.

Lemma store_limiter_size (l : tokenRateLimiter) (token : string)
  (lim : multiLimiter rate_Limiter) :
  size (limiterCache (store_limiter l token lim)) = size (limiterCache l).
Proof.
  unfold store_limiter. cbn [limiterCache with_limiterCache].
  by rewrite <- !size_dom, dom_alter_L.
Qed.

(** [getFromLimiterCache] keeps a registry within its capacity. *)
Lemma getFromLimiterCache_size (order : list string) (l : tokenRateLimiter)
  (token : string) (now : Z) :
  (size (limiterCache l) <= RATE_LIMITER_CACHE_SIZE)%nat ->
  order ≡ₚ keys_of (limiterCache l) ->
  (size (limiterCache (getFromLimiterCache order l token now).1)
   <= RATE_LIMITER_CACHE_SIZE)%nat.
Proof.
  intros Hsize Hp. unfold getFromLimiterCache.
  destruct (limiterCache l !! token) as [v|] eqn:Hv.
  - cbn [fst limiterCache with_limiterCache].
    by rewrite map_size_insert_Some.
  - pose proof (purgeLru_insert_bound lastUsed RATE_LIMITER_CACHE_SIZE order
                  (limiterCache l) token) as Hins.
    assert (Hpurged :
      (size (purgeLru lastUsed RATE_LIMITER_CACHE_SIZE order (limiterCache l))
       <= RATE_LIMITER_CACHE_SIZE)%nat).
    { destruct (decide (size (limiterCache l) = RATE_LIMITER_CACHE_SIZE))
        as [Heq|Hne].
      - rewrite purgeLru_full_size by (done || (unfold RATE_LIMITER_CACHE_SIZE in *; lia)).
        lia.
      - rewrite purgeLru_not_full by lia. done. }
    unfold setInLimiterCache.
    set (l0 := purgeLruTokenLimiters order l).
    destruct (Per (burstLimitPerSec l0) Second); [|done].
    destruct (Per (rateLimitPerMin l0) Minute); [|done].
    cbn [fst limiterCache with_limiterCache l0 purgeLruTokenLimiters].
    apply Hins; [done|unfold RATE_LIMITER_CACHE_SIZE; lia|done].
Qed.

(** When the registry is full, the visitor that has been idle for the
    longest time is forgotten as a new one is registered. *)
Theorem new_visitor_evicts_least_recent (order : list string)
  (l : tokenRateLimiter) (token old : string) (idle : visitor) (now : Z) :
  (RATE_LIMITER_CACHE_SIZE <= size (limiterCache l))%nat ->
  order ≡ₚ keys_of (limiterCache l) ->
  limiterCache l !! token = None ->
  limiterCache l !! old = Some idle ->
  (forall k v, k <> old -> limiterCache l !! k = Some v ->
               lastUsed idle < lastUsed v) ->
  limiterCache (getFromLimiterCache order l token now).1 !! old = None.
Proof.
  intros Hfull Hp Hnew Hold Hleast.
  assert (Hne : token <> old) by congruence.
  assert (Hgone :
    purgeLru lastUsed RATE_LIMITER_CACHE_SIZE order (limiterCache l) !! old
    = None).
  { rewrite purgeLru_full
      by (done || (unfold RATE_LIMITER_CACHE_SIZE in *; lia)).
    destruct (sorted_keys_oldest lastUsed order (limiterCache l) old)
      as [rest Hsorted].
    - rewrite Hp. apply elem_of_keys_of. by eexists.
    - intros k Hk Hkne. rewrite Hp in Hk.
      apply elem_of_keys_of in Hk as [v Hv].
      unfold lastUsed_of. rewrite Hold, Hv. by apply (Hleast k).
    - rewrite Hsorted, delete_all_lookup.
      rewrite decide_True; [done|].
      replace (size (limiterCache l) / 5 + 1)%nat
        with (S (size (limiterCache l) / 5)) by lia.
      cbn [take]. left. }
  unfold getFromLimiterCache. rewrite Hnew. unfold setInLimiterCache.
  set (l0 := purgeLruTokenLimiters order l).
  destruct (Per (burstLimitPerSec l0) Second); [|done].
  destruct (Per (rateLimitPerMin l0) Minute); [|done].
  cbn [fst limiterCache with_limiterCache l0 purgeLruTokenLimiters].
  by rewrite lookup_insert_ne.
Qed.

(** The sweep of [purgeTokenLimiters]: when it is due, it forgets the
    visitors idle for more than [RATE_LIMITER_DEFAULT_EXPIRATION] seconds,
    keeps the others as they are and restarts its clock; when it is not due,
    it changes nothing. *)
Theorem purgeTokenLimiters_sweep (l : tokenRateLimiter) (now : Z) :
  let due := now - RATE_LIMITER_PURGE_FREQUENCY * 1000 > lastRateLimiterPurge l in
  (~ due -> purgeTokenLimiters l now = l) /\
  (due ->
   lastRateLimiterPurge (purgeTokenLimiters l now) = now /\
   forall k v,
     limiterCache (purgeTokenLimiters l now) !! k = Some v <->
     limiterCache l !! k = Some v /\
     now <= lastUsed v + RATE_LIMITER_DEFAULT_EXPIRATION * 1000).
Proof.
  cbv zeta. split.
  - intros Hnot. unfold purgeTokenLimiters.
    by destruct (Z.gtb_spec (now - RATE_LIMITER_PURGE_FREQUENCY * 1000)
                            (lastRateLimiterPurge l)); [lia|].
  - intros Hdue.
    assert (Hgt : (now - RATE_LIMITER_PURGE_FREQUENCY * 1000
                   >? lastRateLimiterPurge l) = true) by lia.
    split.
    + unfold purgeTokenLimiters. by rewrite Hgt.
    + intros k v. rewrite purgeTokenLimiters_lookup, Hgt. cbn [andb].
      destruct (limiterCache l !! k) as [v0|]; [|by split; [|intros []]].
      destruct (Z.gtb_spec now
                  (lastUsed v0 + RATE_LIMITER_DEFAULT_EXPIRATION * 1000)).
      * split; [done|]. intros [[= ->] ?]. lia.
      * split; [intros [= ->]; split; [done|lia]|by intros [? _]].
Qed.

Section Handler.
Context `{Digest}.

Lemma RateLimitHandler_with
  (next : vaultCache -> ResponseWriter -> Request -> parseHeader ->
          ctl * vaultCache * ResponseWriter)
  (order : list string) (l : tokenRateLimiter) (c : vaultCache)
  (writer : ResponseWriter) (request : Request) (ctx : parseHeader) (now : Z)
  (l1 : tokenRateLimiter) (lim : multiLimiter rate_Limiter) :
  getFromLimiterCache order (purgeTokenLimiters l now) (limiterCacheKey ctx) now
  = (l1, Ok lim) ->
  let o := afterAllow next (multiLimiter_Allow lim now).1 c writer request ctx
                      now in
  RateLimitHandler next order l c writer request ctx now =
  (store_limiter l1 (limiterCacheKey ctx) (multiLimiter_Allow lim now).2,
   mkOutcome (out_ctl o) (out_cache o) (out_writer o)
             (EvAllow (limiterCacheKey ctx) (multiLimiter_Allow lim now).1
              :: out_trace o)).
Proof.
  intros Hget. cbv zeta. unfold RateLimitHandler. rewrite Hget.
  by destruct (multiLimiter_Allow lim now) as [isAllowed lim'].
Qed.

Lemma afterAllow_allowed
  (next : vaultCache -> ResponseWriter -> Request -> parseHeader ->
          ctl * vaultCache * ResponseWriter)
  (c : vaultCache) (writer : ResponseWriter) (request : Request)
  (ctx : parseHeader) (now : Z) :
  EvTooManyRequests ∉ out_trace (afterAllow next true c writer request ctx now).
Proof.
  pose proof (LimiterFacts.afterAllow_cases next true c writer request ctx now)
    as Hcases.
  cbv zeta in Hcases.
  destruct (if isPathCacheable ctx && negb (isRequestIgnorable ctx)
            then (getCachedResponse c request now).1 else None) as [r|].
  - destruct Hcases as (-> & _). intros Hin. trace_solver.
  - destruct Hcases as (-> & _). intros Hin. trace_solver.
Qed.

(** The first request of a token the registry does not know is let
    through by the limiter: the handler does not answer 429 to it. *)
Theorem first_request_not_limited
  (next : vaultCache -> ResponseWriter -> Request -> parseHeader ->
          ctl * vaultCache * ResponseWriter)
  (order : list string) (l : tokenRateLimiter) (c : vaultCache)
  (writer : ResponseWriter) (request : Request) (ctx : parseHeader) (now : Z) :
  burstLimitPerSec l <> 0 -> rateLimitPerMin l <> 0 ->
  1 <= rateLimiterBucketSize l ->
  limiterCache l !! limiterCacheKey ctx = None ->
  let o := (RateLimitHandler next order l c writer request ctx now).2 in
  hd_error (out_trace o) = Some (EvAllow (limiterCacheKey ctx) true) /\
  EvTooManyRequests ∉ out_trace o.
Proof.
  intros Hb Hr Hsize Hnew. cbv zeta.
  destruct (LimiterFacts.purgeTokenLimiters_config l now) as [Hb' Hr'].
  set (l0 := purgeTokenLimiters l now) in *.
  assert (Hnew0 : limiterCache l0 !! limiterCacheKey ctx = None).
  { unfold l0. by rewrite purgeTokenLimiters_lookup, Hnew. }
  assert (Hsize0 : rateLimiterBucketSize l0 = rateLimiterBucketSize l).
  { unfold l0, purgeTokenLimiters.
    by destruct (now - RATE_LIMITER_PURGE_FREQUENCY * 1000 >?
                 lastRateLimiterPurge l). }
  erewrite RateLimitHandler_with; last first.
  { fold l0. unfold getFromLimiterCache. rewrite Hnew0.
    apply setInLimiterCache_fresh; congruence. }
  cbn [snd out_trace hd_error].
  rewrite multiLimiter_Allow_all
    by (apply fresh_pair_allows; rewrite Hsize0; done).
  cbn [fst]. split; [done|].
  intros Hin. apply elem_of_cons in Hin as [?|Hin]; [discriminate|].
  by apply afterAllow_allowed in Hin.
Qed.

(** A token whose first request was let through at [now] is denied at
    [now'] when less than the interval of the burst rate has passed: the
    handler answers 429 unless it serves the response from the cache. *)
Theorem second_request_within_interval_denied
  (next next' : vaultCache -> ResponseWriter -> Request -> parseHeader ->
                ctl * vaultCache * ResponseWriter)
  (order order' : list string) (l : tokenRateLimiter) (c c' : vaultCache)
  (writer writer' : ResponseWriter) (request request' : Request)
  (ctx ctx' : parseHeader) (now now' : Z) :
  0 < Z.quot Second (burstLimitPerSec l) -> rateLimitPerMin l <> 0 ->
  1 <= rateLimiterBucketSize l ->
  limiterCache l !! limiterCacheKey ctx = None ->
  limiterCacheKey ctx' = limiterCacheKey ctx ->
  (now' - now) * 10 ^ 6 < Z.quot Second (burstLimitPerSec l) ->
  let l1 := (RateLimitHandler next order l c writer request ctx now).1 in
  let o := (RateLimitHandler next' order' l1 c' writer' request' ctx' now').2 in
  hd_error (out_trace o) = Some (EvAllow (limiterCacheKey ctx) false) /\
  (isPathCacheable ctx' && negb (isRequestIgnorable ctx') = false ->
   out_ctl o = Returned /\ out_cache o = c' /\
   out_writer o = http_Error writer' "Too Many Requests" 429).
Proof.
  intros Hint Hr Hsize Hnew Hkey Hsoon. cbv zeta.
  assert (Hb : burstLimitPerSec l <> 0).
  { intros E. rewrite E, Z.quot_0_r_ext in Hint; [lia|done]. }
  pose proof (quot_bound Second (burstLimitPerSec l)) as Hq.
  unfold Second in Hq, Hint, Hsoon.
  destruct (LimiterFacts.purgeTokenLimiters_config l now) as [Hb' Hr'].
  set (l0 := purgeTokenLimiters l now) in *.
  assert (Hnew0 : limiterCache l0 !! limiterCacheKey ctx = None).
  { unfold l0. by rewrite purgeTokenLimiters_lookup, Hnew. }
  assert (Hsize0 : rateLimiterBucketSize l0 = rateLimiterBucketSize l).
  { unfold l0, purgeTokenLimiters.
    by destruct (now - RATE_LIMITER_PURGE_FREQUENCY * 1000 >?
                 lastRateLimiterPurge l). }
  pose proof (fresh_pair_allows l0 now ltac:(by rewrite Hsize0)) as Hall.
  (* the first request *)
  erewrite (RateLimitHandler_with next); last first.
  { fold l0. unfold getFromLimiterCache. rewrite Hnew0.
    apply setInLimiterCache_fresh; congruence. }
  cbn [fst]. rewrite multiLimiter_Allow_all by done. cbn [snd].
  set (lim1 := mkMultiLimiter _).
  set (l1 := store_limiter _ _ lim1).
  assert (Hv : limiterCache l1 !! limiterCacheKey ctx =
               Some (mkVisitor lim1 now)).
  { unfold l1.
    rewrite (LimiterFacts.store_limiter_lookup _ _
               (mkVisitor (MultiLimiter (fresh_pair l0)) now)); [done|].
    cbn [limiterCache with_limiterCache]. apply lookup_insert_eq. }
  (* the bucket of the burst rate has been used *)
  set (bucket := NewLimiter (rate_Every (Z.quot (10 ^ 9) (burstLimitPerSec l))) 1).
  assert (Hin : bucket ∈ fresh_pair l0).
  { unfold fresh_pair, bucket, Second. rewrite Hb'. left. }
  assert (Hdeny : (Allow (Allow bucket now).2 now').1 = false).
  { cbn [Allow rate_Limiter_RateLimiter].
    apply (used_bucket_denies bucket (Z.quot (10 ^ 9) (burstLimitPerSec l)));
      try done.
    rewrite Forall_forall in Hall. apply (Hall bucket Hin). }
  assert (Hno : (multiLimiter_Allow lim1 now').1 = false).
  { apply (multiLimiter_Allow_denied _ (Allow bucket now).2); [|done].
    apply list_elem_of_fmap. exists bucket. split; [done|].
    by rewrite MultiFacts.MultiLimiter_perm. }
  (* the second request *)
  erewrite (RateLimitHandler_with next'); last first.
  { unfold getFromLimiterCache.
    rewrite purgeTokenLimiters_lookup, Hkey, Hv. cbn [lastUsed].
    replace (now' >? now + RATE_LIMITER_DEFAULT_EXPIRATION * 1000) with false
      by (unfold RATE_LIMITER_DEFAULT_EXPIRATION; lia).
    rewrite andb_false_r. cbn [limiter]. reflexivity. }
  cbn [snd out_trace out_ctl out_cache out_writer hd_error].
  rewrite Hno, Hkey. split; [done|].
  intros Hread.
  pose proof (LimiterFacts.afterAllow_cases next' false c' writer' request'
                ctx' now') as Hcases.
  cbv zeta in Hcases. rewrite Hread in Hcases.
  by destruct Hcases as (_ & ? & ? & ?).
Qed.

(** Through a request the registry stays within its capacity. *)
Theorem registry_capacity_invariant
  (next : vaultCache -> ResponseWriter -> Request -> parseHeader ->
          ctl * vaultCache * ResponseWriter)
  (order : list string) (l : tokenRateLimiter) (c : vaultCache)
  (writer : ResponseWriter) (request : Request) (ctx : parseHeader) (now : Z) :
  (size (limiterCache l) <= RATE_LIMITER_CACHE_SIZE)%nat ->
  order ≡ₚ keys_of (limiterCache (purgeTokenLimiters l now)) ->
  (size (limiterCache
           (RateLimitHandler next order l c writer request ctx now).1)
   <= RATE_LIMITER_CACHE_SIZE)%nat.
Proof.
  intros Hsize Hp.
  pose proof (purgeTokenLimiters_size l now) as Hswept.
  pose proof (getFromLimiterCache_size order (purgeTokenLimiters l now)
                (limiterCacheKey ctx) now ltac:(lia) Hp) as Hget.
  unfold RateLimitHandler.
  destruct (getFromLimiterCache order (purgeTokenLimiters l now)
              (limiterCacheKey ctx) now) as [l1 [lim|why]]; cbn [fst] in *.
  - destruct (multiLimiter_Allow lim now) as [isAllowed lim'].
    cbn [fst]. by rewrite store_limiter_size.
  - done.
Qed.

(** With a rate of zero events in the configuration, [Per] divides by
    zero: the request of a token the registry does not know panics before
    anything is written, looked up in the cache or handed to the next
    handler. *)
Theorem zero_rate_panics
  (next : vaultCache -> ResponseWriter -> Request -> parseHeader ->
          ctl * vaultCache * ResponseWriter)
  (order : list string) (l : tokenRateLimiter) (c : vaultCache)
  (writer : ResponseWriter) (request : Request) (ctx : parseHeader) (now : Z) :
  burstLimitPerSec l = 0 \/ rateLimitPerMin l = 0 ->
  limiterCache l !! limiterCacheKey ctx = None ->
  (RateLimitHandler next order l c writer request ctx now).2 =
  mkOutcome (Panicked integer_divide_by_zero) c writer [].
Proof.
  intros Hzero Hnew.
  destruct (LimiterFacts.purgeTokenLimiters_config l now) as [Hb' Hr'].
  unfold RateLimitHandler, getFromLimiterCache.
  rewrite purgeTokenLimiters_lookup, Hnew.
  unfold setInLimiterCache.
  set (l0 := purgeLruTokenLimiters order (purgeTokenLimiters l now)).
  assert (Hb0 : burstLimitPerSec l0 = burstLimitPerSec l) by done.
  assert (Hr0 : rateLimitPerMin l0 = rateLimitPerMin l) by done.
  rewrite Hb0, Hr0. unfold Per.
  destruct Hzero as [-> | ->]; cbn [Z.eqb].
  - done.
  - by destruct (burstLimitPerSec l =? 0).
Qed.

End Handler.
(** The first request of token [t1] to a server that has just started. *)
Lemma first_request_not_limited_shipped :
  (burstLimitPerSec Examples.shipped_registry <> 0 /\
   rateLimitPerMin Examples.shipped_registry <> 0 /\
   1 <= rateLimiterBucketSize Examples.shipped_registry /\
   limiterCache Examples.shipped_registry
     !! limiterCacheKey Examples.secret_ctx = None) /\
  hd_error
    (out_trace
       (@RateLimitHandler Examples.plain_Digest Examples.no_content []
          Examples.shipped_registry (NewVaultCache 0) new_writer
          Examples.secret_request Examples.secret_ctx 1000).2) =
  Some (EvAllow (limiterCacheKey Examples.secret_ctx) true).
Proof.
  assert (H1 : burstLimitPerSec Examples.shipped_registry <> 0)
    by discriminate.
  assert (H2 : rateLimitPerMin Examples.shipped_registry <> 0)
    by discriminate.
  assert (H3 : 1 <= rateLimiterBucketSize Examples.shipped_registry)
    by discriminate.
  assert (H4 : limiterCache Examples.shipped_registry
                 !! limiterCacheKey Examples.secret_ctx = None)
    by reflexivity.
  split; [exact (conj H1 (conj H2 (conj H3 H4)))|].
  exact (proj1 (@first_request_not_limited Examples.plain_Digest
                  Examples.no_content [] Examples.shipped_registry
                  (NewVaultCache 0) new_writer Examples.secret_request
                  Examples.secret_ctx 1000 H1 H2 H3 H4)).
Defined.

(** Two requests of token [t1], 100 ms apart, under the shipped burst rate
    of two per second. *)
Lemma second_request_within_interval_denied_100ms :
  (0 < Z.quot Second (burstLimitPerSec Examples.shipped_registry) /\
   rateLimitPerMin Examples.shipped_registry <> 0 /\
   1 <= rateLimiterBucketSize Examples.shipped_registry /\
   limiterCache Examples.shipped_registry
     !! limiterCacheKey Examples.secret_ctx = None /\
   (1100 - 1000) * 10 ^ 6
   < Z.quot Second (burstLimitPerSec Examples.shipped_registry)) /\
  hd_error
    (out_trace
       (@RateLimitHandler Examples.plain_Digest Examples.no_content []
          (@RateLimitHandler Examples.plain_Digest Examples.no_content []
             Examples.shipped_registry (NewVaultCache 0) new_writer
             Examples.secret_request Examples.secret_ctx 1000).1
          (NewVaultCache 0) new_writer Examples.secret_request
          Examples.secret_ctx 1100).2) =
  Some (EvAllow (limiterCacheKey Examples.secret_ctx) false).
Proof.
  assert (H1 : 0 < Z.quot Second (burstLimitPerSec Examples.shipped_registry))
    by reflexivity.
  assert (H2 : rateLimitPerMin Examples.shipped_registry <> 0)
    by discriminate.
  assert (H3 : 1 <= rateLimiterBucketSize Examples.shipped_registry)
    by discriminate.
  assert (H4 : limiterCache Examples.shipped_registry
                 !! limiterCacheKey Examples.secret_ctx = None)
    by reflexivity.
  assert (H5 : (1100 - 1000) * 10 ^ 6
               < Z.quot Second (burstLimitPerSec Examples.shipped_registry))
    by reflexivity.
  split; [exact (conj H1 (conj H2 (conj H3 (conj H4 H5))))|].
  exact (proj1 (@second_request_within_interval_denied Examples.plain_Digest
                  Examples.no_content Examples.no_content [] []
                  Examples.shipped_registry (NewVaultCache 0) (NewVaultCache 0)
                  new_writer new_writer Examples.secret_request
                  Examples.secret_request Examples.secret_ctx
                  Examples.secret_ctx 1000 1100 H1 H2 H3 H4 eq_refl H5)).
Defined.

(** A third token arrives at a registry of two visitors: [a], idle since
    instant 10, is forgotten. *)
Lemma new_visitor_evicts_least_recent_third :
  ((RATE_LIMITER_CACHE_SIZE <= size (limiterCache MoreExamples.full_registry))%nat /\
   ["a"; "b"] ≡ₚ keys_of (limiterCache MoreExamples.full_registry) /\
   limiterCache MoreExamples.full_registry !! "c" = None /\
   (lastUsed <$> limiterCache MoreExamples.full_registry !! "a") = Some 10 /\
   (forall k v, k <> "a" ->
      limiterCache MoreExamples.full_registry !! k = Some v -> 10 < lastUsed v)) /\
  limiterCache
    (getFromLimiterCache ["a"; "b"] MoreExamples.full_registry "c" 1000).1
    !! "a" = None.
Proof.
  assert (H1 : (RATE_LIMITER_CACHE_SIZE
                <= size (limiterCache MoreExamples.full_registry))%nat)
    by (vm_compute; lia).
  assert (H2 : ["a"; "b"] ≡ₚ keys_of (limiterCache MoreExamples.full_registry))
    by (apply (bool_decide_unpack _); vm_compute; exact I).
  assert (H3 : limiterCache MoreExamples.full_registry !! "c" = None)
    by reflexivity.
  assert (H4 : limiterCache MoreExamples.full_registry !! "a" =
               Some (mkVisitor (MultiLimiter [Examples.burst_bucket;
                                              Examples.sustained_bucket]) 10))
    by reflexivity.
  assert (H5 : forall k v, k <> "a" ->
            limiterCache MoreExamples.full_registry !! k = Some v ->
            10 < lastUsed v).
  { intros k v Hk. unfold MoreExamples.full_registry.
    cbn [limiterCache with_limiterCache].
    rewrite lookup_insert_ne by done.
    destruct (decide (k = "b")) as [->|Hb].
    - rewrite lookup_insert_eq. intros [= <-]. reflexivity.
    - rewrite lookup_insert_ne by done. by rewrite lookup_empty. }
  split.
  { split; [exact H1|]. split; [exact H2|]. split; [exact H3|].
    split; [by rewrite H4|exact H5]. }
  exact (new_visitor_evicts_least_recent ["a"; "b"] MoreExamples.full_registry
           "c" "a" _ 1000 H1 H2 H3 H4 H5).
Defined.

(** The invariant at a registry of two visitors. *)
Lemma registry_capacity_invariant_full :
  ((size (limiterCache MoreExamples.full_registry)
    <= RATE_LIMITER_CACHE_SIZE)%nat /\
   ["a"; "b"] ≡ₚ
   keys_of (limiterCache (purgeTokenLimiters MoreExamples.full_registry 1000)))
  /\
  (size (limiterCache
           (@RateLimitHandler Examples.plain_Digest Examples.no_content
              ["a"; "b"] MoreExamples.full_registry (NewVaultCache 0)
              new_writer Examples.secret_request Examples.secret_ctx 1000).1)
   <= RATE_LIMITER_CACHE_SIZE)%nat.
Proof.
  assert (H1 : (size (limiterCache MoreExamples.full_registry)
                <= RATE_LIMITER_CACHE_SIZE)%nat)
    by (vm_compute; lia).
  assert (H2 : ["a"; "b"] ≡ₚ
               keys_of (limiterCache
                          (purgeTokenLimiters MoreExamples.full_registry 1000)))
    by (apply (bool_decide_unpack _); vm_compute; exact I).
  split; [exact (conj H1 H2)|].
  exact (@registry_capacity_invariant Examples.plain_Digest Examples.no_content
           ["a"; "b"] MoreExamples.full_registry (NewVaultCache 0) new_writer
           Examples.secret_request Examples.secret_ctx 1000 H1 H2).
Defined.

(** A burst rate of zero in the configuration. *)
Lemma zero_rate_panics_burst :
  ((burstLimitPerSec MoreExamples.zero_burst_registry = 0 \/
    rateLimitPerMin MoreExamples.zero_burst_registry = 0) /\
   limiterCache MoreExamples.zero_burst_registry
     !! limiterCacheKey Examples.secret_ctx = None) /\
  out_ctl
    (@RateLimitHandler Examples.plain_Digest Examples.no_content []
       MoreExamples.zero_burst_registry (NewVaultCache 0) new_writer
       Examples.secret_request Examples.secret_ctx 1000).2 =
  Panicked integer_divide_by_zero.
Proof.
  assert (H1 : burstLimitPerSec MoreExamples.zero_burst_registry = 0 \/
               rateLimitPerMin MoreExamples.zero_burst_registry = 0)
    by (left; reflexivity).
  assert (H2 : limiterCache MoreExamples.zero_burst_registry
                 !! limiterCacheKey Examples.secret_ctx = None)
    by reflexivity.
  split; [exact (conj H1 H2)|].
  rewrite (@zero_rate_panics Examples.plain_Digest Examples.no_content []
             MoreExamples.zero_burst_registry (NewVaultCache 0) new_writer
             Examples.secret_request Examples.secret_ctx 1000 H1 H2).
  reflexivity.
Defined.

End LimiterMore.

(** ** vaultAgent.go: ports, refresh and routing *)

Module AgentMore.
Import Config ParseHeader Cache Agent.

(** *** [strings.Split] on a colon *)

Lemma strings_Split_nonempty (s : string) : strings_Split s <> [].
Proof.
  destruct s as [|c s]; [done|]. cbn [strings_Split].
  destruct (Ascii.eqb c ":"); [done|]. by destruct (strings_Split s).
Qed.

Lemma strings_Split_no_colon (s : string) :
  no_colon s = true -> strings_Split s = [s].
Proof.
  induction s as [|c s IH]; [done|]. unfold no_colon. cbn.
  destruct (Ascii.eqb c ":"); [done|]. cbn. intros Hs.
  by rewrite (IH Hs).
Qed.

Lemma strings_Split_colon (host rest : string) :
  no_colon host = true ->
  strings_Split (host +:+ ":" +:+ rest) = host :: strings_Split rest.
Proof.
  induction host as [|c host IH]; [done|]. unfold no_colon. cbn.
  destruct (Ascii.eqb c ":") eqn:E; [done|]. cbn. intros Hs.
  change (String c host +:+ ":" +:+ rest)
    with (String c (host +:+ ":" +:+ rest)).
  cbn [strings_Split]. rewrite E. by rewrite (IH Hs).
Qed.

(** *** [strconv.Itoa] and [strconv.Atoi] *)

Lemma parse_digits_string_of_uint (u : Decimal.uint) (acc : Z) :
  parse_digits acc (DecimalString.NilEmpty.string_of_uint u) =
  Some (acc * 10 ^ Z.of_N (DecimalPos.Unsigned.usize u)
        + Z.of_N (Pos.of_uint u)).
Proof.
  revert acc. induction u as [|u IH|u IH|u IH|u IH|u IH|u IH|u IH|u IH|u IH|u IH];
    intros acc;
    [cbn; f_equal; lia| ..];
    cbn [DecimalString.NilEmpty.string_of_uint parse_digits];
    match goal with
    | |- context [digit_of ?c] =>
        let v := eval vm_compute in (digit_of c) in
        change (digit_of c) with v
    end; cbv iota;
    rewrite IH; f_equal;
    cbn [DecimalPos.Unsigned.usize Pos.of_uint];
    rewrite ?DecimalPos.Unsigned.of_uint_acc_rev,
            <- ?DecimalPos.Unsigned.of_uint_alt;
    rewrite N2Z.inj_succ, Z.pow_succ_r by lia;
    rewrite ?N2Z.inj_add, ?N2Z.inj_mul, ?N2Z.inj_pow; cbn [Z.of_N]; lia.
Qed.

Lemma no_colon_string_of_uint (u : Decimal.uint) :
  no_colon (DecimalString.NilEmpty.string_of_uint u) = true.
Proof. induction u; done. Qed.

Lemma strconv_Atoi_digits (neg : bool) (u : Decimal.uint) :
  u <> Decimal.Nil ->
  strconv_Atoi ((if neg then "-" else "") +:+
                DecimalString.NilEmpty.string_of_uint u) =
  let n := Z.of_N (Pos.of_uint u) in
  let v := if neg then - n else n in
  if v >? maxInt then (maxInt, true)
  else if v <? minInt then (minInt, true)
  else (v, false).
Proof.
  intros Hne. cbv zeta.
  pose proof (parse_digits_string_of_uint u 0) as Hp.
  rewrite Z.mul_0_l, Z.add_0_l in Hp.
  destruct neg.
  - change ("-" +:+ DecimalString.NilEmpty.string_of_uint u)
      with (String "-" (DecimalString.NilEmpty.string_of_uint u)).
    unfold strconv_Atoi.
    replace (Ascii.eqb "-" "-") with true by reflexivity.
    rewrite Hp. by destruct u.
  - change ("" +:+ DecimalString.NilEmpty.string_of_uint u)
      with (DecimalString.NilEmpty.string_of_uint u).
    destruct u; [done|..];
      cbn [DecimalString.NilEmpty.string_of_uint] in Hp |- *;
      unfold strconv_Atoi;
      repeat match goal with
      | |- context [Ascii.eqb ?a ?b] =>
          let v := eval vm_compute in (Ascii.eqb a b) in
          change (Ascii.eqb a b) with v
      end; cbv beta iota; by rewrite Hp.
Qed.

(** Reading back what [strconv.Itoa] printed gives the number, without an
    error. *)
Lemma strconv_Atoi_Itoa (n : Z) :
  minInt <= n <= maxInt -> strconv_Atoi (strconv_Itoa n) = (n, false).
Proof.
  intros Hrange. unfold strconv_Itoa. destruct n as [|p|p].
  - reflexivity.
  - cbn [Z.to_int DecimalString.NilZero.string_of_int].
    pose proof (DecimalPos.Unsigned.to_uint_nonnil p) as Hne.
    pose proof (strconv_Atoi_digits false (Pos.to_uint p) Hne) as Hd.
    cbv zeta in Hd. rewrite DecimalPos.Unsigned.of_to in Hd.
    change ("" +:+ ?s) with s in Hd.
    replace (DecimalString.NilZero.string_of_uint (Pos.to_uint p))
      with (DecimalString.NilEmpty.string_of_uint (Pos.to_uint p))
      by (by destruct (Pos.to_uint p)).
    rewrite Hd. cbn [Z.of_N].
    destruct (Z.gtb_spec (Z.pos p) maxInt); [lia|].
    destruct (Z.ltb_spec (Z.pos p) minInt); [lia|done].
  - cbn [Z.to_int DecimalString.NilZero.string_of_int].
    pose proof (DecimalPos.Unsigned.to_uint_nonnil p) as Hne.
    pose proof (strconv_Atoi_digits true (Pos.to_uint p) Hne) as Hd.
    cbv zeta in Hd. rewrite DecimalPos.Unsigned.of_to in Hd.
    change ("-" +:+ ?s) with (String "-" s) in Hd.
    replace (DecimalString.NilZero.string_of_uint (Pos.to_uint p))
      with (DecimalString.NilEmpty.string_of_uint (Pos.to_uint p))
      by (by destruct (Pos.to_uint p)).
    rewrite Hd. change (- Z.of_N (N.pos p)) with (Z.neg p).
    destruct (Z.gtb_spec (Z.neg p) maxInt); [lia|].
    destruct (Z.ltb_spec (Z.neg p) minInt); [lia|done].
Qed.

Lemma no_colon_Itoa (n : Z) : no_colon (strconv_Itoa n) = true.
Proof.
  unfold strconv_Itoa.
  destruct n as [|p|p]; cbn [Z.to_int DecimalString.NilZero.string_of_int].
  - reflexivity.
  - destruct (Pos.to_uint p) eqn:E; try reflexivity;
      apply (no_colon_string_of_uint (_ _)).
  - change (no_colon (DecimalString.NilZero.string_of_uint (Pos.to_uint p))
            = true).
    destruct (Pos.to_uint p) eqn:E; try reflexivity;
      apply (no_colon_string_of_uint (_ _)).
Qed.

(** *** [changePortMapping] *)

Lemma changePorts_ports (i : Z) (servers : list Server)
  (hps : list (string * Z)) :
  Forall2 (fun srv hp =>
             Address srv = hp.1 +:+ ":" +:+ strconv_Itoa hp.2 /\
             no_colon hp.1 = true /\ 0 <= hp.2 <= 65535) servers hps ->
  exists servers',
    changePorts i servers = (servers', None, []) /\
    length servers' = length servers /\
    forall (j : nat) srv hp,
      servers !! j = Some srv -> hps !! j = Some hp ->
      servers' !! j =
      Some (mkServer
              (hp.1 +:+ ":" +:+
               strconv_Itoa (hp.2 - AGENT_VAULT_PORT_DIFF + (i + Z.of_nat j)))
              (Leader srv) (NodeId srv) (ProtocolVersion srv) (Voter srv)).
Proof.
  intros Hall. revert i.
  induction Hall as [|srv hp servers hps (Haddr & Hhost & Hport) _ IH];
    intros i.
  - exists []. by repeat split.
  - destruct (IH (i + 1)) as (rest' & Hrest & Hlen & Hlook).
    cbn [changePorts]. rewrite Haddr, strings_Split_colon by done.
    rewrite (strings_Split_no_colon (strconv_Itoa hp.2))
      by apply no_colon_Itoa.
    rewrite strconv_Atoi_Itoa by (unfold minInt, maxInt; lia).
    rewrite Hrest. eexists. split; [reflexivity|].
    split; [cbn [length]; by rewrite Hlen|].
    intros [|j] srv0 hp0; rewrite !lookup_cons.
    + intros [= <-] [= <-]. by rewrite Z.add_0_r.
    + intros Hs Hh. rewrite (Hlook j srv0 hp0 Hs Hh).
      by replace (i + Z.of_nat (S j)) with (i + 1 + Z.of_nat j) by lia.
Qed.

(** Every server listed as [host:port], with a TCP port, is moved to
    the port of its agent: [port - AGENT_VAULT_PORT_DIFF] plus the position
    of the server in the list; nothing is logged and nothing else changes. *)
Theorem changePortMapping_ports (a : vaultAgent) (hps : list (string * Z)) :
  Forall2 (fun srv hp =>
             Address srv = hp.1 +:+ ":" +:+ strconv_Itoa hp.2 /\
             no_colon hp.1 = true /\ 0 <= hp.2 <= 65535)
          (Servers (vaultConfigResponse a)) hps ->
  exists servers',
    changePortMapping a =
    (with_response a (with_Servers (vaultConfigResponse a) servers'),
     None, []) /\
    length servers' = length (Servers (vaultConfigResponse a)) /\
    forall (j : nat) srv hp,
      Servers (vaultConfigResponse a) !! j = Some srv -> hps !! j = Some hp ->
      servers' !! j =
      Some (mkServer
              (hp.1 +:+ ":" +:+
               strconv_Itoa (hp.2 - AGENT_VAULT_PORT_DIFF + Z.of_nat j))
              (Leader srv) (NodeId srv) (ProtocolVersion srv) (Voter srv)).
Proof.
  intros Hall.
  destruct (changePorts_ports 0 _ _ Hall) as (servers' & Hch & Hlen & Hlook).
  exists servers'. unfold changePortMapping. rewrite Hch.
  split; [done|]. split; [done|].
  intros j srv hp Hs Hh. by rewrite (Hlook j srv hp Hs Hh).
Qed.

(** What follows a second colon in an address is dropped with the
    rewriting of the port. *)
Theorem changePorts_drops_after_second_colon (i : Z) (server : Server)
  (host tail : string) (port : Z) :
  Address server =
  host +:+ ":" +:+ strconv_Itoa port +:+ ":" +:+ tail ->
  no_colon host = true -> 0 <= port <= 65535 ->
  changePorts i [server] =
  ([mkServer (host +:+ ":" +:+ strconv_Itoa (port - AGENT_VAULT_PORT_DIFF + i))
             (Leader server) (NodeId server) (ProtocolVersion server)
             (Voter server)],
   None, []).
Proof.
  intros Haddr Hhost Hport. cbn [changePorts].
  rewrite Haddr, strings_Split_colon by done.
  rewrite strings_Split_colon by apply no_colon_Itoa.
  pose proof (strings_Split_nonempty tail) as Hne.
  destruct (strings_Split tail) as [|t ts]; [done|].
  by rewrite strconv_Atoi_Itoa by (unfold minInt, maxInt; lia).
Qed.

Lemma changePorts_length (i : Z) (servers : list Server) :
  length (changePorts i servers).1.1 = length servers.
Proof.
  revert i. induction servers as [|server rest IH]; intros i; [done|].
  cbn [changePorts].
  destruct (strings_Split (Address server)) as [|host [|portText more]];
    try done.
  destruct (strconv_Atoi portText) as [port err].
  specialize (IH (i + 1)).
  destruct (changePorts (i + 1) rest) as [[rest' panic] logs].
  cbn in IH |- *. by rewrite IH.
Qed.

(** An address without a colon stops the loop: [addrPort[1]] is out of
    range. *)
Lemma changePorts_panics (i : Z) (servers : list Server) (srv : Server) :
  srv ∈ servers -> no_colon (Address srv) = true ->
  (changePorts i servers).1.2 = Some index_out_of_range.
Proof.
  intros Hin Hbad. revert i.
  induction servers as [|server rest IH]; intros i;
    [by apply elem_of_nil in Hin|].
  cbn [changePorts].
  apply elem_of_cons in Hin as [<-|Hin].
  - by rewrite strings_Split_no_colon.
  - destruct (strings_Split (Address server)) as [|host [|portText more]];
      try done.
    destruct (strconv_Atoi portText) as [port err].
    specialize (IH Hin (i + 1)).
    by destruct (changePorts (i + 1) rest) as [[rest' panic] logs].
Qed.

Section Refresh.
Context `{Json}.

(** A membership that lists an address without a colon makes the refresh
    panic after the snapshot has been written over: the routing table and
    the time of the last check stay as they were, so that the refresh is due
    again at the next request. *)
Theorem refresh_panics_without_colon (a : vaultAgent) (resp : Response)
  (err : option string) (now : Z) (srv : Server) :
  now - VAULT_CONFIG_CHECK_FREQUENCY * 1000 > lastConfigCheck a ->
  srv ∈ Servers (json_Unmarshal (body_bytes (resp_Body resp))).1 ->
  no_colon (Address srv) = true ->
  let r := getVaultConfigDetails a (Some resp, err) now in
  ref_ctl r = Panicked index_out_of_range /\
  lastConfigCheck (ref_agent r) = lastConfigCheck a /\
  agentRoutingTable (ref_agent r) = agentRoutingTable a /\
  myAddress (ref_agent r) = myAddress a /\
  length (Servers (vaultConfigResponse (ref_agent r))) =
  (length (Servers (json_Unmarshal (body_bytes (resp_Body resp))).1) + 2)%nat.
Proof.
  intros Hdue Hin Hbad. cbv zeta. unfold getVaultConfigDetails.
  assert (Hgt : (now - VAULT_CONFIG_CHECK_FREQUENCY * 1000 >? lastConfigCheck a)
                = true) by lia.
  rewrite Hgt.
  destruct (json_Unmarshal (body_bytes (resp_Body resp))) as [obj uerr].
  cbn [fst] in Hin.
  set (a1 := with_response a (addMockServers obj)).
  assert (Hin1 : srv ∈ Servers (vaultConfigResponse a1)).
  { subst a1. cbn. rewrite !elem_of_app. by do 2 left. }
  pose proof (changePorts_panics 0 _ _ Hin1 Hbad) as Hpanic.
  pose proof (changePorts_length 0 (Servers (vaultConfigResponse a1))) as Hlen.
  unfold changePortMapping.
  destruct (changePorts 0 (Servers (vaultConfigResponse a1)))
    as [[servers panic] logs].
  cbn [fst snd] in Hpanic, Hlen. subst panic.
  cbn [ref_ctl ref_agent with_response lastConfigCheck agentRoutingTable
       myAddress vaultConfigResponse with_Servers Servers].
  repeat split; try done.
  rewrite Hlen. subst a1. cbn. rewrite !length_app. cbn. lia.
Qed.

(** Every refresh that returns publishes the two mock servers beside the
    servers the upstream lists, at the ports that follow theirs. *)
Theorem refresh_publishes_mock_servers (a : vaultAgent) (resp : Response)
  (err : option string) (now : Z) (hps : list (string * Z)) :
  now - VAULT_CONFIG_CHECK_FREQUENCY * 1000 > lastConfigCheck a ->
  Forall2 (fun srv hp =>
             Address srv = hp.1 +:+ ":" +:+ strconv_Itoa hp.2 /\
             no_colon hp.1 = true /\ 0 <= hp.2 <= 65535)
          (Servers (json_Unmarshal (body_bytes (resp_Body resp))).1) hps ->
  let r := getVaultConfigDetails a (Some resp, err) now in
  let listed :=
    Z.of_nat (length (Servers (json_Unmarshal (body_bytes (resp_Body resp))).1))
  in
  ref_ctl r = Returned /\
  lastConfigCheck (ref_agent r) = now /\
  Z.of_nat (length (Servers (vaultConfigResponse (ref_agent r)))) = listed + 2 /\
  mkServer ("127.0.0.1:" +:+ strconv_Itoa (8001 + listed)) false "raft2" ETX true
  ∈ Servers (vaultConfigResponse (ref_agent r)) /\
  mkServer ("127.0.0.1:" +:+ strconv_Itoa (8002 + listed)) false "raft3" ETX true
  ∈ Servers (vaultConfigResponse (ref_agent r)).
Proof.
  intros Hdue Hall. cbv zeta. unfold getVaultConfigDetails.
  assert (Hgt : (now - VAULT_CONFIG_CHECK_FREQUENCY * 1000 >? lastConfigCheck a)
                = true) by lia.
  rewrite Hgt.
  destruct (json_Unmarshal (body_bytes (resp_Body resp))) as [obj uerr].
  cbn [fst] in Hall |- *.
  set (a1 := with_response a (addMockServers obj)).
  set (mock1 := mkServer "127.0.0.1:9001" false "raft2" ETX true).
  set (mock2 := mkServer "127.0.0.1:9001" false "raft3" ETX true).
  assert (Hservers : Servers (vaultConfigResponse a1) =
                     Servers obj ++ [mock1; mock2]).
  { subst a1. cbn. by rewrite <- app_assoc. }
  assert (Hall1 :
    Forall2 (fun srv hp =>
               Address srv = hp.1 +:+ ":" +:+ strconv_Itoa hp.2 /\
               no_colon hp.1 = true /\ 0 <= hp.2 <= 65535)
            (Servers (vaultConfigResponse a1))
            (hps ++ [("127.0.0.1", 9001); ("127.0.0.1", 9001)])).
  { rewrite Hservers. apply Forall2_app; [done|].
    repeat (constructor; [split; [reflexivity|split; [reflexivity|]];
                          split; discriminate|]).
    constructor. }
  destruct (changePorts_ports 0 _ _ Hall1) as (servers' & Hch & Hlen & Hlook).
  pose proof (Forall2_length _ _ _ Hall) as Hhps.
  unfold changePortMapping. rewrite Hch.
  cbn [ref_ctl ref_agent lastConfigCheck vaultConfigResponse].
  destruct (AgentFacts.sort_Slice_byNodeId servers') as [Hperm _].
  cbn [sortByNodeId with_response vaultConfigResponse with_Servers Servers].
  split; [done|]. split; [done|].
  split.
  { rewrite Hperm, Hlen, Hservers, length_app. cbn [length]. lia. }
  set (n := length (Servers obj)) in *.
  assert (H1 : servers' !! n =
               Some (mkServer ("127.0.0.1:" +:+ strconv_Itoa (8001 + Z.of_nat n))
                              false "raft2" ETX true)).
  { rewrite (Hlook n mock1 ("127.0.0.1", 9001)).
    - cbn [fst snd Leader NodeId ProtocolVersion Voter mock1].
      unfold AGENT_VAULT_PORT_DIFF.
      by replace (9001 - 1000 + (0 + Z.of_nat n)) with (8001 + Z.of_nat n)
        by lia.
    - rewrite Hservers. by rewrite lookup_app_r, Nat.sub_diag by (fold n; lia).
    - by rewrite lookup_app_r, Hhps, Nat.sub_diag by lia. }
  assert (H2 : servers' !! S n =
               Some (mkServer ("127.0.0.1:" +:+ strconv_Itoa (8002 + Z.of_nat n))
                              false "raft3" ETX true)).
  { rewrite (Hlook (S n) mock2 ("127.0.0.1", 9001)).
    - cbn [fst snd Leader NodeId ProtocolVersion Voter mock2].
      unfold AGENT_VAULT_PORT_DIFF.
      by replace (9001 - 1000 + (0 + Z.of_nat (S n))) with (8002 + Z.of_nat n)
        by lia.
    - rewrite Hservers. rewrite lookup_app_r by (fold n; lia). fold n.
      by replace (S n - n)%nat with 1%nat by lia.
    - rewrite lookup_app_r by lia. rewrite <- Hhps. fold n.
      by replace (S n - n)%nat with 1%nat by lia. }
  split; rewrite Hperm; by eapply list_elem_of_lookup_2.
Qed.

End Refresh.

(** *** Routing *)

Lemma GetRoutingServer_published (a a0 : vaultAgent) (request : Request) :
  Servers (vaultConfigResponse a0) <> [] ->
  vaultConfigResponse a = vaultConfigResponse (sortByNodeId a0) ->
  agentRoutingTable a = agentRoutingTable (sortByNodeId a0) ->
  exists owner,
    owner ∈ Servers (vaultConfigResponse a) /\
    GetRoutingServer a request = Ok (Address owner).
Proof.
  intros Hne Hresp Htab.
  destruct (AgentFacts.sortByNodeId_fields a0) as [Hservers Htable].
  destruct (AgentFacts.sort_Slice_byNodeId (Servers (vaultConfigResponse a0)))
    as [Hperm _].
  rewrite <- Hservers, <- Hresp in Hperm.
  set (table := Servers (vaultConfigResponse a)) in *.
  set (T := Header_Get (req_Header request) VAULT_TOKEN_HEADER).
  assert (HN : 1 <= Z.of_nat (length table)).
  { rewrite Hperm. destruct (Servers (vaultConfigResponse a0)); [done|].
    cbn [length]. lia. }
  pose proof (AgentFacts.hash_range T) as Hhash.
  assert (Hidx : 0 <= hash T mod Z.of_nat (length table)
                 < Z.of_nat (length table)) by (apply Z.mod_pos_bound; lia).
  destruct (lookup_lt_is_Some_2 table
              (Z.to_nat (hash T mod Z.of_nat (length table))))
    as [owner Howner]; [lia|].
  exists owner. split; [by eapply list_elem_of_lookup_2|].
  unfold GetRoutingServer. fold table T.
  destruct (Z.eqb_spec (Z.of_nat (length table)) 0) as [?|_]; [lia|].
  rewrite Z.rem_mod_nonneg by lia.
  rewrite Htab, Htable, AgentFacts.fill_table_lookup.
  rewrite <- Hservers, <- Hresp. fold table.
  rewrite decide_True by lia.
  replace (hash T mod Z.of_nat (length table) - 0)
    with (hash T mod Z.of_nat (length table)) by lia.
  by rewrite Howner.
Qed.

Section Routing.
Context `{Json}.

(** After a refresh that was due and returned, every token is routed to
    the address of a server of the published snapshot, whatever the routing
    table held before. *)
Theorem routing_after_refresh (a : vaultAgent) (done : upstream_result)
  (now : Z) (request : Request) :
  now - VAULT_CONFIG_CHECK_FREQUENCY * 1000 > lastConfigCheck a ->
  ref_ctl (getVaultConfigDetails a done now) = Returned ->
  let a' := ref_agent (getVaultConfigDetails a done now) in
  exists owner,
    owner ∈ Servers (vaultConfigResponse a') /\
    GetRoutingServer a' request = Ok (Address owner).
Proof.
  intros Hdue Hret. cbv zeta.
  destruct (AgentFacts.getVaultConfigDetails_publishes a done now Hdue Hret)
    as (a0 & Hne & Hresp & Htab & _).
  by apply (GetRoutingServer_published _ a0).
Qed.

End Routing.
(** The routing hash of a token is an unsigned 32-bit number, so that
    [int(hash(token)) % N] is an index of the snapshot. *)
Theorem hash_fits_uint32 (token : string) :
  0 <= hash token < 2 ^ 32 /\
  forall n : nat,
    0 <= Z.rem (hash token) (Z.of_nat (S n)) < Z.of_nat (S n).
Proof.
  pose proof (AgentFacts.hash_range token) as Hrange.
  split; [done|]. intros n.
  rewrite Z.rem_mod_nonneg by lia. apply Z.mod_pos_bound. lia.
Qed.

(** Two servers listed at port 8200 are moved to the ports 7200 and
    7201. *)
Lemma changePortMapping_ports_8200 :
  Forall2 (fun srv hp =>
             Address srv = hp.1 +:+ ":" +:+ strconv_Itoa hp.2 /\
             no_colon hp.1 = true /\ 0 <= hp.2 <= 65535)
          (Servers (vaultConfigResponse MoreExamples.listed_agent))
          MoreExamples.listed_ports /\
  exists servers',
    changePortMapping MoreExamples.listed_agent =
    (with_response MoreExamples.listed_agent
       (with_Servers (vaultConfigResponse MoreExamples.listed_agent) servers'),
     None, []) /\
    length servers' = 2%nat.
Proof.
  assert (Hall :
    Forall2 (fun srv hp =>
               Address srv = hp.1 +:+ ":" +:+ strconv_Itoa hp.2 /\
               no_colon hp.1 = true /\ 0 <= hp.2 <= 65535)
            (Servers (vaultConfigResponse MoreExamples.listed_agent))
            MoreExamples.listed_ports).
  { repeat (constructor; [split; [reflexivity|split; [reflexivity|]];
                          split; discriminate|]).
    constructor. }
  split; [exact Hall|].
  destruct (changePortMapping_ports MoreExamples.listed_agent
              MoreExamples.listed_ports Hall) as (servers' & Hmap & Hlen & _).
  exists servers'. split; [exact Hmap|exact Hlen].
Defined.

(** A membership of one server listed as [localhost]. *)
Lemma refresh_panics_without_colon_localhost :
  (60000 - VAULT_CONFIG_CHECK_FREQUENCY * 1000
   > lastConfigCheck (NewVaultAgent "127.0.0.1:8001") /\
   Examples.peer "raft1" "localhost" ∈
   Servers (@json_Unmarshal MoreExamples.bare_host_Json
              (body_bytes (resp_Body Examples.ok_response))).1 /\
   no_colon (Address (Examples.peer "raft1" "localhost")) = true) /\
  ref_ctl (@getVaultConfigDetails MoreExamples.bare_host_Json
             (NewVaultAgent "127.0.0.1:8001")
             (Some Examples.ok_response, None) 60000) =
  Panicked index_out_of_range.
Proof.
  assert (H1 : 60000 - VAULT_CONFIG_CHECK_FREQUENCY * 1000
               > lastConfigCheck (NewVaultAgent "127.0.0.1:8001"))
    by reflexivity.
  assert (H2 : Examples.peer "raft1" "localhost" ∈
               Servers (@json_Unmarshal MoreExamples.bare_host_Json
                          (body_bytes (resp_Body Examples.ok_response))).1)
    by (left).
  assert (H3 : no_colon (Address (Examples.peer "raft1" "localhost")) = true)
    by reflexivity.
  split; [exact (conj H1 (conj H2 H3))|].
  exact (proj1 (@refresh_panics_without_colon MoreExamples.bare_host_Json
                  (NewVaultAgent "127.0.0.1:8001") Examples.ok_response None
                  60000 (Examples.peer "raft1" "localhost") H1 H2 H3)).
Defined.

(** A refresh answered by a page that is not JSON publishes the two mock
    servers; the token [t1] is routed to one of them. *)
Lemma routing_after_refresh_html :
  (60000 - VAULT_CONFIG_CHECK_FREQUENCY * 1000
   > lastConfigCheck Examples.settled_agent /\
   ref_ctl (@getVaultConfigDetails Examples.no_Json Examples.settled_agent
              (Some Examples.html_response, None) 60000) = Returned) /\
  exists owner,
    owner ∈ Servers (vaultConfigResponse
                       (ref_agent
                          (@getVaultConfigDetails Examples.no_Json
                             Examples.settled_agent
                             (Some Examples.html_response, None) 60000))) /\
    GetRoutingServer
      (ref_agent (@getVaultConfigDetails Examples.no_Json
                    Examples.settled_agent
                    (Some Examples.html_response, None) 60000))
      Examples.secret_request = Ok (Address owner).
Proof.
  assert (H1 : 60000 - VAULT_CONFIG_CHECK_FREQUENCY * 1000
               > lastConfigCheck Examples.settled_agent) by reflexivity.
  assert (H2 : ref_ctl (@getVaultConfigDetails Examples.no_Json
                          Examples.settled_agent
                          (Some Examples.html_response, None) 60000)
               = Returned) by (vm_compute; reflexivity).
  split; [exact (conj H1 H2)|].
  exact (@routing_after_refresh Examples.no_Json Examples.settled_agent
           (Some Examples.html_response, None) 60000 Examples.secret_request
           H1 H2).
Defined.

(** An address with a second colon. *)
Lemma changePorts_drops_after_second_colon_tls :
  (Address (Examples.peer "raft1" "10.0.0.1:8200:tls") =
   "10.0.0.1" +:+ ":" +:+ strconv_Itoa 8200 +:+ ":" +:+ "tls" /\
   no_colon "10.0.0.1" = true /\ 0 <= 8200 <= 65535) /\
  Address <$> (changePorts 0 [Examples.peer "raft1" "10.0.0.1:8200:tls"]).1.1
  = ["10.0.0.1:7200"].
Proof.
  assert (H1 : Address (Examples.peer "raft1" "10.0.0.1:8200:tls") =
               "10.0.0.1" +:+ ":" +:+ strconv_Itoa 8200 +:+ ":" +:+ "tls")
    by reflexivity.
  assert (H2 : no_colon "10.0.0.1" = true) by reflexivity.
  assert (H3 : 0 <= 8200 <= 65535) by (split; discriminate).
  split; [exact (conj H1 (conj H2 H3))|].
  rewrite (changePorts_drops_after_second_colon 0
             (Examples.peer "raft1" "10.0.0.1:8200:tls") "10.0.0.1" "tls" 8200
             H1 H2 H3).
  reflexivity.
Defined.

(** A membership of two servers: the mock servers are published at the
    ports 8003 and 8004. *)
Lemma refresh_publishes_mock_servers_two :
  (60000 - VAULT_CONFIG_CHECK_FREQUENCY * 1000
   > lastConfigCheck (NewVaultAgent "127.0.0.1:8001") /\
   Forall2 (fun srv hp =>
              Address srv = hp.1 +:+ ":" +:+ strconv_Itoa hp.2 /\
              no_colon hp.1 = true /\ 0 <= hp.2 <= 65535)
           (Servers (@json_Unmarshal MoreExamples.listed_Json
                       (body_bytes (resp_Body Examples.ok_response))).1)
           MoreExamples.listed_ports) /\
  mkServer "127.0.0.1:8003" false "raft2" ETX true
  ∈ Servers (vaultConfigResponse
               (ref_agent (@getVaultConfigDetails MoreExamples.listed_Json
                             (NewVaultAgent "127.0.0.1:8001")
                             (Some Examples.ok_response, None) 60000))).
Proof.
  assert (H1 : 60000 - VAULT_CONFIG_CHECK_FREQUENCY * 1000
               > lastConfigCheck (NewVaultAgent "127.0.0.1:8001"))
    by reflexivity.
  assert (H2 :
    Forall2 (fun srv hp =>
               Address srv = hp.1 +:+ ":" +:+ strconv_Itoa hp.2 /\
               no_colon hp.1 = true /\ 0 <= hp.2 <= 65535)
            (Servers (@json_Unmarshal MoreExamples.listed_Json
                        (body_bytes (resp_Body Examples.ok_response))).1)
            MoreExamples.listed_ports).
  { repeat (constructor; [split; [reflexivity|split; [reflexivity|]];
                          split; discriminate|]).
    constructor. }
  split; [exact (conj H1 H2)|].
  exact (proj1 (proj2 (proj2 (proj2
    (@refresh_publishes_mock_servers MoreExamples.listed_Json
       (NewVaultAgent "127.0.0.1:8001") Examples.ok_response None 60000
       MoreExamples.listed_ports H1 H2))))).
Defined.

End AgentMore.

(** ** The chain of handlers *)

Module PipelineMore.
Import Config ParseHeader Cache Limiter Agent Router Proxy Pipeline AgentMore.

Section Chain.
Context `{Digest} `{Json}.

Lemma ServeHTTP_cache_not_read (order : list string) (done : upstream_result)
  (now : Z) (c : vaultCache) (writer : ResponseWriter) (request : Request)
  (ctx : parseHeader) :
  isPathCacheable ctx && negb (isRequestIgnorable ctx) = false ->
  (ServeHTTP order done now c writer request ctx).1.2 = c.
Proof.
  intros Hread. unfold ServeHTTP. rewrite Hread.
  destruct done as [[response|] err]; cbn [surface]; [|done].
  by destruct (io_Copy _ _).
Qed.

Lemma RateLimitHandler_cache_not_read
  (next : vaultCache -> ResponseWriter -> Request -> parseHeader ->
          ctl * vaultCache * ResponseWriter)
  (order : list string) (l : tokenRateLimiter) (c : vaultCache)
  (writer : ResponseWriter) (request : Request) (ctx : parseHeader) (now : Z) :
  isPathCacheable ctx && negb (isRequestIgnorable ctx) = false ->
  (next c writer request ctx).1.2 = c ->
  out_cache (RateLimitHandler next order l c writer request ctx now).2 = c.
Proof.
  intros Hread Hnext. unfold RateLimitHandler.
  destruct (getFromLimiterCache order (purgeTokenLimiters l now)
              (limiterCacheKey ctx) now) as [l1 [lim|why]]; [|done].
  destruct (multiLimiter_Allow lim now) as [isAllowed lim'].
  cbn [snd out_cache]. unfold afterAllow. rewrite Hread.
  destruct isAllowed; cbn [negb]; [|done].
  by destruct (next c writer request ctx) as [[k c2] w].
Qed.

(** When the membership refresh of the router returns, a request that
    changes a secret removes the entry of its fingerprint from the cache of
    the agent that receives it, whether the limiter then lets it through or
    answers 429 and whatever the upstream answers to the request. *)
Theorem mutation_invalidates (s : server) (e : environment)
  (writer : ResponseWriter) (request : Request) :
  checkPathCacheable (URL_Path request) = true ->
  checkRequestIgnorable (Method request) = true ->
  ref_ctl (getVaultConfigDetails (agent s) (env_membership e) (env_now e))
  = Returned ->
  vaultCache_of (chain s e writer request).1.1 =
  removeFromCache (vaultCache_of s) (getMD5HashedCacheKey request).
Proof.
  intros Hpath Hmethod Hret. unfold chain.
  set (ctx := ParseHeaderHandler request).
  assert (Hp : isPathCacheable ctx = true) by exact Hpath.
  assert (Hm : isRequestIgnorable ctx = true) by exact Hmethod.
  assert (Hk : vaultCacheKey ctx = getMD5HashedCacheKey request) by done.
  clearbody ctx. cbv zeta. unfold VaultAgentHandler.
  rewrite Hret, Hp, Hm, Hk.
  set (c := removeFromCache _ _).
  pose proof (RateLimitHandler_cache_not_read
                (ServeHTTP (env_cache_order e) (env_upstream e) (env_now e))
                (env_limiter_order e) (rateLimiter s) c writer request ctx
                (env_now e)) as Hcache.
  destruct (RateLimitHandler _ _ _ c writer request ctx (env_now e))
    as [l o].
  cbn [fst snd vaultCache_of] in *. apply Hcache.
  - by rewrite Hp, Hm.
  - apply ServeHTTP_cache_not_read. by rewrite Hp, Hm.
Qed.

(** Only a read of a cacheable path is sent to a peer: for any other
    request the chain does the same whatever a peer would answer. *)
Theorem only_reads_are_forwarded (s : server) (e : environment)
  (writer : ResponseWriter) (request : Request) (peer' : peer_result) :
  checkPathCacheable (URL_Path request)
  && negb (checkRequestIgnorable (Method request)) = false ->
  chain s (mkEnvironment (env_now e) (env_membership e) peer' (env_upstream e)
                         (env_limiter_order e) (env_cache_order e))
        writer request =
  chain s e writer request.
Proof.
  intros Hread. unfold chain.
  set (ctx := ParseHeaderHandler request).
  assert (Hctx : isPathCacheable ctx && negb (isRequestIgnorable ctx) = false)
    by exact Hread.
  clearbody ctx. cbv zeta. unfold VaultAgentHandler.
  cbn [env_now env_membership env_peer env_upstream env_limiter_order
       env_cache_order].
  destruct (ref_ctl (getVaultConfigDetails (agent s) (env_membership e)
                                           (env_now e))); try done.
  destruct (isPathCacheable ctx); [|done].
  destruct (isRequestIgnorable ctx); [done|discriminate].
Qed.

(** A read whose owner is another agent, and which that agent answers, is
    answered with the peer's status, header and body; the registry of
    limiters and the cache of this agent are left as they were. *)
Theorem forwarded_read (s : server) (e : environment)
  (writer : ResponseWriter) (request : Request) (owner : string)
  (response : Response) :
  checkPathCacheable (URL_Path request) = true ->
  checkRequestIgnorable (Method request) = false ->
  let r := getVaultConfigDetails (agent s) (env_membership e) (env_now e) in
  ref_ctl r = Returned ->
  GetRoutingServer (ref_agent r) request = Ok owner ->
  owner <> myAddress (ref_agent r) ->
  env_peer e = (Some response, None) ->
  chain s e writer request =
  (mkServerState (ref_agent r) (rateLimiter s) (vaultCache_of s),
   if body_fails (resp_Body response)
   then Exited "Error copying response from agent." else Returned,
   Write (WriteHeader
            (with_Header writer
               (copyHeaders (w_Header writer) (resp_Header response)))
            (StatusCode response))
         (body_bytes (resp_Body response))).
Proof.
  intros Hpath Hmethod r Hret Howner Hne Hpeer. unfold chain.
  set (ctx := ParseHeaderHandler request).
  assert (Hp : isPathCacheable ctx = true) by exact Hpath.
  assert (Hm : isRequestIgnorable ctx = false) by exact Hmethod.
  clearbody ctx. cbv zeta. unfold VaultAgentHandler. fold r.
  rewrite Hret, Hp, Hm, Howner, Hpeer.
  apply String.eqb_neq in Hne. rewrite Hne. cbn [negb].
  unfold io_Copy. done.
Qed.

(** When the owner of a read cannot be reached, by a timeout or by any
    other error, nothing has been written and the request goes on through
    the limiter and the upstream stage of this agent. *)
Theorem peer_failure_falls_back (s : server) (e : environment)
  (writer : ResponseWriter) (request : Request) (owner : string)
  (answer : option Response) (err : peer_error) :
  checkPathCacheable (URL_Path request) = true ->
  checkRequestIgnorable (Method request) = false ->
  let r := getVaultConfigDetails (agent s) (env_membership e) (env_now e) in
  ref_ctl r = Returned ->
  GetRoutingServer (ref_agent r) request = Ok owner ->
  owner <> myAddress (ref_agent r) ->
  env_peer e = (answer, Some err) ->
  let local :=
    RateLimitHandler
      (ServeHTTP (env_cache_order e) (env_upstream e) (env_now e))
      (env_limiter_order e) (rateLimiter s) (vaultCache_of s) writer request
      (ParseHeaderHandler request) (env_now e) in
  chain s e writer request =
  (mkServerState (ref_agent r) local.1 (out_cache local.2),
   out_ctl local.2, out_writer local.2).
Proof.
  intros Hpath Hmethod r Hret Howner Hne Hpeer. cbv zeta. unfold chain.
  set (ctx := ParseHeaderHandler request).
  assert (Hp : isPathCacheable ctx = true) by exact Hpath.
  assert (Hm : isRequestIgnorable ctx = false) by exact Hmethod.
  clearbody ctx. cbv zeta. unfold VaultAgentHandler. fold r.
  rewrite Hret, Hp, Hm, Howner, Hpeer.
  apply String.eqb_neq in Hne. rewrite Hne. cbn [negb].
  destruct answer; by destruct (RateLimitHandler _ _ _ _ _ _ _ _) as [l o].
Qed.

Lemma getVaultConfigDetails_myAddress (a : vaultAgent)
  (done : upstream_result) (now : Z) :
  myAddress (ref_agent (getVaultConfigDetails a done now)) = myAddress a.
Proof.
  unfold getVaultConfigDetails.
  destruct (now - VAULT_CONFIG_CHECK_FREQUENCY * 1000 >? lastConfigCheck a);
    [|done].
  destruct done as [[resp|] err]; [|done].
  destruct (json_Unmarshal (body_bytes (resp_Body resp))) as [obj uerr].
  unfold changePortMapping.
  destruct (changePorts 0 _) as [[servers panic] logs].
  by destruct panic.
Qed.

(** The first read a server receives after it has started, when the
    membership refresh returns, the agent owns the token and the upstream
    answers 200: the limiter lets the request through, the response reaches
    the client as the upstream sent it, and it is in the cache under the
    fingerprint of the request. *)
Theorem first_read_of_a_new_server (proxyAddress : string) (started : Z)
  (e : environment) (writer : ResponseWriter) (request : Request)
  (response : Response) :
  let s := NewServer proxyAddress started in
  checkPathCacheable (URL_Path request) = true ->
  checkRequestIgnorable (Method request) = false ->
  ref_ctl (getVaultConfigDetails (agent s) (env_membership e) (env_now e))
  = Returned ->
  GetRoutingServer
    (ref_agent (getVaultConfigDetails (agent s) (env_membership e) (env_now e)))
    request = Ok proxyAddress ->
  env_upstream e = (Some response, None) ->
  StatusCode response = 200 ->
  let result := chain s e writer request in
  result.1.2 = Returned /\
  result.2 =
  Write (WriteHeader
           (with_Header writer
              (copyHeaders (w_Header writer) (resp_Header response)))
           200)
        (body_bytes (resp_Body response)) /\
  bodyData <$> cache (vaultCache_of result.1.1) !! getMD5HashedCacheKey request
  = Some (body_bytes (resp_Body response)) /\
  is_Some (limiterCache (rateLimiter result.1.1)
             !! getMD5HashedLimiterKey request).
Proof.
  intros s Hpath Hmethod Hret Howner Hup Hok. cbv zeta. unfold chain.
  set (ctx := ParseHeaderHandler request).
  assert (Hp : isPathCacheable ctx = true) by exact Hpath.
  assert (Hm : isRequestIgnorable ctx = false) by exact Hmethod.
  assert (Hk : limiterCacheKey ctx = getMD5HashedLimiterKey request) by done.
  assert (Hread : isPathCacheable ctx && negb (isRequestIgnorable ctx) = true)
    by (by rewrite Hp, Hm).
  clearbody ctx. cbv zeta. unfold VaultAgentHandler.
  rewrite Hret, Hp, Hm, Howner.
  rewrite getVaultConfigDetails_myAddress.
  replace (myAddress (agent s)) with proxyAddress by done.
  rewrite String.eqb_refl. cbn [negb].
  (* the limiter *)
  set (now := env_now e).
  set (l0 := purgeTokenLimiters (rateLimiter s) now).
  destruct (LimiterFacts.purgeTokenLimiters_config (rateLimiter s) now)
    as [Hb' Hr'].
  fold l0 in Hb', Hr'.
  assert (Hnew0 : limiterCache l0 !! limiterCacheKey ctx = None).
  { unfold l0. rewrite LimiterMore.purgeTokenLimiters_lookup.
    change (limiterCache (rateLimiter s)) with (∅ : gmap string visitor).
    by rewrite lookup_empty. }
  assert (Hsize0 : rateLimiterBucketSize l0 = RATE_LIMITER_BUCKET_SIZE).
  { unfold l0, purgeTokenLimiters.
    by destruct (now - RATE_LIMITER_PURGE_FREQUENCY * 1000 >?
                 lastRateLimiterPurge (rateLimiter s)). }
  erewrite LimiterMore.RateLimitHandler_with; last first.
  { fold l0. unfold getFromLimiterCache. rewrite Hnew0.
    apply LimiterMore.setInLimiterCache_fresh; by rewrite ?Hb', ?Hr'. }
  rewrite LimiterMore.multiLimiter_Allow_all
    by (apply LimiterMore.fresh_pair_allows; by rewrite Hsize0).
  cbn [fst snd out_ctl out_cache out_writer rateLimiter vaultCache_of].
  split_and!.
  4:{ unfold store_limiter. cbn [limiterCache with_limiterCache].
      rewrite <- Hk, lookup_alter_eq, lookup_insert_eq. by eexists. }
  all: pose proof (LimiterFacts.afterAllow_cases
                (ServeHTTP (env_cache_order e) (env_upstream e) now)
                true (vaultCache_of s) writer request ctx now) as Hcases;
    cbv zeta in Hcases; rewrite Hread in Hcases;
    rewrite CacheFacts.getCachedResponse_response in Hcases;
    change (cache (vaultCache_of s)) with (∅ : gmap string cachedResponse)
      in Hcases;
    rewrite lookup_empty in Hcases;
    destruct Hcases as (_ & Hnext);
    set (c1 := (getCachedResponse (vaultCache_of s) request now).2) in *;
    set (o := afterAllow _ true (vaultCache_of s) writer request ctx now) in *;
    clearbody o c1;
    revert Hnext; unfold ServeHTTP, refreshCache; rewrite Hread, Hup, Hok;
    cbn [Z.eqb Pos.eqb];
    pose proof (CacheFacts.setInCache_entry (env_cache_order e) c1
                  (getMD5HashedCacheKey request) response now) as Hentry;
    pose proof (ProxyFacts.setInCache_response (env_cache_order e) c1
                  (getMD5HashedCacheKey request) response now) as Hresp;
    destruct (setInCache (env_cache_order e) c1 (getMD5HashedCacheKey request)
                response now) as [c2 r2];
    cbn [fst snd] in Hentry, Hresp; subst r2;
    cbn [surface report io_Copy resp_Body resp_Header StatusCode NewReader
         body_fails body_bytes fst snd];
    intros [= E1 E2 E3]; rewrite ?E1, ?E2, ?E3.
  - done.
  - by rewrite Hok.
  - by rewrite Hentry.
Qed.

End Chain.

Section Stages.
Context `{Digest}.

Lemma ServeHTTP_stores_only_ok_reads_aux (order : list string)
  (response : Response) (err : option string) (now : Z) (c : vaultCache)
  (writer : ResponseWriter) (request : Request) (ctx : parseHeader) :
  (ServeHTTP order (Some response, err) now c writer request ctx).1.2 =
  if isPathCacheable ctx && negb (isRequestIgnorable ctx)
     && (StatusCode response =? 200)
  then (setInCache order c (getMD5HashedCacheKey request) response now).1
  else c.
Proof.
  unfold ServeHTTP, refreshCache.
  destruct (isPathCacheable ctx && negb (isRequestIgnorable ctx));
    cbn [andb].
  - destruct (StatusCode response =? 200).
    + destruct (setInCache order c (getMD5HashedCacheKey request) response now)
        as [c1 r1].
      cbn [surface fst]. by destruct (io_Copy _ _).
    + cbn [surface]. by destruct (io_Copy _ _).
  - cbn [surface]. by destruct (io_Copy _ _).
Qed.

(** The upstream stage stores a response exactly when the request is a
    read of a cacheable path and the status is 200; the error returned
    beside the response does not matter. *)
Theorem ServeHTTP_stores_only_ok_reads (order : list string)
  (response : Response) (err : option string) (now : Z) (c : vaultCache)
  (writer : ResponseWriter) (request : Request) (ctx : parseHeader) :
  (ServeHTTP order (Some response, err) now c writer request ctx).1.2 =
  if isPathCacheable ctx && negb (isRequestIgnorable ctx)
     && (StatusCode response =? 200)
  then (setInCache order c (getMD5HashedCacheKey request) response now).1
  else c.
Proof.
  unfold ServeHTTP, refreshCache.
  destruct (isPathCacheable ctx && negb (isRequestIgnorable ctx));
    cbn [andb].
  - destruct (StatusCode response =? 200).
    + destruct (setInCache order c (getMD5HashedCacheKey request) response now)
        as [c1 r1].
      cbn [surface fst]. by destruct (io_Copy _ _).
    + cbn [surface]. by destruct (io_Copy _ _).
  - cbn [surface]. by destruct (io_Copy _ _).
Qed.

(** Miss, then hit.  Once a read has gone through to the upstream stage
    and come back with status 200, the same read is answered from the cache
    until the entry expires: with the status, the header and the body of
    that response, without the next stage, and whether or not the limiter
    lets it through. *)
Theorem miss_then_hit
  (next : vaultCache -> ResponseWriter -> Request -> parseHeader ->
          ctl * vaultCache * ResponseWriter)
  (order order' cache_order : list string) (l l' : tokenRateLimiter)
  (c : vaultCache) (writer writer' : ResponseWriter) (request : Request)
  (ctx : parseHeader) (response : Response) (err : option string)
  (now now' : Z) :
  isPathCacheable ctx = true -> isRequestIgnorable ctx = false ->
  StatusCode response = 200 ->
  let first :=
    (RateLimitHandler (ServeHTTP cache_order (Some response, err) now)
                      order l c writer request ctx now).2 in
  EvNext ∈ out_trace first ->
  now' <= now + VAULT_CACHE_DEFAULT_EXPIRATION * 1000 ->
  burstLimitPerSec l' <> 0 -> rateLimitPerMin l' <> 0 ->
  let o := (RateLimitHandler next order' l' (out_cache first) writer'
                             request ctx now').2 in
  out_ctl o = Returned /\
  out_writer o =
  Write (WriteHeader
           (with_Header writer'
              (copyHeaders (w_Header writer') (resp_Header response)))
           200)
        (body_bytes (resp_Body response)) /\
  (EvNext ∉ out_trace o) /\ (EvTooManyRequests ∉ out_trace o).
Proof.
  intros Hp Hm Hok first Hnext Hfresh Hb Hr o.
  assert (Hread : isPathCacheable ctx && negb (isRequestIgnorable ctx) = true)
    by (by rewrite Hp, Hm).
  (* the first request has stored the response *)
  assert (Hstored : exists c0,
    out_cache first =
    (setInCache cache_order c0 (getMD5HashedCacheKey request) response now).1).
  { subst first. revert Hnext. unfold RateLimitHandler.
    destruct (getFromLimiterCache order (purgeTokenLimiters l now)
                (limiterCacheKey ctx) now) as [l1 [lim|why]];
      [|intros Hin; by apply elem_of_nil in Hin].
    destruct (multiLimiter_Allow lim now) as [isAllowed lim'].
    cbn [snd out_trace out_cache].
    pose proof (LimiterFacts.afterAllow_cases
                  (ServeHTTP cache_order (Some response, err) now)
                  isAllowed c writer request ctx now) as Hcases.
    cbv zeta in Hcases. rewrite Hread in Hcases.
    set (a := afterAllow _ isAllowed c writer request ctx now) in *.
    clearbody a.
    destruct ((getCachedResponse c request now).1) as [r0|].
    - destruct Hcases as (-> & _). intros Hin. trace_solver.
    - destruct isAllowed.
      + destruct Hcases as (_ & Hserve). intros _.
        exists (getCachedResponse c request now).2.
        pose proof (ServeHTTP_stores_only_ok_reads_aux cache_order response err
                      now (getCachedResponse c request now).2 writer request
                      ctx) as Hs.
        rewrite Hread, Hok in Hs. cbn [andb Z.eqb Pos.eqb] in Hs.
        rewrite <- Hs, <- Hserve. done.
      + destruct Hcases as (-> & _). intros Hin. trace_solver. }
  destruct Hstored as [c0 Hstored].
  assert (Hentry :
    cache (out_cache first) !! getMD5HashedCacheKey request =
    Some (mkCachedResponse
            (mkResponse (StatusCode response) (resp_Header response)
                        (NewReader (body_bytes (resp_Body response))))
            (body_bytes (resp_Body response))
            (now + VAULT_CACHE_DEFAULT_EXPIRATION * 1000) now))
    by (rewrite Hstored; apply CacheFacts.setInCache_entry).
  clearbody first. clear Hstored.
  (* the second request finds it *)
  destruct (LimiterFacts.getFromLimiterCache_ok order' (purgeTokenLimiters l' now')
              (limiterCacheKey ctx) now') as (l1 & lim & Hget & _).
  { by rewrite (proj1 (LimiterFacts.purgeTokenLimiters_config l' now')). }
  { by rewrite (proj2 (LimiterFacts.purgeTokenLimiters_config l' now')). }
  subst o. unfold RateLimitHandler. rewrite Hget.
  destruct (multiLimiter_Allow lim now') as [isAllowed lim'].
  cbn [snd out_ctl out_writer out_trace].
  pose proof (LimiterFacts.afterAllow_cases next isAllowed (out_cache first)
                writer' request ctx now') as Hcases.
  cbv zeta in Hcases. rewrite Hread in Hcases.
  rewrite CacheFacts.getCachedResponse_response, Hentry in Hcases.
  unfold isExpired in Hcases. cbn [expires] in Hcases.
  destruct (Z.gtb_spec now' (now + VAULT_CACHE_DEFAULT_EXPIRATION * 1000));
    [lia|].
  destruct Hcases as (Ht & _ & Hk & Hw). cbn in Hk, Hw.
  rewrite Hok in Hw. rewrite Ht.
  split; [done|]. split; [done|].
  split; intros Hin; apply elem_of_cons in Hin as [?|Hin]; try discriminate;
    trace_solver.
Qed.

(** A body that fails while it is read.  For a read of a cacheable path
    answered with status 200 the failure is not seen: the bytes read so far
    are stored and sent as the body.  For every other request the copy to
    the client fails and [log.Fatal] ends the process. *)
Theorem failing_body (order : list string) (response : Response)
  (err : option string) (now : Z) (c : vaultCache) (writer : ResponseWriter)
  (request : Request) (ctx : parseHeader) :
  body_fails (resp_Body response) = true ->
  let r := ServeHTTP order (Some response, err) now c writer request ctx in
  if isPathCacheable ctx && negb (isRequestIgnorable ctx)
     && (StatusCode response =? 200)
  then r.1.1 = Returned /\
       bodyData <$> cache r.1.2 !! getMD5HashedCacheKey request =
       Some (body_bytes (resp_Body response))
  else r.1.1 = Exited "Error copying response from cache.".
Proof.
  intros Hfails. cbv zeta. unfold ServeHTTP, refreshCache.
  destruct (isPathCacheable ctx && negb (isRequestIgnorable ctx));
    cbn [andb].
  - destruct (StatusCode response =? 200).
    + pose proof (CacheFacts.setInCache_entry order c
                    (getMD5HashedCacheKey request) response now) as Hentry.
      pose proof (ProxyFacts.setInCache_response order c
                    (getMD5HashedCacheKey request) response now) as Hresp.
      destruct (setInCache order c (getMD5HashedCacheKey request) response now)
        as [c1 r1].
      cbn [fst snd] in Hentry, Hresp. subst r1.
      cbn [surface io_Copy resp_Body NewReader body_fails fst snd].
      by rewrite Hentry.
    + cbn [surface io_Copy fst snd]. by rewrite Hfails.
  - cbn [surface io_Copy fst snd]. by rewrite Hfails.
Qed.

End Stages.

Section Router.
Context `{Json} {R : Type}.
Variable next : vaultCache -> ResponseWriter -> Request -> parseHeader -> R.

Lemma changePorts_panic_kind (i : Z) (servers : list Server) (w : string) :
  (changePorts i servers).1.2 = Some w -> w = index_out_of_range.
Proof.
  revert i. induction servers as [|server rest IH]; intros i; [done|].
  cbn [changePorts].
  destruct (strings_Split (Address server)) as [|host [|portText more]];
    try (by intros [= <-]).
  destruct (strconv_Atoi portText) as [port err].
  specialize (IH (i + 1)).
  by destruct (changePorts (i + 1) rest) as [[rest' panic] logs].
Qed.

(** What a refresh leaves of an agent that has a snapshot or has never
    completed a refresh. *)
Lemma refresh_keeps_snapshot (a : vaultAgent) (done : upstream_result)
  (now : Z) :
  (Servers (vaultConfigResponse a) = [] -> lastConfigCheck a = 0) ->
  VAULT_CONFIG_CHECK_FREQUENCY * 1000 < now ->
  let r := getVaultConfigDetails a done now in
  (Servers (vaultConfigResponse (ref_agent r)) = [] ->
   lastConfigCheck (ref_agent r) = 0) /\
  (ref_ctl r = Returned -> Servers (vaultConfigResponse (ref_agent r)) <> []) /\
  ref_ctl r <> Panicked integer_divide_by_zero.
Proof.
  intros Hinv Hclock. cbv zeta.
  destruct (Z.le_gt_cases (now - VAULT_CONFIG_CHECK_FREQUENCY * 1000)
                          (lastConfigCheck a)) as [Hnot|Hdue].
  - rewrite AgentFacts.getVaultConfigDetails_not_due by done.
    cbn [ref_agent ref_ctl]. split; [done|]. split; [|done].
    intros _ Hnil. specialize (Hinv Hnil). lia.
  - assert (Hgt : (now - VAULT_CONFIG_CHECK_FREQUENCY * 1000
                   >? lastConfigCheck a) = true) by lia.
    pose proof (AgentFacts.getVaultConfigDetails_publishes a done now
                  ltac:(lia)) as Hpub.
    revert Hpub. unfold getVaultConfigDetails. rewrite Hgt.
    destruct done as [[resp|] err]; [|done].
    destruct (json_Unmarshal (body_bytes (resp_Body resp))) as [obj uerr].
    set (a1 := with_response a (addMockServers obj)).
    assert (Hlen1 : length (Servers (vaultConfigResponse a1)) <> 0%nat).
    { subst a1. cbn. rewrite !length_app. cbn. lia. }
    pose proof (changePorts_length 0 (Servers (vaultConfigResponse a1)))
      as Hlen.
    pose proof (changePorts_panic_kind 0 (Servers (vaultConfigResponse a1)))
      as Hkind.
    unfold changePortMapping.
    destruct (changePorts 0 (Servers (vaultConfigResponse a1)))
      as [[servers panic] logs].
    cbn [fst snd] in Hlen, Hkind.
    destruct panic as [w|]; cbn [ref_ctl ref_agent].
    + intros _. rewrite (Hkind w eq_refl).
      cbn [with_response vaultConfigResponse with_Servers Servers].
      split; [|done]. intros Hnil. rewrite Hnil in Hlen.
      cbn [length] in Hlen. lia.
    + intros Hpub. destruct (Hpub eq_refl) as (a0 & Hne & Hresp & _).
      cbn [vaultConfigResponse] in Hresp |- *.
      assert (Hsome : Servers (vaultConfigResponse
                        (sortByNodeId
                           (with_response a1
                              (with_Servers (vaultConfigResponse a1) servers))))
                      <> []).
      { rewrite Hresp.
        destruct (AgentFacts.sort_Slice_byNodeId
                    (Servers (vaultConfigResponse a0))) as [Hperm _].
        rewrite (proj1 (AgentFacts.sortByNodeId_fields a0)).
        intros Hnil. rewrite Hnil in Hperm.
        by apply Permutation_nil in Hperm. }
      done.
Qed.

(** An agent that starts without a snapshot refreshes before it routes,
    and a refresh that returns has published at least the mock servers: the
    handler never divides by an empty membership, request after request. *)
Theorem router_never_divides_by_zero (a : vaultAgent) (c : vaultCache)
  (writer : ResponseWriter) (request : Request) (ctx : parseHeader)
  (refreshed : upstream_result) (peer : peer_result) (now : Z) :
  (Servers (vaultConfigResponse a) = [] -> lastConfigCheck a = 0) ->
  VAULT_CONFIG_CHECK_FREQUENCY * 1000 < now ->
  let result :=
    VaultAgentHandler next a c writer request ctx refreshed peer now in
  (Servers (vaultConfigResponse result.1.1) = [] ->
   lastConfigCheck result.1.1 = 0) /\
  forall c' w', result.2 <> Handled (Panicked integer_divide_by_zero) c' w'.
Proof.
  intros Hinv Hclock. cbv zeta.
  destruct (refresh_keeps_snapshot a refreshed now Hinv Hclock)
    as (Hinv' & Hsome & Hkind).
  unfold VaultAgentHandler.
  set (r := getVaultConfigDetails a refreshed now) in *. clearbody r.
  destruct (ref_ctl r) as [|why|why] eqn:Hctl; cbn [fst snd].
  - specialize (Hsome eq_refl).
    destruct (isPathCacheable ctx); [|done].
    destruct (isRequestIgnorable ctx); [done|].
    unfold GetRoutingServer.
    destruct (Z.eqb_spec
                (Z.of_nat (length (Servers (vaultConfigResponse (ref_agent r)))))
                0) as [Hz|_].
    { destruct (Servers (vaultConfigResponse (ref_agent r))); [done|].
      cbn [length] in Hz. lia. }
    destruct (negb _); [|done].
    destruct peer as [[response|] [err|]]; try done.
    cbn [fst snd]. split; [done|]. intros c' w'.
    unfold io_Copy. by destruct (body_fails (resp_Body response)).
  - split; [done|]. intros c' w' [= -> _ _]. done.
  - done.
Qed.

End Router.
(** A write of the secret that is in the cache. *)
Lemma mutation_invalidates_write :
  (checkPathCacheable (URL_Path MoreExamples.write_request) = true /\
   checkRequestIgnorable (Method MoreExamples.write_request) = true /\
   ref_ctl (@getVaultConfigDetails Examples.no_Json
              (agent MoreExamples.settled_server)
              (env_membership (MoreExamples.world 60000 (None, None)))
              (env_now (MoreExamples.world 60000 (None, None)))) = Returned) /\
  cache (vaultCache_of
           (@chain Examples.plain_Digest Examples.no_Json
              MoreExamples.settled_server
              (MoreExamples.world 60000 (None, None)) new_writer
              MoreExamples.write_request).1.1)
    !! Examples.secret_key = None.
Proof.
  assert (H1 : checkPathCacheable (URL_Path MoreExamples.write_request) = true)
    by reflexivity.
  assert (H2 : checkRequestIgnorable (Method MoreExamples.write_request) = true)
    by reflexivity.
  assert (H3 : ref_ctl (@getVaultConfigDetails Examples.no_Json
                          (agent MoreExamples.settled_server)
                          (env_membership (MoreExamples.world 60000 (None, None)))
                          (env_now (MoreExamples.world 60000 (None, None))))
               = Returned) by (vm_compute; reflexivity).
  split; [exact (conj H1 (conj H2 H3))|].
  rewrite (@mutation_invalidates Examples.plain_Digest Examples.no_Json
             MoreExamples.settled_server
             (MoreExamples.world 60000 (None, None)) new_writer
             MoreExamples.write_request H1 H2 H3).
  reflexivity.
Defined.

(** A write is processed by the agent that receives it, whether or not a
    peer would answer. *)
Lemma only_reads_are_forwarded_write :
  checkPathCacheable (URL_Path MoreExamples.write_request)
  && negb (checkRequestIgnorable (Method MoreExamples.write_request)) = false /\
  @chain Examples.plain_Digest Examples.no_Json MoreExamples.settled_server
    (MoreExamples.world 1000 (Some Examples.unavailable_response, None))
    new_writer MoreExamples.write_request =
  @chain Examples.plain_Digest Examples.no_Json MoreExamples.settled_server
    (MoreExamples.world 1000 (None, None)) new_writer
    MoreExamples.write_request.
Proof.
  assert (H1 : checkPathCacheable (URL_Path MoreExamples.write_request)
               && negb (checkRequestIgnorable
                          (Method MoreExamples.write_request)) = false)
    by reflexivity.
  split; [exact H1|].
  exact (@only_reads_are_forwarded Examples.plain_Digest Examples.no_Json
           MoreExamples.settled_server (MoreExamples.world 1000 (None, None))
           new_writer MoreExamples.write_request
           (Some Examples.unavailable_response, None) H1).
Defined.

(** The read of token [t1] belongs to the peer at 10.0.0.2; this agent is
    10.0.0.1 and passes the peer's 503 on. *)
Lemma forwarded_read_503 :
  (checkPathCacheable (URL_Path Examples.secret_request) = true /\
   checkRequestIgnorable (Method Examples.secret_request) = false /\
   ref_ctl (@getVaultConfigDetails Examples.no_Json
              (agent MoreExamples.settled_server)
              (Some Examples.html_response, None) 1000) = Returned /\
   GetRoutingServer
     (ref_agent (@getVaultConfigDetails Examples.no_Json
                   (agent MoreExamples.settled_server)
                   (Some Examples.html_response, None) 1000))
     Examples.secret_request = Ok "10.0.0.2:7200" /\
   "10.0.0.2:7200" <>
   myAddress (ref_agent (@getVaultConfigDetails Examples.no_Json
                           (agent MoreExamples.settled_server)
                           (Some Examples.html_response, None) 1000))) /\
  w_status
    (@chain Examples.plain_Digest Examples.no_Json MoreExamples.settled_server
       (MoreExamples.world 1000 (Some Examples.unavailable_response, None))
       new_writer Examples.secret_request).2 = Some 503.
Proof.
  assert (H1 : checkPathCacheable (URL_Path Examples.secret_request) = true)
    by reflexivity.
  assert (H2 : checkRequestIgnorable (Method Examples.secret_request) = false)
    by reflexivity.
  assert (H3 : ref_ctl (@getVaultConfigDetails Examples.no_Json
                          (agent MoreExamples.settled_server)
                          (Some Examples.html_response, None) 1000) = Returned)
    by reflexivity.
  assert (H4 : GetRoutingServer
                 (ref_agent (@getVaultConfigDetails Examples.no_Json
                               (agent MoreExamples.settled_server)
                               (Some Examples.html_response, None) 1000))
                 Examples.secret_request = Ok "10.0.0.2:7200")
    by (vm_compute; reflexivity).
  assert (H5 : "10.0.0.2:7200" <>
               myAddress (ref_agent (@getVaultConfigDetails Examples.no_Json
                                       (agent MoreExamples.settled_server)
                                       (Some Examples.html_response, None)
                                       1000)))
    by discriminate.
  split; [exact (conj H1 (conj H2 (conj H3 (conj H4 H5))))|].
  rewrite (@forwarded_read Examples.plain_Digest Examples.no_Json
             MoreExamples.settled_server
             (MoreExamples.world 1000 (Some Examples.unavailable_response, None))
             new_writer Examples.secret_request "10.0.0.2:7200"
             Examples.unavailable_response H1 H2 H3 H4 H5 eq_refl).
  reflexivity.
Defined.

(** The same read when the peer does not answer in time: the secret is in
    the cache of this agent and is served from it. *)
Lemma peer_failure_falls_back_timeout :
  (checkPathCacheable (URL_Path Examples.secret_request) = true /\
   checkRequestIgnorable (Method Examples.secret_request) = false /\
   ref_ctl (@getVaultConfigDetails Examples.no_Json
              (agent MoreExamples.settled_server)
              (Some Examples.html_response, None) 1000) = Returned /\
   GetRoutingServer
     (ref_agent (@getVaultConfigDetails Examples.no_Json
                   (agent MoreExamples.settled_server)
                   (Some Examples.html_response, None) 1000))
     Examples.secret_request = Ok "10.0.0.2:7200" /\
   "10.0.0.2:7200" <>
   myAddress (ref_agent (@getVaultConfigDetails Examples.no_Json
                           (agent MoreExamples.settled_server)
                           (Some Examples.html_response, None) 1000))) /\
  w_status
    (@chain Examples.plain_Digest Examples.no_Json MoreExamples.settled_server
       (MoreExamples.world 1000 (None, Some MoreExamples.timed_out))
       new_writer Examples.secret_request).2 = Some 200.
Proof.
  assert (H1 : checkPathCacheable (URL_Path Examples.secret_request) = true)
    by reflexivity.
  assert (H2 : checkRequestIgnorable (Method Examples.secret_request) = false)
    by reflexivity.
  assert (H3 : ref_ctl (@getVaultConfigDetails Examples.no_Json
                          (agent MoreExamples.settled_server)
                          (Some Examples.html_response, None) 1000) = Returned)
    by reflexivity.
  assert (H4 : GetRoutingServer
                 (ref_agent (@getVaultConfigDetails Examples.no_Json
                               (agent MoreExamples.settled_server)
                               (Some Examples.html_response, None) 1000))
                 Examples.secret_request = Ok "10.0.0.2:7200")
    by (vm_compute; reflexivity).
  assert (H5 : "10.0.0.2:7200" <>
               myAddress (ref_agent (@getVaultConfigDetails Examples.no_Json
                                       (agent MoreExamples.settled_server)
                                       (Some Examples.html_response, None)
                                       1000)))
    by discriminate.
  split; [exact (conj H1 (conj H2 (conj H3 (conj H4 H5))))|].
  rewrite (@peer_failure_falls_back Examples.plain_Digest Examples.no_Json
             MoreExamples.settled_server
             (MoreExamples.world 1000 (None, Some MoreExamples.timed_out))
             new_writer Examples.secret_request "10.0.0.2:7200" None
             MoreExamples.timed_out H1 H2 H3 H4 H5 eq_refl).
  vm_compute. reflexivity.
Defined.

(** A first read of the secret at instant 1000 and a second at 2000,
    with a registry that has a token left and a next stage that is not
    reached. *)
Lemma miss_then_hit_secret :
  (isPathCacheable Examples.secret_ctx = true /\
   isRequestIgnorable Examples.secret_ctx = false /\
   StatusCode Examples.ok_response = 200 /\
   EvNext ∈
   out_trace
     (@RateLimitHandler Examples.plain_Digest
        (@ServeHTTP Examples.plain_Digest [] (Some Examples.ok_response, None)
           1000)
        [] Examples.shipped_registry (NewVaultCache 0) new_writer
        Examples.secret_request Examples.secret_ctx 1000).2 /\
   2000 <= 1000 + VAULT_CACHE_DEFAULT_EXPIRATION * 1000 /\
   burstLimitPerSec Examples.shipped_registry <> 0 /\
   rateLimitPerMin Examples.shipped_registry <> 0) /\
  w_body
    (out_writer
       (@RateLimitHandler Examples.plain_Digest Examples.no_content []
          Examples.shipped_registry
          (out_cache
             (@RateLimitHandler Examples.plain_Digest
                (@ServeHTTP Examples.plain_Digest []
                   (Some Examples.ok_response, None) 1000)
                [] Examples.shipped_registry (NewVaultCache 0) new_writer
                Examples.secret_request Examples.secret_ctx 1000).2)
          new_writer Examples.secret_request Examples.secret_ctx 2000).2) =
  "{k:v}".
Proof.
  assert (H1 : isPathCacheable Examples.secret_ctx = true) by reflexivity.
  assert (H2 : isRequestIgnorable Examples.secret_ctx = false) by reflexivity.
  assert (H3 : StatusCode Examples.ok_response = 200) by reflexivity.
  assert (Htrace :
    out_trace
      (@RateLimitHandler Examples.plain_Digest
         (@ServeHTTP Examples.plain_Digest [] (Some Examples.ok_response, None)
            1000)
         [] Examples.shipped_registry (NewVaultCache 0) new_writer
         Examples.secret_request Examples.secret_ctx 1000).2 =
    [EvAllow (limiterCacheKey Examples.secret_ctx) true;
     EvCacheLookup false; EvNext]) by (vm_compute; reflexivity).
  assert (H4 : EvNext ∈
    out_trace
      (@RateLimitHandler Examples.plain_Digest
         (@ServeHTTP Examples.plain_Digest [] (Some Examples.ok_response, None)
            1000)
         [] Examples.shipped_registry (NewVaultCache 0) new_writer
         Examples.secret_request Examples.secret_ctx 1000).2).
  { rewrite Htrace. right. right. left. }
  assert (H5 : 2000 <= 1000 + VAULT_CACHE_DEFAULT_EXPIRATION * 1000)
    by discriminate.
  assert (H6 : burstLimitPerSec Examples.shipped_registry <> 0)
    by discriminate.
  assert (H7 : rateLimitPerMin Examples.shipped_registry <> 0)
    by discriminate.
  split.
  { split; [exact H1|]. split; [exact H2|]. split; [exact H3|].
    split; [exact H4|]. split; [exact H5|]. split; [exact H6|exact H7]. }
  rewrite (proj1 (proj2
    (@miss_then_hit Examples.plain_Digest Examples.no_content [] [] []
       Examples.shipped_registry Examples.shipped_registry (NewVaultCache 0)
       new_writer new_writer Examples.secret_request Examples.secret_ctx
       Examples.ok_response None 1000 2000 H1 H2 H3 H4 H5 H6 H7))).
  reflexivity.
Defined.

(** A server that has just started, at its first request. *)
Lemma router_never_divides_by_zero_start :
  ((Servers (vaultConfigResponse (NewVaultAgent "127.0.0.1:8001")) = [] ->
    lastConfigCheck (NewVaultAgent "127.0.0.1:8001") = 0) /\
   VAULT_CONFIG_CHECK_FREQUENCY * 1000 < 60000) /\
  forall c' w',
    (@VaultAgentHandler Examples.no_Json unit MoreExamples.stop
       (NewVaultAgent "127.0.0.1:8001") (NewVaultCache 0) new_writer
       Examples.secret_request Examples.secret_ctx
       (Some Examples.html_response, None) (None, None) 60000).2
    <> Handled (Panicked integer_divide_by_zero) c' w'.
Proof.
  assert (H1 : Servers (vaultConfigResponse (NewVaultAgent "127.0.0.1:8001"))
               = [] ->
               lastConfigCheck (NewVaultAgent "127.0.0.1:8001") = 0)
    by (intros _; reflexivity).
  assert (H2 : VAULT_CONFIG_CHECK_FREQUENCY * 1000 < 60000) by reflexivity.
  split; [exact (conj H1 H2)|].
  exact (proj2 (@router_never_divides_by_zero Examples.no_Json unit
                  MoreExamples.stop (NewVaultAgent "127.0.0.1:8001")
                  (NewVaultCache 0) new_writer Examples.secret_request
                  Examples.secret_ctx (Some Examples.html_response, None)
                  (None, None) 60000 H1 H2)).
Defined.

(** A 200 whose body breaks off after three bytes, for a read of the
    secret. *)
Lemma failing_body_truncated :
  body_fails (resp_Body MoreExamples.truncated_response) = true /\
  (@ServeHTTP Examples.plain_Digest [] (Some MoreExamples.truncated_response,
                                        None)
     1000 (NewVaultCache 0) new_writer Examples.secret_request
     Examples.secret_ctx).1.1 = Returned /\
  bodyData <$>
    cache (@ServeHTTP Examples.plain_Digest []
             (Some MoreExamples.truncated_response, None) 1000
             (NewVaultCache 0) new_writer Examples.secret_request
             Examples.secret_ctx).1.2
      !! @getMD5HashedCacheKey Examples.plain_Digest Examples.secret_request
  = Some "{k:".
Proof.
  assert (H1 : body_fails (resp_Body MoreExamples.truncated_response) = true)
    by reflexivity.
  split; [exact H1|].
  exact (@failing_body Examples.plain_Digest [] MoreExamples.truncated_response
           None 1000 (NewVaultCache 0) new_writer Examples.secret_request
           Examples.secret_ctx H1).
Defined.

(** The first read of token [t1] at a server started at 127.0.0.1:8002,
    which the two mock servers make the owner of the token. *)
Lemma first_read_of_a_new_server_t1 :
  (checkPathCacheable (URL_Path Examples.secret_request) = true /\
   checkRequestIgnorable (Method Examples.secret_request) = false /\
   ref_ctl (@getVaultConfigDetails Examples.no_Json
              (agent (NewServer "127.0.0.1:8002" 0))
              (env_membership (MoreExamples.world 60000 (None, None)))
              (env_now (MoreExamples.world 60000 (None, None)))) = Returned /\
   GetRoutingServer
     (ref_agent (@getVaultConfigDetails Examples.no_Json
                   (agent (NewServer "127.0.0.1:8002" 0))
                   (env_membership (MoreExamples.world 60000 (None, None)))
                   (env_now (MoreExamples.world 60000 (None, None)))))
     Examples.secret_request = Ok "127.0.0.1:8002" /\
   StatusCode Examples.ok_response = 200) /\
  (@chain Examples.plain_Digest Examples.no_Json
     (NewServer "127.0.0.1:8002" 0) (MoreExamples.world 60000 (None, None))
     new_writer Examples.secret_request).1.2 = Returned.
Proof.
  assert (H1 : checkPathCacheable (URL_Path Examples.secret_request) = true)
    by reflexivity.
  assert (H2 : checkRequestIgnorable (Method Examples.secret_request) = false)
    by reflexivity.
  assert (H3 : ref_ctl (@getVaultConfigDetails Examples.no_Json
                          (agent (NewServer "127.0.0.1:8002" 0))
                          (env_membership (MoreExamples.world 60000 (None, None)))
                          (env_now (MoreExamples.world 60000 (None, None))))
               = Returned) by (vm_compute; reflexivity).
  assert (H4 : GetRoutingServer
                 (ref_agent (@getVaultConfigDetails Examples.no_Json
                               (agent (NewServer "127.0.0.1:8002" 0))
                               (env_membership
                                  (MoreExamples.world 60000 (None, None)))
                               (env_now (MoreExamples.world 60000 (None, None)))))
                 Examples.secret_request = Ok "127.0.0.1:8002")
    by (vm_compute; reflexivity).
  assert (H5 : StatusCode Examples.ok_response = 200) by reflexivity.
  split; [exact (conj H1 (conj H2 (conj H3 (conj H4 H5))))|].
  exact (proj1 (@first_read_of_a_new_server Examples.plain_Digest
                  Examples.no_Json "127.0.0.1:8002" 0
                  (MoreExamples.world 60000 (None, None)) new_writer
                  Examples.secret_request Examples.ok_response
                  H1 H2 H3 H4 eq_refl H5)).
Defined.

End PipelineMore.

(** ** The method test in the chain *)

Module MethodFacts.
Import Config ParseHeader Cache Limiter Proxy.

Section Put.
Context `{Digest}.

(** C2, where the code departs from it.  [PUT] is not among the names of
    [METHODS_TO_IGNORE], so [checkRequestIgnorable] answers no and the
    handlers take a [PUT] on a cacheable path for a read.  When the secret
    is in the cache, the limiter stage answers the [PUT] with the cached
    response of the read and returns: the next stage is not called, so the
    update does not reach the upstream.  When the [PUT] does reach the
    upstream stage and is answered 200, that answer is stored under the
    fingerprint of the request, which does not depend on the method: a read
    with the same header and path is then answered with the response to the
    [PUT]. *)
Theorem PUT_is_handled_as_a_read
  (next : vaultCache -> ResponseWriter -> Request -> parseHeader ->
          ctl * vaultCache * ResponseWriter)
  (order cache_order : list string) (l : tokenRateLimiter) (c : vaultCache)
  (writer : ResponseWriter) (request : Request) (e : cachedResponse)
  (now : Z) :
  Method request = "PUT" ->
  checkPathCacheable (URL_Path request) = true ->
  burstLimitPerSec l <> 0 -> rateLimitPerMin l <> 0 ->
  cache c !! getMD5HashedCacheKey request = Some e ->
  now <= expires e ->
  let ctx := ParseHeaderHandler request in
  let o := (RateLimitHandler next order l c writer request ctx now).2 in
  isRequestIgnorable ctx = false /\
  out_ctl o = Returned /\
  out_writer o =
  Write (WriteHeader
           (with_Header writer
              (copyHeaders (w_Header writer) (resp_Header (response e))))
           (StatusCode (response e)))
        (bodyData e) /\
  (EvNext ∉ out_trace o) /\
  forall (answer : Response) (err : option string) (read : Request)
         (now' : Z),
    StatusCode answer = 200 ->
    req_Header read = req_Header request ->
    URL_Path read = URL_Path request ->
    now' <= now + VAULT_CACHE_DEFAULT_EXPIRATION * 1000 ->
    (getCachedResponse
       (ServeHTTP cache_order (Some answer, err) now c writer request ctx).1.2
       read now').1 =
    Some (mkResponse 200 (resp_Header answer)
                     (NewReader (body_bytes (resp_Body answer)))).
Proof.
  intros Hput Hpath Hb Hr He Hlive. cbv zeta.
  set (ctx := ParseHeaderHandler request).
  assert (Hp : isPathCacheable ctx = true) by exact Hpath.
  assert (Hm : isRequestIgnorable ctx = false).
  { unfold ctx. cbn [ParseHeaderHandler isRequestIgnorable].
    by rewrite Hput. }
  assert (Hread : isPathCacheable ctx && negb (isRequestIgnorable ctx) = true)
    by (by rewrite Hp, Hm).
  clearbody ctx.
  assert (Hx : isExpired e now = false) by (unfold isExpired; lia).
  split; [done|].
  assert (Hserved :
    let o := (RateLimitHandler next order l c writer request ctx now).2 in
    out_ctl o = Returned /\
    out_writer o =
    Write (WriteHeader
             (with_Header writer
                (copyHeaders (w_Header writer) (resp_Header (response e))))
             (StatusCode (response e)))
          (bodyData e) /\
    (EvNext ∉ out_trace o)).
  { cbv zeta.
    destruct (LimiterFacts.getFromLimiterCache_ok order
                (purgeTokenLimiters l now) (limiterCacheKey ctx) now)
      as (l1 & lim & Hget & _).
    { by rewrite (proj1 (LimiterFacts.purgeTokenLimiters_config l now)). }
    { by rewrite (proj2 (LimiterFacts.purgeTokenLimiters_config l now)). }
    unfold RateLimitHandler. rewrite Hget.
    destruct (multiLimiter_Allow lim now) as [isAllowed lim'].
    cbn [snd out_ctl out_writer out_trace].
    pose proof (LimiterFacts.afterAllow_cases next isAllowed c writer request
                  ctx now) as Hcases.
    cbv zeta in Hcases. rewrite Hread in Hcases.
    rewrite CacheFacts.getCachedResponse_response, He, Hx in Hcases.
    destruct Hcases as (Ht & _ & Hk & Hw). cbn in Hk, Hw.
    rewrite Ht. split; [done|]. split; [done|].
    intros Hin. apply elem_of_cons in Hin as [?|Hin]; [discriminate|].
    trace_solver. }
  cbv zeta in Hserved. destruct Hserved as (Hk & Hw & Ht).
  split; [done|]. split; [done|]. split; [done|].
  intros answer err read now' Hok Hheader Hsame Hfresh.
  assert (Hkey : getMD5HashedCacheKey read = getMD5HashedCacheKey request).
  { unfold getMD5HashedCacheKey, parseVaultRequest.
    by rewrite Hheader, Hsame. }
  rewrite CacheFacts.getCachedResponse_response, Hkey.
  unfold ServeHTTP, refreshCache. rewrite Hread, Hok. cbn [Z.eqb Pos.eqb].
  pose proof (CacheFacts.setInCache_entry cache_order c
                (getMD5HashedCacheKey request) answer now) as Hentry.
  destruct (setInCache cache_order c (getMD5HashedCacheKey request) answer now)
    as [c1 r1].
  cbn [fst] in Hentry. cbn [surface]. destruct (io_Copy _ _) as [w1 bad].
  cbn [fst snd]. rewrite Hentry. unfold isExpired. cbn [expires].
  destruct (Z.gtb_spec now' (now + VAULT_CACHE_DEFAULT_EXPIRATION * 1000));
    [lia|].
  unfold getResponse. cbn. by rewrite Hok.
Qed.

End Put.

(** The theorem at a [PUT] for the secret of token [t1] while the response
    of the read is in the cache: the client is sent the cached body. *)
Lemma PUT_is_handled_as_a_read_secret :
  (Method MoreExamples.put_request = "PUT" /\
   checkPathCacheable (URL_Path MoreExamples.put_request) = true /\
   burstLimitPerSec Examples.shipped_registry <> 0 /\
   rateLimitPerMin Examples.shipped_registry <> 0 /\
   cache Examples.one_entry_cache
     !! @getMD5HashedCacheKey Examples.plain_Digest MoreExamples.put_request
   = Some Examples.entry_at_1000 /\
   2000 <= expires Examples.entry_at_1000) /\
  out_writer
    (@RateLimitHandler Examples.plain_Digest Examples.no_content []
       Examples.shipped_registry Examples.one_entry_cache new_writer
       MoreExamples.put_request
       (@ParseHeaderHandler Examples.plain_Digest MoreExamples.put_request)
       2000).2 =
  Write (WriteHeader
           (with_Header new_writer
              (copyHeaders (w_Header new_writer)
                           [("Content-Type", "application/json")]))
           200)
        "{k:v}".
Proof.
  assert (H1 : Method MoreExamples.put_request = "PUT") by reflexivity.
  assert (H2 : checkPathCacheable (URL_Path MoreExamples.put_request) = true)
    by reflexivity.
  assert (H3 : burstLimitPerSec Examples.shipped_registry <> 0)
    by discriminate.
  assert (H4 : rateLimitPerMin Examples.shipped_registry <> 0)
    by discriminate.
  assert (H5 : cache Examples.one_entry_cache
                 !! @getMD5HashedCacheKey Examples.plain_Digest
                      MoreExamples.put_request
               = Some Examples.entry_at_1000) by (vm_compute; reflexivity).
  assert (H6 : 2000 <= expires Examples.entry_at_1000) by discriminate.
  split; [exact (conj H1 (conj H2 (conj H3 (conj H4 (conj H5 H6)))))|].
  exact (proj1 (proj2 (proj2
    (@PUT_is_handled_as_a_read Examples.plain_Digest Examples.no_content [] []
       Examples.shipped_registry Examples.one_entry_cache new_writer
       MoreExamples.put_request Examples.entry_at_1000 2000
       H1 H2 H3 H4 H5 H6)))).
Defined.

End MethodFacts.
